(** * Cell_Diffeomorphism: data-preparation scripts

    A shallow embedding of the three scripts of the repository,

    - [src/preprocessing/preprocess_MoNuSeg.py]: annotation parser,
      rasterizer, grid tiler and intra-image partitioner;
    - [src/preprocessing/simple_nuclei_detector.py]: [detection_eval];
    - [src/utils/prepare_dataset.py]: [prepare_dataset];

    followed by the properties proved about them.  Python integers are
    [Z], Python floats are [pyfloat] (a rational or one of the three special
    values), NumPy arrays are nested lists in row-major order, and the
    files a script writes are recorded as a list of [event]s in program
    order. *)

From Stdlib Require Import ZArith QArith Lia Ascii.
From stdpp Require Import base tactics list list_numbers strings pretty gmap.

Local Open Scope Z_scope.

(* ================================================================== *)
(** * Part I: the embedding *)
(* ================================================================== *)

(** ** Python values *)

(** The exceptions the modelled code can raise. *)
Inductive exn :=
  | ZeroDivisionError
  | ValueError (msg : string)
  | OverflowError
  | IndexError.

(** A call either raises ([inl]) or returns ([inr]). *)
Abbreviation result A := (exn + A)%type.

Definition raise {A} (e : exn) : result A := inl e.
Definition ret {A} (a : A) : result A := inr a.
Definition bind {A B} (m : result A) (k : A → result B) : result B :=
  match m with
  | inl e => inl e
  | inr a => k a
  end.

Notation "'let*' x := m 'in' k" := (bind m (fun x => k))
  (at level 10, x name, m at level 100, k at level 200, only parsing).

(** Iterating a fallible loop body over a list, left to right; the first
    exception ends the loop. *)
Fixpoint for_each {S X} (body : S → X → result S) (xs : list X) (st : S)
    : result S :=
  match xs with
  | [] => ret st
  | x :: xs' => let* st' := body st x in for_each body xs' st'
  end.

(** A Python float: every finite binary64 value is a rational; [inf],
    [-inf] and [nan] are kept apart because comparisons and [int()] treat
    them specially. *)
Inductive pyfloat :=
  | Finite (q : Q)
  | PosInf
  | NegInf
  | NaN.

Definition Qlt_bool (a b : Q) : bool := negb (Qle_bool b a).

(** [x < y] on floats: false as soon as one side is [nan]. *)
Definition float_lt (x y : pyfloat) : bool :=
  match x, y with
  | NaN, _ | _, NaN => false
  | Finite a, Finite b => Qlt_bool a b
  | Finite _, PosInf => true
  | Finite _, NegInf => false
  | PosInf, _ => false
  | NegInf, NegInf => false
  | NegInf, _ => true
  end.

(** [x >= y] on floats: false as soon as one side is [nan]. *)
Definition float_ge (x y : pyfloat) : bool :=
  match x, y with
  | NaN, _ | _, NaN => false
  | _, _ => negb (float_lt x y)
  end.

(** An integer used where a float is expected. *)
Definition float_of_int (z : Z) : pyfloat := Finite (inject_Z z).

(** [int(x)] for a float [x]: truncation toward zero; [nan] and the
    infinities raise. *)
Definition int_of_float (x : pyfloat) : result Z :=
  match x with
  | Finite q => ret (Z.quot (Qnum q) (Z.pos (Qden q)))
  | NaN => raise (ValueError "cannot convert float NaN to integer")
  | PosInf | NegInf => raise OverflowError
  end.

(** [a // b] on integers: floor division, [ZeroDivisionError] for [b = 0]. *)
Definition floordiv (a b : Z) : result Z :=
  if decide (b = 0) then raise ZeroDivisionError else ret (a `div` b).

(** [range(n)]. *)
Definition range (n : Z) : list Z := seqZ 0 n.

(** ['%s' % z] and ['%d' % z] for an integer [z]: its decimal numeral. *)
Definition str (z : Z) : string := pretty z.

(** ** NumPy arrays

    An image or a mask as [cv2.imread] returns it is an array of shape
    (H, W, C): a list of H rows, each a list of W pixels, each a list of
    C channel values (unsigned bytes).  A grayscale array of shape (H, W)
    is a list of H rows of W values. *)

Abbreviation ndarray := (list (list (list Z))).

(** [a.shape[0]] and [a.shape[1]].  The width is read off the first row;
    an array without rows has no column that a loop below could visit. *)
Definition shape0 {A} (a : list (list A)) : Z := Z.of_nat (length a).
Definition shape1 {A} (a : list (list A)) : Z :=
  Z.of_nat (length (default [] (head a))).

(** All rows of the array have the width [shape1] reports. *)
Definition rectangular {A} (a : list (list A)) : Prop :=
  Forall (λ row, Z.of_nat (length row) = shape1 a) a.

(** [np.zeros_like(a)]. *)
Definition zeros_like (a : ndarray) : ndarray :=
  (λ row : list (list Z), (λ px : list Z, (λ _, 0) <$> px) <$> row) <$> a.

(** [a * k] for a [uint8] array [a] and a Python integer [k]. *)
Definition mul_scalar (a : ndarray) (k : Z) : ndarray :=
  (λ row : list (list Z),
     (λ px : list Z, (λ x, (x * k) `mod` 256) <$> px) <$> row) <$> a.

(** A bound [i] of a slice over a sequence of length [len], as Python
    normalises it: a negative bound counts from the end, and the result is
    clamped to [0 .. len]. *)
Definition slice_bound (len i : Z) : Z :=
  if decide (i < 0) then Z.max (i + len) 0 else Z.min i len.

(** [l[lo:hi]]. *)
Definition slice {A} (lo hi : Z) (l : list A) : list A :=
  let len := Z.of_nat (length l) in
  let a := slice_bound len lo in
  let b := slice_bound len hi in
  take (Z.to_nat (b - a)) (drop (Z.to_nat a) l).

(** [a[h0:h1, w0:w1]] (and [a[h0:h1, w0:w1, :]]). *)
Definition slice2 {A} (h0 h1 w0 w1 : Z) (a : list (list A)) : list (list A) :=
  slice w0 w1 <$> slice h0 h1 a.

(** [l[lo:hi] = vals] where [vals] has the length of the slice it
    replaces, which is how the scripts use it (the right-hand side is the
    same slice of an array of the same shape): position [i] of the slice
    receives [vals[i - lo]], every other position is kept. *)
Definition slice_assign {A} (lo hi : Z) (vals l : list A) : list A :=
  let len := Z.of_nat (length l) in
  let a := slice_bound len lo in
  let b := slice_bound len hi in
  imap (λ i x,
    if decide (a ≤ Z.of_nat i < b)
    then default x (vals !! Z.to_nat (Z.of_nat i - a))
    else x) l.

(** [a[h0:h1, w0:w1] = patch]. *)
Definition slice_assign2 {A} (h0 h1 w0 w1 : Z) (patch a : list (list A))
    : list (list A) :=
  let len := Z.of_nat (length a) in
  let r0 := slice_bound len h0 in
  let r1 := slice_bound len h1 in
  imap (λ i row,
    if decide (r0 ≤ Z.of_nat i < r1)
    then match patch !! Z.to_nat (Z.of_nat i - r0) with
         | Some prow => slice_assign w0 w1 prow row
         | None => row
         end
    else row) a.

(** ** Files

    The scripts touch the file system through [os.makedirs] and
    [cv2.imwrite] only; a run is recorded as the list of these calls, in
    program order, with their arguments. *)
Inductive event :=
  | Makedirs (dir : string)
  | Imwrite (filename : string) (img : ndarray).

Definition is_slash (c : ascii) : bool := bool_decide (c = "/"%char).

Fixpoint dropwhile {A} (p : A → bool) (l : list A) : list A :=
  match l with
  | [] => []
  | x :: l' => if p x then dropwhile p l' else l
  end.

(** [os.path.dirname(p)] (posixpath): everything up to the last slash,
    with trailing slashes removed unless the head consists of slashes
    only. *)
Definition dirname (p : string) : string :=
  let rev_head :=
    dropwhile (λ c, negb (is_slash c))
      (reverse (String.list_ascii_of_string p)) in
  if forallb is_slash rev_head
  then String.string_of_list_ascii (reverse rev_head)
  else String.string_of_list_ascii (reverse (dropwhile is_slash rev_head)).

(** A file system, as far as the scripts can tell: the directories that
    exist, and the image files with the arrays they hold. *)
Record file_system := {
  dirs : gset string;
  files : gmap string ndarray
}.

(** A directory and the directories above it. *)
Fixpoint ancestors (fuel : nat) (d : string) : list string :=
  match fuel with
  | O => []
  | S fuel' => d :: ancestors fuel' (dirname d)
  end.

(** [os.makedirs(d, exist_ok=True)]: the directory and every missing
    directory above it exist afterwards. *)
Definition makedirs (d : string) (fs : file_system) : file_system :=
  {| dirs := dirs fs ∪ list_to_set (ancestors (S (String.length d)) d);
     files := files fs |}.

(** [cv2.imwrite(f, img)]: the file holds the array afterwards if its
    directory exists; otherwise nothing is written (the call returns
    [False]). *)
Definition imwrite (f : string) (img : ndarray) (fs : file_system)
    : file_system :=
  if decide (dirname f ∈ dirs fs)
  then {| dirs := dirs fs; files := <[f:=img]> (files fs) |}
  else fs.

(** The effect of a run on the file system. *)
Definition exec_event (fs : file_system) (e : event) : file_system :=
  match e with
  | Makedirs d => makedirs d fs
  | Imwrite f img => imwrite f img fs
  end.

Definition exec (events : list event) (fs : file_system) : file_system :=
  foldl exec_event fs events.

(** The images and masks written by a run, in program order. *)
Definition imwrites (log : list event) : list (string * ndarray) :=
  omap (λ e, match e with
             | Imwrite f img => Some (f, img)
             | Makedirs _ => None
             end) log.

(* ------------------------------------------------------------------ *)
(** ** preprocess_MoNuSeg.py: annotation parser *)
(* ------------------------------------------------------------------ *)

(** A [Vertex] element with its [X] and [Y] attributes, and a [Region]
    element with its [Area] and [Id] attributes and the [Vertex] elements
    below it.  Attributes are held as the values [float(...)] and
    [int(...)] read from them. *)
Record vertex := { X : pyfloat; Y : pyfloat }.
Record region := { Area : pyfloat; Id : Z; Vertices : list vertex }.

(** The vertices of one polygon: an array of shape (n, 2) holding
    [[y, x]] rows. *)
Abbreviation polygon := (list (pyfloat * pyfloat)).

(** The three variables the loop over the regions updates. *)
Record parser_state := {
  verts_list : list polygon;
  region_id_list : list Z;
  cnt_invalid : Z
}.

(** One iteration of [for region in regions] (lines 34-55). *)
Definition load_region (st : parser_state) (r : region) : parser_state :=
  let region_area := Area r in
  if float_lt region_area (Finite 1) then
    {| verts_list := verts_list st;
       region_id_list := region_id_list st;
       cnt_invalid := cnt_invalid st + 1 |}
  else
    let vertices := Vertices r in
    if decide (length vertices < 3)%nat then
      {| verts_list := verts_list st;
         region_id_list := region_id_list st;
         cnt_invalid := cnt_invalid st + 1 |}
    else
      let verts := (λ v, (Y v, X v)) <$> vertices in
      {| verts_list := verts_list st ++ [verts];
         region_id_list := region_id_list st ++ [Id r];
         cnt_invalid := cnt_invalid st |}.

(** The loop of [load_MoNuSeg_annotation] over the regions of a document. *)
Definition load_regions (regions : list region) : parser_state :=
  foldl load_region
    {| verts_list := []; region_id_list := []; cnt_invalid := 0 |} regions.

(** [load_MoNuSeg_annotation]: the line it prints, and the pair it
    returns. *)
Definition load_MoNuSeg_annotation (regions : list region)
    : string * (list polygon * list Z) :=
  let st := load_regions regions in
  ("Total polygons: " +:+ str (Z.of_nat (length regions))
     +:+ ", Invalid polygons: " +:+ str (cnt_invalid st),
   (verts_list st, region_id_list st)).

(* ------------------------------------------------------------------ *)
(** ** preprocess_MoNuSeg.py: rasterizer *)
(* ------------------------------------------------------------------ *)

(** [np.maximum(label, cell_mask).astype(np.uint8)] for a [uint8] array
    and a boolean array of the same shape. *)
Definition maximum (label : list (list Z)) (cell_mask : list (list bool))
    : list (list Z) :=
  zip_with (zip_with (λ l (b : bool), Z.max l (Z.b2z b) `mod` 256))
    label cell_mask.

Section Rasterizer.

(** The two library calls of [annotation_to_label]:
    [skimage.draw.polygon2mask(shape, cell)], a boolean array of the given
    shape, and [skimage.measure.centroid(cell_mask)], a pair of floats. *)
Variable polygon2mask : Z * Z → polygon → list (list bool).
Variable centroid : list (list bool) → pyfloat * pyfloat.

(** One iteration of [for idx, cell in enumerate(verts_list)]
    (lines 80-88). *)
Definition rasterize_cell (st : list (list Z) * list (Z * Z)) (cell : polygon)
    : result (list (list Z) * list (Z * Z)) :=
  let '(label, centroids) := st in
  let cell_mask := polygon2mask (shape0 label, shape1 label) cell in
  let label := maximum label cell_mask in
  let centroid := centroid cell_mask in
  let* c0 := int_of_float centroid.1 in
  let* c1 := int_of_float centroid.2 in
  ret (label, centroids ++ [(c0, c1)]).

(** [annotation_to_label]; [image_id] and [region_id_list] are not used
    by its body. *)
Definition annotation_to_label (verts_list : list polygon) (image : ndarray)
    (image_id : string) (region_id_list : list Z)
    : result (list (list Z) * list (Z * Z)) :=
  let label :=
    replicate (Z.to_nat (shape0 image)) (replicate (Z.to_nat (shape1 image)) 0) in
  for_each rasterize_cell verts_list (label, []).

End Rasterizer.

(* ------------------------------------------------------------------ *)
(** ** preprocess_MoNuSeg.py: grid tiler *)
(* ------------------------------------------------------------------ *)

(** The body of the two nested loops of
    [subset_patchify_MoNuSeg_data_by_cancer] (lines 274-290 and 302-319;
    [subset] is ["train"] in the first and ["test"] in the second). *)
Definition patchify_tile (imsize : Z) (target_folder cancer_type subset : string)
    (item : string) (image mask : ndarray) (image_h image_w : Z)
    (h_chunk w_chunk : Z) : list event :=
  let h := h_chunk * imsize in
  let w := w_chunk * imsize in
  let image_path_to :=
    target_folder +:+ "/" +:+ cancer_type +:+ "/" +:+ subset +:+ "/images/"
      +:+ item +:+ "_H" +:+ str h +:+ "W" +:+ str w +:+ ".png" in
  let mask_path_to :=
    target_folder +:+ "/" +:+ cancer_type +:+ "/" +:+ subset +:+ "/masks/"
      +:+ item +:+ "_H" +:+ str h +:+ "W" +:+ str w +:+ ".png" in
  let h_begin := Z.max h 0 in
  let w_begin := Z.max w 0 in
  let h_end := Z.min (h + imsize) image_h in
  let w_end := Z.min (w + imsize) image_w in
  let image_patch := slice2 h_begin h_end w_begin w_end image in
  let mask_patch := slice2 h_begin h_end w_begin w_end mask in
  [ Makedirs (dirname image_path_to);
    Makedirs (dirname mask_path_to);
    Imwrite image_path_to image_patch;
    Imwrite mask_path_to mask_patch ].

(** The tiling of one item, once its image and mask are read
    (lines 270-290 and 298-319): the events of all tiles, in program
    order. *)
Definition patchify_item (imsize : Z) (target_folder cancer_type subset : string)
    (item : string) (image mask : ndarray) : result (list event) :=
  let image_h := shape0 image in
  let image_w := shape1 image in
  let* rows := floordiv image_h imsize in
  for_each (λ log h_chunk,
    let* cols := floordiv image_w imsize in
    for_each (λ log w_chunk,
      ret (log ++ patchify_tile imsize target_folder cancer_type subset item
                    image mask image_h image_w h_chunk w_chunk))
      (range cols) log)
    (range rows) [].

(** The hard-coded lists of items per cancer type. *)
Definition train_list (cancer_type : string) : list string :=
  if decide (cancer_type = "breast") then
    [ "TCGA-A7-A13E-01Z-00-DX1"; "TCGA-A7-A13F-01Z-00-DX1";
      "TCGA-AR-A1AK-01Z-00-DX1"; "TCGA-AR-A1AS-01Z-00-DX1";
      "TCGA-E2-A1B5-01Z-00-DX1"; "TCGA-E2-A14V-01Z-00-DX1" ]
  else if decide (cancer_type = "colon") then
    [ "TCGA-AY-A8YK-01A-01-TS1"; "TCGA-NH-A8F7-01A-01-TS1" ]
  else if decide (cancer_type = "prostate") then
    [ "TCGA-G9-6336-01Z-00-DX1"; "TCGA-G9-6348-01Z-00-DX1";
      "TCGA-G9-6356-01Z-00-DX1"; "TCGA-G9-6363-01Z-00-DX1";
      "TCGA-CH-5767-01Z-00-DX1"; "TCGA-G9-6362-01Z-00-DX1" ]
  else [].

Definition test_list (cancer_type : string) : list string :=
  if decide (cancer_type = "breast") then
    [ "TCGA-AC-A2FO-01A-01-TS1"; "TCGA-AO-A0J2-01A-01-BSA" ]
  else if decide (cancer_type = "colon") then
    [ "TCGA-A6-6782-01A-01-BS1" ]
  else if decide (cancer_type = "prostate") then
    [ "TCGA-EJ-A46H-01A-03-TSC"; "TCGA-HC-7209-01A-01-TS1" ]
  else [].

Definition train_image_folder : string :=
  "../../external_data/MoNuSeg/MoNuSegTrainData/images/".
Definition train_mask_folder : string :=
  "../../external_data/MoNuSeg/MoNuSegTrainData/masks/".
Definition test_image_folder : string :=
  "../../external_data/MoNuSeg/MoNuSegTestData/images/".
Definition test_mask_folder : string :=
  "../../external_data/MoNuSeg/MoNuSegTestData/masks/".

(** [subset_patchify_MoNuSeg_data_by_cancer(imsize)].  [imread] stands for
    [cv2.imread] on the files written by the earlier steps of the script. *)
Definition subset_patchify_MoNuSeg_data_by_cancer
    (imread : string → ndarray) (imsize : Z) : result (list event) :=
  let target_folder :=
    "../../external_data/MoNuSeg/MoNuSegByCancer_" +:+ str imsize +:+ "x"
      +:+ str imsize +:+ "/" in
  for_each (λ log cancer_type,
    let* log :=
      for_each (λ log train_item,
        let image := imread (train_image_folder +:+ train_item +:+ ".png") in
        let mask := imread (train_mask_folder +:+ train_item +:+ ".png") in
        let* events :=
          patchify_item imsize target_folder cancer_type "train" train_item
            image mask in
        ret (log ++ events))
        (train_list cancer_type) log in
    for_each (λ log test_item,
      let image := imread (test_image_folder +:+ test_item +:+ ".png") in
      let mask := imread (test_mask_folder +:+ test_item +:+ ".png") in
      let* events :=
        patchify_item imsize target_folder cancer_type "test" test_item
          image mask in
      ret (log ++ events))
      (test_list cancer_type) log)
    ["breast"; "colon"; "prostate"] [].

(* ------------------------------------------------------------------ *)
(** ** preprocess_MoNuSeg.py: intra-image partitioner *)
(* ------------------------------------------------------------------ *)

(** [int(np.ceil(a / b))] for integers [a] and [b > 0]: the quotient is
    formed in binary64, which rounds no integer ratio across the next
    integer at the magnitudes of a tile count, so the result is the
    integer ceiling. *)
Definition ceil_div (a b : Z) : Z := - ((- a) `div` b).

(** The variables the two nested loops update: the tile counter, the two
    "effective" canvases, and the file-system calls made so far. *)
Record canvas_state := {
  curr_count : Z;
  image_effective : ndarray;
  mask_effective : ndarray;
  log : list event
}.

(** The events of the branch [curr_count < target_count] (lines 375-397). *)
Definition evidence_events (target_folder cancer_type : string)
    (test_item_count : Z) (test_item : string) (h w : Z)
    (image_patch mask_patch : ndarray) : list event :=
  let image_path_to :=
    target_folder +:+ "/" +:+ cancer_type +:+ "/img" +:+ str test_item_count
      +:+ "_train/images/" +:+ test_item
      +:+ "_H" +:+ str h +:+ "W" +:+ str w +:+ ".png" in
  let mask_path_to :=
    target_folder +:+ "/" +:+ cancer_type +:+ "/img" +:+ str test_item_count
      +:+ "_train/masks/" +:+ test_item
      +:+ "_H" +:+ str h +:+ "W" +:+ str w +:+ ".png" in
  let empty_image_patch := mul_scalar image_patch 0 in
  let empty_mask_patch := mul_scalar mask_patch 0 in
  let empty_image_path_to :=
    target_folder +:+ "/" +:+ cancer_type +:+ "/img" +:+ str test_item_count
      +:+ "_test/images/" +:+ test_item
      +:+ "_H" +:+ str h +:+ "W" +:+ str w +:+ ".png" in
  let empty_mask_path_to :=
    target_folder +:+ "/" +:+ cancer_type +:+ "/img" +:+ str test_item_count
      +:+ "_test/masks/" +:+ test_item
      +:+ "_H" +:+ str h +:+ "W" +:+ str w +:+ ".png" in
  [ Makedirs (dirname image_path_to);
    Makedirs (dirname mask_path_to);
    Imwrite image_path_to image_patch;
    Imwrite mask_path_to mask_patch;
    Makedirs (dirname empty_image_path_to);
    Makedirs (dirname empty_mask_path_to);
    Imwrite empty_image_path_to empty_image_patch;
    Imwrite empty_mask_path_to empty_mask_patch ].

(** The events of the [else] branch (lines 400-409). *)
Definition heldout_events (target_folder cancer_type : string)
    (test_item_count : Z) (test_item : string) (h w : Z)
    (image_patch mask_patch : ndarray) : list event :=
  let image_path_to :=
    target_folder +:+ "/" +:+ cancer_type +:+ "/img" +:+ str test_item_count
      +:+ "_test/images/" +:+ test_item
      +:+ "_H" +:+ str h +:+ "W" +:+ str w +:+ ".png" in
  let mask_path_to :=
    target_folder +:+ "/" +:+ cancer_type +:+ "/img" +:+ str test_item_count
      +:+ "_test/masks/" +:+ test_item
      +:+ "_H" +:+ str h +:+ "W" +:+ str w +:+ ".png" in
  [ Makedirs (dirname image_path_to);
    Makedirs (dirname mask_path_to);
    Imwrite image_path_to image_patch;
    Imwrite mask_path_to mask_patch ].

(** The body of the two nested loops (lines 363-415). *)
Definition intraimage_tile (imsize : Z) (target_folder cancer_type : string)
    (test_item_count : Z) (test_item : string) (image mask : ndarray)
    (image_h image_w target_count : Z)
    (st : canvas_state) (h_chunk w_chunk : Z) : canvas_state :=
  let h := h_chunk * imsize in
  let w := w_chunk * imsize in
  let h_begin := Z.max h 0 in
  let w_begin := Z.max w 0 in
  let h_end := Z.min (h + imsize) image_h in
  let w_end := Z.min (w + imsize) image_w in
  let image_patch := slice2 h_begin h_end w_begin w_end image in
  let mask_patch := slice2 h_begin h_end w_begin w_end mask in
  if decide (curr_count st < target_count) then
    {| curr_count := curr_count st + 1;
       image_effective := image_effective st;
       mask_effective := mask_effective st;
       log := log st ++ evidence_events target_folder cancer_type
                          test_item_count test_item h w image_patch mask_patch |}
  else
    {| curr_count := curr_count st + 1;
       image_effective :=
         slice_assign2 h_begin h_end w_begin w_end
           (slice2 h_begin h_end w_begin w_end image) (image_effective st);
       mask_effective :=
         slice_assign2 h_begin h_end w_begin w_end
           (slice2 h_begin h_end w_begin w_end mask) (mask_effective st);
       log := log st ++ heldout_events target_folder cancer_type
                          test_item_count test_item h w image_patch mask_patch |}.

(** The two writes after the loops (lines 418-423). *)
Definition effective_events (target_folder cancer_type : string)
    (test_item_count : Z) (test_item : string)
    (image_effective mask_effective : ndarray) : list event :=
  let image_effective_path_to :=
    target_folder +:+ "/" +:+ cancer_type +:+ "/img" +:+ str test_item_count
      +:+ "_test/" +:+ test_item +:+ "_effective_image.png" in
  let mask_effective_path_to :=
    target_folder +:+ "/" +:+ cancer_type +:+ "/img" +:+ str test_item_count
      +:+ "_test/" +:+ test_item +:+ "_effective_mask.png" in
  [ Imwrite image_effective_path_to image_effective;
    Imwrite mask_effective_path_to mask_effective ].

(** The state in which the nested loops are entered (lines 353-359), and
    the nested loops themselves (lines 361-415). *)
Definition intraimage_tiles (imsize : Z) (target_folder cancer_type : string)
    (test_item_count : Z) (test_item : string) (image mask : ndarray)
    (target_count : Z) : result canvas_state :=
  let image_h := shape0 image in
  let image_w := shape1 image in
  let* rows := floordiv image_h imsize in
  for_each (λ st h_chunk,
    let* cols := floordiv image_w imsize in
    for_each (λ st w_chunk,
      ret (intraimage_tile imsize target_folder cancer_type test_item_count
             test_item image mask image_h image_w target_count
             st h_chunk w_chunk))
      (range cols) st)
    (range rows)
    {| curr_count := 0;
       image_effective := zeros_like image;
       mask_effective := zeros_like mask;
       log := [] |}.

(** The partitioning of one test item for one percentage, once its image
    and mask are read (lines 351-423): the final values of the loop
    variables, the log holding every file-system call including the two
    writes of the effective canvases. *)
Definition intraimage_item (imsize percentage : Z)
    (target_folder cancer_type : string)
    (test_item_count : Z) (test_item : string) (image mask : ndarray)
    : result canvas_state :=
  let image_h := shape0 image in
  let image_w := shape1 image in
  let* rows := floordiv image_h imsize in
  let* cols := floordiv image_w imsize in
  let total_count := rows * cols in
  let target_count := ceil_div (percentage * total_count) 100 in
  let* st :=
    intraimage_tiles imsize target_folder cancer_type test_item_count
      test_item image mask target_count in
  ret {| curr_count := curr_count st;
         image_effective := image_effective st;
         mask_effective := mask_effective st;
         log := log st ++ effective_events target_folder cancer_type
                            test_item_count test_item
                            (image_effective st) (mask_effective st) |}.

(** [enumerate(l)]. *)
Definition enumerate {A} (l : list A) : list (Z * A) :=
  imap (λ i x, (Z.of_nat i, x)) l.

(** [subset_patchify_MoNuSeg_data_by_cancer_intraimage(imsize)]. *)
Definition subset_patchify_MoNuSeg_data_by_cancer_intraimage
    (imread : string → ndarray) (imsize : Z) : result (list event) :=
  for_each (λ events cancer_type,
    for_each (λ events percentage,
      let target_folder :=
        "../../external_data/MoNuSeg/MoNuSegByCancer_intraimage"
          +:+ str percentage +:+ "pct_" +:+ str imsize +:+ "x" +:+ str imsize
          +:+ "/" in
      for_each (λ events '(test_item_count, test_item),
        let image := imread (test_image_folder +:+ test_item +:+ ".png") in
        let mask := imread (test_mask_folder +:+ test_item +:+ ".png") in
        let* st :=
          intraimage_item imsize percentage target_folder cancer_type
            test_item_count test_item image mask in
        ret (events ++ log st))
        (enumerate (test_list cancer_type)) events)
      [5; 20; 50] events)
    ["breast"; "colon"; "prostate"] [].

(* ------------------------------------------------------------------ *)
(** ** simple_nuclei_detector.py: detection_eval *)
(* ------------------------------------------------------------------ *)

(** An index [i] into an axis of length [len], as NumPy reads it: a
    negative index counts from the end, and an index outside
    [-len .. len - 1] raises [IndexError]. *)
Definition index (len i : Z) : result nat :=
  if decide (0 ≤ i < len) then ret (Z.to_nat i)
  else if decide (- len ≤ i < 0) then ret (Z.to_nat (i + len))
  else raise IndexError.

(** [a[i, j] = v] on an array of shape (H, W). *)
Definition setitem2 (a : list (list Z)) (i j : Z) (v : Z)
    : result (list (list Z)) :=
  let* r := index (shape0 a) i in
  let* c := index (shape1 a) j in
  ret (alter (λ row : list Z, <[c:=v]> row) r a).

(** [(mask > 0) * 1.0]. *)
Definition binarize (mask : list (list Z)) : list (list Z) :=
  (λ row : list Z, (λ x, if decide (x > 0) then 1 else 0) <$> row) <$> mask.

(** [np.zeros_like(a)] for an array of shape (H, W). *)
Definition zeros_like2 (a : list (list Z)) : list (list Z) :=
  (λ row : list Z, (λ _, 0) <$> row) <$> a.

(** [np.sum(a * b)] for two arrays of the same shape. *)
Definition sum_product (a b : list (list Z)) : Z :=
  foldr Z.add 0 (concat (zip_with (zip_with Z.mul) a b)).

(** One iteration of [for n in nuclei_list] (lines 66-69); [mask] is the
    binarized mask, whose shape the bounds are read from. *)
Definition mark_nucleus (mask : list (list Z)) (nuclei_mask : list (list Z))
    (n : pyfloat * pyfloat) : result (list (list Z)) :=
  if float_lt n.1 (float_of_int 0) || float_ge n.1 (float_of_int (shape0 mask))
     || float_lt n.2 (float_of_int 0) || float_ge n.2 (float_of_int (shape1 mask))
  then ret nuclei_mask
  else
    let* i := int_of_float n.1 in
    let* j := int_of_float n.2 in
    setitem2 nuclei_mask i j 1.

Section DetectionEval.

(** [a / b] on NumPy binary64 scalars holding the integers [a] and [b]:
    the correctly rounded quotient, or [nan] or an infinity for [b = 0]. *)
Variable np_divide : Z → Z → pyfloat.

(** [detection_eval(nuclei_list, mask, total_pos)].  [TP] and [FN] are
    binary64 numbers in the code; they are held here as the integers they
    are equal to, which is exact as long as no count exceeds 2^53. *)
Definition detection_eval (nuclei_list : list (pyfloat * pyfloat))
    (mask : list (list Z)) (total_pos : Z) : result (pyfloat * Z * Z) :=
  let mask := binarize mask in
  let nuclei_mask := zeros_like2 mask in
  let* nuclei_mask := for_each (mark_nucleus mask) nuclei_list nuclei_mask in
  let TP := sum_product nuclei_mask mask in
  let FN := total_pos - TP in
  let recall := np_divide TP (TP + FN) in
  ret (recall, TP, FN).

End DetectionEval.

(* ------------------------------------------------------------------ *)
(** ** prepare_dataset.py *)
(* ------------------------------------------------------------------ *)

(** [s.split(sep)] for a one-character separator. *)
Fixpoint split (sep : ascii) (s : string) : list string :=
  match s with
  | EmptyString => [EmptyString]
  | String c s' =>
      if decide (c = sep) then EmptyString :: split sep s'
      else match split sep s' with
           | [] => [String c EmptyString]
           | w :: ws => String c w :: ws
           end
  end.

(** The library constructors and functions [prepare_dataset] calls, in
    the order of the calls.  Calls of methods of the objects they return
    ([num_image_channel], [len]) are not recorded. *)
Inductive call :=
  | Call_SyntheticDataset
  | Call_split_dataset
  | Call_ExtendedDataset
  | Call_DataLoader.

(** A computation that records the library calls it makes and either
    raises or returns. *)
Abbreviation traced A := (list call * result A)%type.

Definition tret {A} (a : A) : traced A := ([], ret a).
Definition traise {A} (e : exn) : traced A := ([], raise e).
Definition tbind {A B} (m : traced A) (k : A → traced B) : traced B :=
  match m with
  | (t, inl e) => (t, inl e)
  | (t, inr a) => let '(t', r) := k a in (t ++ t', r)
  end.
(** A library call: recorded, then its outcome. *)
Definition tcall {A} (c : call) (r : result A) : traced A := ([c], r).

Notation "'do*' x := m 'in' k" := (tbind m (fun x => k))
  (at level 10, x name, m at level 100, k at level 200, only parsing).

(** [[f(x) for x in l]] for a fallible [f]. *)
Fixpoint traverse {A B} (f : A → result B) (l : list A) : result (list B) :=
  match l with
  | [] => ret []
  | x :: l' => let* y := f x in let* ys := traverse f l' in ret (y :: ys)
  end.

Section PrepareDataset.

(** The types of the objects handled: [config.target_dim], Python floats
    under arithmetic, datasets (the synthetic dataset, its subsets and the
    extended subset alike) and data loaders. *)
Context {dim float dataset loader : Type}.

(** The configuration fields the function reads. *)
Record config := {
  dataset_name : string;
  dataset_path : string;
  target_dim : dim;
  train_val_test_ratio : string;
  random_seed : Z;
  batch_size : Z;
  num_workers : Z
}.

(** Python's [float(s)], [sum(l)], [x == 0] and [x / y] (for [y] not
    zero) on floats. *)
Variable float_of_str : string → result float.
Variable float_sum : list float → float.
Variable float_is_zero : float → bool.
Variable float_div : float → float → float.

(** The collaborators: [SyntheticDataset(base_path, target_dim)],
    [dataset.num_image_channel()], [split_dataset(dataset, splits,
    random_seed)], [len(dataset)], [ExtendedDataset(dataset, desired_len)]
    and [DataLoader(dataset, batch_size, shuffle, num_workers)]. *)
Variable SyntheticDataset : string → dim → result dataset.
Variable num_image_channel : dataset → result Z.
Variable split_dataset :
  dataset → list float → Z → result (dataset * dataset * dataset).
Variable len : dataset → Z.
Variable ExtendedDataset : dataset → Z → result dataset.
Variable DataLoader : dataset → Z → bool → Z → result loader.

(** [x / y] on Python floats. *)
Definition truediv (x y : float) : result float :=
  if float_is_zero y then raise ZeroDivisionError else ret (float_div x y).

Definition prepare_dataset (config : config)
    : traced (loader * loader * loader * Z) :=
  do* dataset :=
    (if decide (dataset_name config = "synthetic") then
       tcall Call_SyntheticDataset
         (SyntheticDataset (dataset_path config) (target_dim config))
     else
       traise (ValueError
         "Dataset not found. Check `dataset_name` in config yaml file.")) in
  do* num_image_channel := ([], num_image_channel dataset) in
  do* ratios :=
    ([], traverse float_of_str (split ":" (train_val_test_ratio config))) in
  do* ratios :=
    ([], traverse (λ c, truediv c (float_sum ratios)) ratios) in
  do* sets :=
    tcall Call_split_dataset
      (split_dataset dataset ratios (random_seed config)) in
  let '(train_set, val_set, test_set) := sets in
  let min_batch_per_epoch := 5 in
  let desired_len :=
    Z.max (len train_set) (batch_size config * min_batch_per_epoch) in
  do* train_set :=
    tcall Call_ExtendedDataset (ExtendedDataset train_set desired_len) in
  do* train_set :=
    tcall Call_DataLoader
      (DataLoader train_set (batch_size config) true (num_workers config)) in
  do* val_set :=
    tcall Call_DataLoader
      (DataLoader val_set (len val_set) false (num_workers config)) in
  do* test_set :=
    tcall Call_DataLoader
      (DataLoader test_set (len test_set) false (num_workers config)) in
  tret (train_set, val_set, test_set, num_image_channel).

End PrepareDataset.

(* ------------------------------------------------------------------ *)
(** ** preprocess_MoNuSeg.py: process_MoNuSeg_data *)
(* ------------------------------------------------------------------ *)

Fixpoint takewhile {A} (p : A → bool) (l : list A) : list A :=
  match l with
  | [] => []
  | x :: l' => if p x then x :: takewhile p l' else []
  end.

(** [os.path.basename(p)] (posixpath): everything after the last slash. *)
Definition basename (p : string) : string :=
  String.string_of_list_ascii
    (reverse (takewhile (λ c, negb (is_slash c))
                (reverse (String.list_ascii_of_string p)))).

(** What [process_MoNuSeg_data] can raise: a failed [assert], the
    [cv2.error] of a colour conversion, or one of the exceptions of the
    functions modelled above. *)
Inductive process_exn :=
  | AssertionError
  | cv2_error
  | Raised (e : exn).

(** What the two remaining functions of the script do to the outside: a
    line printed, a file-system call, or a shell command handed to
    [os.system]. *)
Inductive output :=
  | Print (line : string)
  | Fs (e : event)
  | Shell (cmd : string).

(** A computation that does these things in order and then either raises
    or returns. *)
Abbreviation logged A := (list output * (process_exn + A))%type.

Definition lret {A} (a : A) : logged A := ([], inr a).
Definition lraise {A} (e : process_exn) : logged A := ([], inl e).
Definition lbind {A B} (m : logged A) (k : A → logged B) : logged B :=
  match m with
  | (o, inl e) => (o, inl e)
  | (o, inr a) => let '(o', r) := k a in (o ++ o', r)
  end.
Definition emit (o : output) : logged unit := ([o], inr tt).

Notation "'run*' x := m 'in' k" := (lbind m (fun x => k))
  (at level 10, x name, m at level 100, k at level 200, only parsing).

(** A loop whose body does such things; the first exception ends it. *)
Fixpoint lfor_each {S X} (body : S → X → logged S) (xs : list X) (st : S)
    : logged S :=
  match xs with
  | [] => lret st
  | x :: xs' => run* st' := body st x in lfor_each body xs' st'
  end.

(** [assert c]. *)
Definition assert (c : bool) : logged unit :=
  if c then lret tt else lraise AssertionError.

(** [sorted(l)] for a list of strings: ascending in the order of their
    characters' codes. *)
Fixpoint insert_sorted (x : string) (l : list string) : list string :=
  match l with
  | [] => [x]
  | y :: l' => if String.leb x y then x :: l else y :: insert_sorted x l'
  end.

Definition sorted (l : list string) : list string :=
  foldr insert_sorted [] l.

(** [a.shape[-1]] for an array of shape (H, W, C), read off the first
    pixel. *)
Definition shape2 (a : ndarray) : Z :=
  Z.of_nat (length (default [] (head (default [] (head a))))).

(** [np.max(a)] for an array of shape (H, W): [ValueError] for an array
    without elements. *)
Definition np_max (a : list (list Z)) : result Z :=
  match concat a with
  | [] =>
      raise (ValueError
        "zero-size array to reduction operation maximum which has no identity")
  | x :: xs => ret (foldl Z.max x xs)
  end.

(** [np.uint8(mask * 255)] for a [uint8] array of shape (H, W). *)
Definition scale_mask (mask : list (list Z)) : list (list Z) :=
  (λ row : list Z, (λ x, (x * 255) `mod` 256) <$> row) <$> mask.

(** An array of shape (H, W) as [cv2.imwrite] stores it: one channel per
    pixel. *)
Definition gray (a : list (list Z)) : ndarray :=
  (λ row : list Z, (λ x, [x]) <$> row) <$> a.

(** The two conversion codes the script passes to [cv2.cvtColor]. *)
Inductive color_code := COLOR_BGR2RGB | COLOR_RGB2BGR.

Section ProcessMoNuSeg.

(** The library calls: [glob(pattern)], [cv2.imread(f,
    cv2.IMREAD_UNCHANGED)] on a file [glob] has listed,
    [cv2.cvtColor(image, code)] ([None] when it raises [cv2.error]), the
    [Region] elements that [ET.parse(xml_path)] finds below [Regions], and
    the two primitives of [annotation_to_label]. *)
Variable glob : string → list string.
Variable imread : string → ndarray.
Variable cvtColor : ndarray → color_code → option ndarray.
Variable parse : string → list region.
Variable polygon2mask : Z * Z → polygon → list (list bool).
Variable centroid : list (list bool) → pyfloat * pyfloat.

Definition cvt (image : ndarray) (code : color_code) : logged ndarray :=
  match cvtColor image code with
  | Some image' => lret image'
  | None => lraise cv2_error
  end.

(** A call of one of the functions modelled above, inside this one. *)
Definition lift {A} (r : result A) : logged A :=
  match r with
  | inl e => lraise (Raised e)
  | inr a => lret a
  end.

(** [os.path.basename(annotation_file).split('.')[0]]. *)
Definition image_id_of (annotation_file : string) : string :=
  default "" (head (split "." (basename annotation_file))).

(** One iteration of [for i, annotation_file in enumerate(annotation_files)]
    (lines 119-148); the loop variable carried along is [all_verts_list]. *)
Definition process_annotation_file
    (image_folder out_image_folder out_mask_folder : string)
    (image_files : list string)
    (all_verts_list : list polygon) (annotation_file : string)
    : logged (list polygon) :=
  let image_id := image_id_of annotation_file in
  let image_file := image_folder +:+ "/" +:+ image_id +:+ ".tif" in
  if decide (image_file ∉ image_files) then
    run* _ := emit (Print ("Image file " +:+ image_file +:+ " not found.")) in
    lret all_verts_list
  else
    let image := imread image_file in
    run* image := cvt image COLOR_BGR2RGB in
    (* [len(image.shape) == 3] holds of every [ndarray]. *)
    run* _ := assert true in
    run* _ := assert (bool_decide (shape2 image = 3)) in
    let '(line, (verts_list, region_id_list)) :=
      load_MoNuSeg_annotation (parse annotation_file) in
    run* _ := emit (Print line) in
    run* _ := emit (Print ("Done reading annotation for image " +:+ image_id)) in
    run* _ := emit (Print ("Number of annotated cells: "
                       +:+ str (Z.of_nat (length verts_list)))) in
    let all_verts_list := all_verts_list ++ verts_list in
    run* labelled :=
      lift (annotation_to_label polygon2mask centroid verts_list image
              image_id region_id_list) in
    let '(mask, centroids_list) := labelled in
    run* _ := emit (Fs (Makedirs out_image_folder)) in
    run* _ := emit (Fs (Makedirs out_mask_folder)) in
    let out_image_path := out_image_folder +:+ "/" +:+ image_id +:+ ".png" in
    let out_mask_path := out_mask_folder +:+ "/" +:+ image_id +:+ ".png" in
    run* top := lift (np_max mask) in
    run* _ := assert (bool_decide (top ∈ [0; 1])) in
    run* bgr := cvt image COLOR_RGB2BGR in
    run* _ := emit (Fs (Imwrite out_image_path bgr)) in
    run* _ := emit (Fs (Imwrite out_mask_path (gray (scale_mask mask)))) in
    lret all_verts_list.

(** The body of [for subset in ['test', 'train']] (lines 99-148). *)
Definition process_subset (subset : string) : logged unit :=
  let '(image_folder, annotation_folder, out_image_folder, out_mask_folder) :=
    if decide (subset = "train") then
      ("../../external_data/MoNuSeg/MoNuSegTrainData/Tissue Images",
       "../../external_data/MoNuSeg/MoNuSegTrainData/Annotations",
       "../../external_data/MoNuSeg/MoNuSegTrainData/images/",
       "../../external_data/MoNuSeg/MoNuSegTrainData/masks/")
    else
      ("../../external_data/MoNuSeg/MoNuSegTestData",
       "../../external_data/MoNuSeg/MoNuSegTestData",
       "../../external_data/MoNuSeg/MoNuSegTestData/images/",
       "../../external_data/MoNuSeg/MoNuSegTestData/masks/") in
  let annotation_files := sorted (glob (annotation_folder +:+ "/*.xml")) in
  let image_files := sorted (glob (image_folder +:+ "/*.tif")) in
  run* all_verts_list :=
    lfor_each
      (process_annotation_file image_folder out_image_folder out_mask_folder
         image_files)
      annotation_files [] in
  lret tt.

(** [process_MoNuSeg_data()]. *)
Definition process_MoNuSeg_data : logged unit :=
  lfor_each (λ _ subset, process_subset subset) ["test"; "train"] tt.

End ProcessMoNuSeg.

(* ------------------------------------------------------------------ *)
(** ** preprocess_MoNuSeg.py: subset_MoNuSeg_data_by_cancer *)
(* ------------------------------------------------------------------ *)

(** The body of the two loops over the items (lines 197-205 and 208-216;
    [subset] is ["train"] in the first and ["test"] in the second). *)
Definition copy_item (image_folder mask_folder target_folder : string)
    (cancer_type subset item : string) : list output :=
  let image_path_from := image_folder +:+ item +:+ ".png" in
  let mask_path_from := mask_folder +:+ item +:+ ".png" in
  let image_path_to :=
    target_folder +:+ "/" +:+ cancer_type +:+ "/" +:+ subset +:+ "/images/"
      +:+ item +:+ ".png" in
  let mask_path_to :=
    target_folder +:+ "/" +:+ cancer_type +:+ "/" +:+ subset +:+ "/masks/"
      +:+ item +:+ ".png" in
  [ Fs (Makedirs (dirname image_path_to));
    Fs (Makedirs (dirname mask_path_to));
    Shell ("cp " +:+ image_path_from +:+ " " +:+ image_path_to);
    Shell ("cp " +:+ mask_path_from +:+ " " +:+ mask_path_to) ].

(** [subset_MoNuSeg_data_by_cancer()]. *)
Definition subset_MoNuSeg_data_by_cancer : list output :=
  let target_folder := "../../external_data/MoNuSeg/MoNuSegByCancer/" in
  ["breast"; "colon"; "prostate"] ≫= λ cancer_type,
    (train_list cancer_type ≫= λ train_item,
       copy_item train_image_folder train_mask_folder target_folder
         cancer_type "train" train_item)
    ++ (test_list cancer_type ≫= λ test_item,
          copy_item test_image_folder test_mask_folder target_folder
            cancer_type "test" test_item).

(* ================================================================== *)
(** * Part II: vocabulary of the properties *)
(* ================================================================== *)

(** ** Annotation parser *)

(** The parser's policy: a region is rejected when its declared area is
    below 1.0 or it has fewer than three vertices. *)
Definition rejected (r : region) : Prop :=
  float_lt (Area r) (Finite 1) = true ∨ (length (Vertices r) < 3)%nat.

#[global] Instance rejected_dec r : Decision (rejected r).
Proof. unfold rejected. apply _. Defined.

(** The vertex array built for a surviving region. *)
Definition verts_of (r : region) : polygon :=
  (λ v, (Y v, X v)) <$> Vertices r.

(** A region with exactly three vertices, all finite, lying on one line:
    the triangle they span has area zero. *)
Definition zero_area_triangle (r : region) : Prop :=
  ∃ x1 y1 x2 y2 x3 y3 : Q,
    Vertices r = [ {| X := Finite x1; Y := Finite y1 |};
                   {| X := Finite x2; Y := Finite y2 |};
                   {| X := Finite x3; Y := Finite y3 |} ]
    ∧ ((x2 - x1) * (y3 - y1) - (x3 - x1) * (y2 - y1) == 0)%Q.

(** Three points of the diagonal, with a declared area of 5.0. *)
Definition collinear_region : region :=
  {| Area := Finite 5; Id := 7;
     Vertices := [ {| X := Finite 0; Y := Finite 0 |};
                   {| X := Finite 1; Y := Finite 1 |};
                   {| X := Finite 2; Y := Finite 2 |} ] |}.

(** ** Tiles *)

(** The sub-array of [s] rows and [s] columns whose top-left corner is at
    row [h] and column [w]. *)
Definition block {A} (a : list (list A)) (h w s : Z) : list (list A) :=
  (λ row, take (Z.to_nat s) (drop (Z.to_nat w) row))
    <$> take (Z.to_nat s) (drop (Z.to_nat h) a).

(** The element at row [r] and column [c], if the array has one. *)
Definition get2 {A} (a : list (list A)) (r c : nat) : option A :=
  a !! r ≫= λ row, row !! c.

(** Two arrays with the same number of rows and the same row widths. *)
Definition same_shape {A B} (a : list (list A)) (b : list (list B)) : Prop :=
  Forall2 (λ ra rb, length ra = length rb) a b.

(** An array with at least one row and one column, as every image that
    [cv2.imread] returns; [cv2.imwrite] raises [cv2.error] when it is
    handed an array without elements. *)
Definition nonempty {A} (a : list (list A)) : Prop :=
  0 < shape0 a ∧ 0 < shape1 a.

(** The file a tile of the grid tiler is written to. *)
Definition tile_path (target_folder cancer_type subset kind item : string)
    (h w : Z) : string :=
  target_folder +:+ "/" +:+ cancer_type +:+ "/" +:+ subset +:+ "/" +:+ kind
    +:+ "/" +:+ item +:+ "_H" +:+ str h +:+ "W" +:+ str w +:+ ".png".

(** A 5 x 5 image with three channels whose pixel at row [r] and column
    [c] holds [10 r + c] in every channel, and a mask of the same shape. *)
Definition sample_image : ndarray :=
  (λ r, (λ c, replicate 3 (10 * r + c)) <$> seqZ 0 5) <$> seqZ 0 5.
Definition sample_mask : ndarray :=
  (λ r, (λ c, replicate 3 (if decide (r = c) then 255 else 0)) <$> seqZ 0 5)
    <$> seqZ 0 5.

(** ** Intra-image partitioner *)

(** The number of the tile at row chunk [h_chunk] and column chunk
    [w_chunk] in row-major order, for a grid of [cols] columns. *)
Definition tile_number (cols h_chunk w_chunk : Z) : Z :=
  h_chunk * cols + w_chunk.

(** What the partitioner writes for the tile at ([h_chunk], [w_chunk])
    when that tile has the given number: the events of the evidence
    branch for a number below the target, of the held-out branch
    otherwise, on the full blocks of the image and the mask. *)
Definition tile_events (imsize : Z) (target_folder cancer_type : string)
    (test_item_count : Z) (test_item : string) (image mask : ndarray)
    (target_count : Z) (h_chunk w_chunk number : Z) : list event :=
  let h := h_chunk * imsize in
  let w := w_chunk * imsize in
  if decide (number < target_count) then
    evidence_events target_folder cancer_type test_item_count test_item h w
      (block image h w imsize) (block mask h w imsize)
  else
    heldout_events target_folder cancer_type test_item_count test_item h w
      (block image h w imsize) (block mask h w imsize).

(** The pixel at row [r] and column [c] lies in a tile of the grid whose
    number is at least the target: a held-out tile. *)
Definition heldout_pixel (imsize rows cols target_count : Z) (r c : nat)
    : Prop :=
  Z.of_nat r `div` imsize < rows
  ∧ Z.of_nat c `div` imsize < cols
  ∧ target_count ≤
      tile_number cols (Z.of_nat r `div` imsize) (Z.of_nat c `div` imsize).

#[global] Instance heldout_pixel_dec imsize rows cols target_count r c :
  Decision (heldout_pixel imsize rows cols target_count r c).
Proof. unfold heldout_pixel. apply _. Defined.

(** A pixel with every channel set to zero. *)
Definition zero_pixel (px : list Z) : list Z := (λ _, 0) <$> px.

(** The 1000 x 1000 image of the end-to-end example (all black). *)
Definition example_image : ndarray :=
  replicate 1000 (replicate 1000 [0; 0; 0]).

(** ** Strings *)

(** The characters of a string. *)
Definition chars (s : string) : list ascii := String.list_ascii_of_string s.

(** A decimal digit. *)
Definition digit (c : ascii) : Prop :=
  (48 ≤ nat_of_ascii c ≤ 57)%nat.

#[global] Instance digit_dec c : Decision (digit c).
Proof. unfold digit. apply _. Defined.

(** ** Output trees of the partitioner *)

(** The two trees of a test item, [img<k>_train] and [img<k>_test], and
    the two kinds of file in a tree. *)
Inductive part := Train | Test.
Inductive kind := Images | Masks.

#[global] Instance part_eq_dec : EqDecision part.
Proof. solve_decision. Defined.
#[global] Instance kind_eq_dec : EqDecision kind.
Proof. solve_decision. Defined.

Definition part_name (p : part) : string :=
  match p with Train => "train" | Test => "test" end.
Definition kind_name (k : kind) : string :=
  match k with Images => "images" | Masks => "masks" end.

(** The path of a tile relative to the tree it is written to. *)
Definition relative_path (k : kind) (test_item : string) (h w : Z) : string :=
  kind_name k +:+ "/" +:+ test_item
    +:+ "_H" +:+ str h +:+ "W" +:+ str w +:+ ".png".

(** The file of kind [k] that holds the tile at offset ([h], [w]) in the
    tree [p] of a test item. *)
Definition partition_path (target_folder cancer_type : string)
    (test_item_count : Z) (p : part) (k : kind) (test_item : string)
    (h w : Z) : string :=
  target_folder +:+ "/" +:+ cancer_type +:+ "/img" +:+ str test_item_count
    +:+ "_" +:+ part_name p +:+ "/" +:+ relative_path k test_item h w.

(** The arrays a log writes to the file [f], in program order. *)
Definition written_to (f : string) (l : list (string * ndarray))
    : list ndarray :=
  (filter (λ e, e.1 = f) l).*2.

(** The image or the mask, by kind. *)
Definition of_kind {A} (k : kind) (image mask : A) : A :=
  match k with Images => image | Masks => mask end.

(** What the tree [p] receives for a tile whose image and mask blocks are
    [bi] and [bm]: an evidence tile goes to the train tree as it is and to
    the test tree blanked; a held-out tile goes to the test tree only. *)
Definition tile_content (evidence : bool) (p : part) (k : kind)
    (bi bm : ndarray) : list ndarray :=
  match p, evidence with
  | Train, true => [of_kind k bi bm]
  | Train, false => []
  | Test, true => [zeros_like (of_kind k bi bm)]
  | Test, false => [of_kind k bi bm]
  end.

(** The file of kind [k] that holds an effective canvas of a test item: it
    lies in the test tree itself, beside [images] and [masks]. *)
Definition effective_path (target_folder cancer_type : string)
    (test_item_count : Z) (k : kind) (test_item : string) : string :=
  target_folder +:+ "/" +:+ cancer_type +:+ "/img" +:+ str test_item_count
    +:+ "_" +:+ part_name Test +:+ "/" +:+ test_item +:+ "_effective_"
    +:+ match k with Images => "image" | Masks => "mask" end +:+ ".png".

(** Storing the tile at offset ([h], [w]) in the tree [p] as an image/mask
    pair: the image [bi] and the mask [bm] under the tile's relative path. *)
Definition image_mask_pair (target_folder cancer_type : string)
    (test_item_count : Z) (p : part) (test_item : string) (h w : Z)
    (bi bm : ndarray) : list (string * ndarray) :=
  [ (partition_path target_folder cancer_type test_item_count p Images
       test_item h w, bi);
    (partition_path target_folder cancer_type test_item_count p Masks
       test_item h w, bm) ].

(** The file-system calls that store that pair: the directories of the two
    files are made, then the two files are written. *)
Definition tile_calls (target_folder cancer_type : string)
    (test_item_count : Z) (p : part) (test_item : string) (h w : Z)
    (bi bm : ndarray) : list event :=
  [ Makedirs (dirname (partition_path target_folder cancer_type
                         test_item_count p Images test_item h w));
    Makedirs (dirname (partition_path target_folder cancer_type
                         test_item_count p Masks test_item h w));
    Imwrite (partition_path target_folder cancer_type test_item_count p Images
               test_item h w) bi;
    Imwrite (partition_path target_folder cancer_type test_item_count p Masks
               test_item h w) bm ].

(** What the specification asks for a tile with image block [bi] and mask
    block [bm].  An evidence tile is stored twice: as it is in the train
    tree, and as an all-zero pair of the same shape in the test tree, at
    the same relative path.  A held-out tile is stored once, as it is, in
    the test tree. *)
Definition partition_writes (target_folder cancer_type : string)
    (test_item_count : Z) (evidence : bool) (test_item : string) (h w : Z)
    (bi bm : ndarray) : list (string * ndarray) :=
  if evidence then
    image_mask_pair target_folder cancer_type test_item_count Train test_item
      h w bi bm
    ++ image_mask_pair target_folder cancer_type test_item_count Test
         test_item h w (zeros_like bi) (zeros_like bm)
  else
    image_mask_pair target_folder cancer_type test_item_count Test test_item
      h w bi bm.

Definition partition_calls (target_folder cancer_type : string)
    (test_item_count : Z) (evidence : bool) (test_item : string) (h w : Z)
    (bi bm : ndarray) : list event :=
  if evidence then
    tile_calls target_folder cancer_type test_item_count Train test_item
      h w bi bm
    ++ tile_calls target_folder cancer_type test_item_count Test test_item
         h w (zeros_like bi) (zeros_like bm)
  else
    tile_calls target_folder cancer_type test_item_count Test test_item
      h w bi bm.

(** ** Nuclei detector *)

(** A detected point lies outside a mask: its row is below 0 or at least
    the height, or its column is below 0 or at least the width. *)
Definition out_of_bounds (mask : list (list Z)) (n : pyfloat * pyfloat)
    : Prop :=
  float_lt n.1 (float_of_int 0) = true
  ∨ float_ge n.1 (float_of_int (shape0 mask)) = true
  ∨ float_lt n.2 (float_of_int 0) = true
  ∨ float_ge n.2 (float_of_int (shape1 mask)) = true.

#[global] Instance out_of_bounds_dec mask n : Decision (out_of_bounds mask n).
Proof. unfold out_of_bounds. apply _. Defined.

(** ** Rasterizer *)

(** An array of [h] rows of [w] entries each. *)
Definition has_shape {A} (h w : nat) (a : list (list A)) : Prop :=
  length a = h ∧ Forall (λ row, length row = w) a.

(** Every entry of a mask is 0 or 1. *)
Definition binary (label : list (list Z)) : Prop :=
  Forall (Forall (λ v, v = 0 ∨ v = 1)) label.

(** [label.shape] for the label of an image, as [annotation_to_label]
    passes it to the rasterization primitive. *)
Definition label_shape (image : ndarray) : Z * Z :=
  let label :=
    replicate (Z.to_nat (shape0 image))
      (replicate (Z.to_nat (shape1 image)) 0) in
  (shape0 label, shape1 label).

(** The integer centroid of one polygon: the two coordinates of the
    centroid of its raster, each through [int()]. *)
Definition cell_centroid (polygon2mask : Z * Z → polygon → list (list bool))
    (centroid : list (list bool) → pyfloat * pyfloat)
    (shape : Z * Z) (cell : polygon) : result (Z * Z) :=
  let cell_mask := polygon2mask shape cell in
  let* c0 := int_of_float (centroid cell_mask).1 in
  let* c1 := int_of_float (centroid cell_mask).2 in
  ret (c0, c1).

(** A stand-in for the rasterization primitive that marks every pixel of
    the canvas, and one for the centroid primitive. *)
Definition full_mask (shape : Z * Z) (cell : polygon) : list (list bool) :=
  replicate (Z.to_nat shape.1) (replicate (Z.to_nat shape.2) true).
Definition origin_centroid (cell_mask : list (list bool)) : pyfloat * pyfloat :=
  (Finite 0, Finite 0).

(** ** prepare_dataset *)

(** The message of the error raised for an unknown dataset name. *)
Definition dataset_not_found : string :=
  "Dataset not found. Check `dataset_name` in config yaml file.".

(** Stand-ins for the collaborators of [prepare_dataset], used to run it
    on concrete configurations: floats are exact rationals, [float(s)]
    reads a string of decimal digits, every dataset has ten items and
    three channels, and every constructor returns. *)
Fixpoint digits_value (acc : Z) (s : string) : option Z :=
  match s with
  | EmptyString => Some acc
  | String c s' =>
      let n := Z.of_nat (nat_of_ascii c) in
      if decide (48 ≤ n ≤ 57) then digits_value (10 * acc + (n - 48)) s'
      else None
  end.

Definition digits_float (s : string) : result Q :=
  match s with
  | EmptyString => raise (ValueError "could not convert string to float")
  | _ =>
      match digits_value 0 s with
      | Some n => ret (inject_Z n)
      | None => raise (ValueError "could not convert string to float")
      end
  end.

Definition Qsum (l : list Q) : Q := foldl Qplus 0%Q l.

Definition sample_config (ratio : string) (name : string) : @config unit :=
  {| dataset_name := name;
     dataset_path := "data/synthetic";
     target_dim := tt;
     train_val_test_ratio := ratio;
     random_seed := 1;
     batch_size := 4;
     num_workers := 0 |}.

(** [prepare_dataset] on the stand-ins. *)
Definition sample_prepare_dataset (c : @config unit)
    : traced (string * string * string * Z) :=
  prepare_dataset digits_float Qsum (Qeq_bool 0) Qdiv
    (λ _ _, ret tt) (λ _, ret 3)
    (λ _ _ _, ret (tt, tt, tt)) (λ _, 10)
    (λ d _, ret d)
    (λ _ _ (shuffle : bool) _, ret (if shuffle then "shuffled" else "ordered"))
    c.

(** ** Runs on a file system *)

(** Every image of the log is written after the [os.makedirs] call for
    its directory ([seen] lists the directories made before the log). *)
Fixpoint prepared (seen : list string) (events : list event) : Prop :=
  match events with
  | [] => True
  | Makedirs d :: l => prepared (d :: seen) l
  | Imwrite f _ :: l => dirname f ∈ seen ∧ prepared seen l
  end.

(** The log holds image writes only. *)
Definition only_writes (events : list event) : Prop :=
  Forall (λ e, match e with Imwrite _ _ => True | Makedirs _ => False end)
    events.

(** The directories a log makes. *)
Definition made (events : list event) : gset string :=
  ⋃ ((λ e, match e with
            | Makedirs d => list_to_set (ancestors (S (String.length d)) d)
            | Imwrite _ _ => ∅
            end) <$> events).

(** Storing arrays under their paths, one after the other. *)
Definition store (l : list (string * ndarray)) (m : gmap string ndarray)
    : gmap string ndarray :=
  foldl (λ m e, <[e.1:=e.2]> m) m l.

(** An empty file system. *)
Definition empty_fs : file_system := {| dirs := ∅; files := ∅ |}.

(** ** Rasterizer, continued *)

(** The exception [int(x)] raises for a float [x], if it raises. *)
Definition int_error (x : pyfloat) : option exn :=
  match x with
  | Finite _ => None
  | NaN => Some (ValueError "cannot convert float NaN to integer")
  | PosInf | NegInf => Some OverflowError
  end.

(** The exception the conversion of a centroid raises, if it raises: that
    of the row coordinate, else that of the column coordinate. *)
Definition centroid_error (c : pyfloat * pyfloat) : option exn :=
  match int_error c.1 with
  | Some e => Some e
  | None => int_error c.2
  end.

(** The raster of the polygon [cell] on the canvas of [image] is set at
    row [r] and column [c]. *)
Definition covers (polygon2mask : Z * Z → polygon → list (list bool))
    (image : ndarray) (r c : nat) (cell : polygon) : Prop :=
  get2 (polygon2mask (label_shape image) cell) r c = Some true.

#[global] Instance covers_dec polygon2mask image r c cell :
  Decision (covers polygon2mask image r c cell).
Proof. unfold covers. apply _. Defined.

(** ** Grid tiler, continued *)

(** The files the tiler writes for one item and what they hold, in
    program order: the image block and the mask block of every tile of the
    grid. *)
Definition item_tiles (imsize : Z) (target_folder cancer_type subset : string)
    (item : string) (image mask : ndarray) : list (string * ndarray) :=
  seqZ 0 (shape0 image `div` imsize) ≫= λ h_chunk,
  seqZ 0 (shape1 image `div` imsize) ≫= λ w_chunk,
    [ (tile_path target_folder cancer_type subset (kind_name Images) item
         (h_chunk * imsize) (w_chunk * imsize),
       block image (h_chunk * imsize) (w_chunk * imsize) imsize);
      (tile_path target_folder cancer_type subset (kind_name Masks) item
         (h_chunk * imsize) (w_chunk * imsize),
       block mask (h_chunk * imsize) (w_chunk * imsize) imsize) ].

(** An image file that holds the same all-black 5 x 5 image whatever its
    name. *)
Definition black_imread (f : string) : ndarray :=
  replicate 5 (replicate 5 [0; 0; 0]).

(** ** Paths, continued *)

(** A file or directory name: a string without a slash. *)
Definition slash_free (s : string) : Prop :=
  Forall (λ c, c ≠ "/"%char) (chars s).

#[global] Instance slash_free_dec s : Decision (slash_free s).
Proof. unfold slash_free. apply _. Defined.

(** The tree [p] of a test item, [img<k>_train] or [img<k>_test]: the
    directory that holds its [images] and [masks] directories and, for the
    test tree, the two effective canvases. *)
Definition item_tree (target_folder cancer_type : string)
    (test_item_count : Z) (p : part) : string :=
  target_folder +:+ "/" +:+ cancer_type +:+ "/img" +:+ str test_item_count
    +:+ "_" +:+ part_name p.

(** ** Nuclei detector, continued *)

(** A detected point that passes the bounds test although one of its
    coordinates is not a number. *)
Definition nan_inside (mask : list (list Z)) (n : pyfloat * pyfloat) : Prop :=
  ¬ out_of_bounds mask n ∧ (n.1 = NaN ∨ n.2 = NaN).

#[global] Instance pyfloat_eq_dec : EqDecision pyfloat.
Proof.
  intros x y. unfold Decision.
  destruct x as [[a b]| | |], y as [[a' b']| | |];
    try (by left); try (by right).
  destruct (Z.eq_dec a a') as [->|]; [|right; congruence].
  destruct (Pos.eq_dec b b') as [->|]; [by left|right; congruence].
Defined.

#[global] Instance nan_inside_dec mask n : Decision (nan_inside mask n).
Proof. unfold nan_inside. apply _. Defined.

(** The detected point [n] marks the pixel at row [r] and column [c] of a
    mask: it passes the bounds test and truncates to ([r], [c]). *)
Definition marks (mask : list (list Z)) (r c : nat) (n : pyfloat * pyfloat)
    : Prop :=
  ¬ out_of_bounds mask n
  ∧ int_of_float n.1 = ret (Z.of_nat r)
  ∧ int_of_float n.2 = ret (Z.of_nat c).

#[global] Instance exn_eq_dec : EqDecision exn.
Proof. solve_decision. Defined.

#[global] Instance marks_dec mask r c n : Decision (marks mask r c n).
Proof. unfold marks. apply _. Defined.

(** The number of positive pixels of a mask. *)
Definition positives (mask : list (list Z)) : Z :=
  foldr Z.add 0 (concat (binarize mask)).

(** A stand-in for the division of binary64 scalars, for operands whose
    quotient is a binary64 number (as 1 / 2): the quotient, and [nan] or
    an infinity for a divisor of zero. *)
Definition exact_divide (a b : Z) : pyfloat :=
  if decide (b = 0) then
    if decide (a = 0) then NaN else if decide (0 < a) then PosInf else NegInf
  else Finite (inject_Z a / inject_Z b).

(** ** prepare_dataset, continued *)

(** The calls of the imported constructors and functions that a run of
    [prepare_dataset] makes when it returns; calls of methods of the
    objects they return ([num_image_channel], [len]) are not recorded. *)
Definition all_calls : list call :=
  [ Call_SyntheticDataset; Call_split_dataset; Call_ExtendedDataset;
    Call_DataLoader; Call_DataLoader; Call_DataLoader ].

(** ** Stand-ins for the rasterizer's primitives, continued *)

(** A triangle, and a centroid primitive for a raster without pixels: it
    has no mean coordinates. *)
Definition sample_triangle : polygon :=
  [ (Finite 0, Finite 0); (Finite 0, Finite 3); (Finite 3, Finite 0) ].
Definition nan_centroid (cell_mask : list (list bool)) : pyfloat * pyfloat :=
  (NaN, NaN).

(** A rasterization primitive that marks the upper-left pixel of the
    canvas only. *)
Definition corner_mask (shape : Z * Z) (cell : polygon) : list (list bool) :=
  (λ r, (λ c, bool_decide (r = 0 ∧ c = 0)) <$> seqZ 0 shape.2)
    <$> seqZ 0 shape.1.

(** ** process_MoNuSeg_data and subset_MoNuSeg_data_by_cancer *)

(** The file-system calls among the things a run does, in order. *)
Definition fs_events (out : list output) : list event :=
  omap (λ o, match o with Fs e => Some e | _ => None end) out.

(** The shell commands among the things a run does, in order. *)
Definition shell_commands (out : list output) : list string :=
  omap (λ o, match o with Shell cmd => Some cmd | _ => None end) out.

(** The image and the mask stored for an image id: the two files, with
    what they hold. *)
Definition stored_pair (out_image_folder out_mask_folder : string)
    (entry : string * ndarray * ndarray) : list (string * ndarray) :=
  let '(image_id, image, mask) := entry in
  [ (out_image_folder +:+ "/" +:+ image_id +:+ ".png", image);
    (out_mask_folder +:+ "/" +:+ image_id +:+ ".png", mask) ].

(** A stored mask: one channel per pixel, holding 0 or 255. *)
Definition mask_image (img : ndarray) : Prop :=
  Forall (Forall (λ px, px = [0] ∨ px = [255])) img.

(** A string without a dot and without a slash. *)
Definition plain_name (s : string) : Prop :=
  Forall (λ c, c ≠ "."%char ∧ c ≠ "/"%char) (chars s).

#[global] Instance plain_name_dec s : Decision (plain_name s).
Proof. unfold plain_name. apply _. Defined.

(** Stand-ins for the library calls of [process_MoNuSeg_data], used to run
    it: a test folder with two annotation files, one of them with its
    image, and an empty train folder; an all-black 5 x 5 image in every
    file ([black_imread]); a colour conversion that reverses the channels
    of a three-channel image and rejects any other; and a document with
    one triangle. *)
Definition sample_glob (pattern : string) : list string :=
  if decide (pattern = "../../external_data/MoNuSeg/MoNuSegTestData/*.xml")
  then ["../../external_data/MoNuSeg/MoNuSegTestData/b.xml";
        "../../external_data/MoNuSeg/MoNuSegTestData/a.xml"]
  else if decide (pattern = "../../external_data/MoNuSeg/MoNuSegTestData/*.tif")
  then ["../../external_data/MoNuSeg/MoNuSegTestData/a.tif"]
  else [].

Definition sample_cvtColor (image : ndarray) (code : color_code)
    : option ndarray :=
  if decide (shape2 image = 3)
  then Some ((λ row : list (list Z), (λ px : list Z, reverse px) <$> row)
               <$> image)
  else None.

Definition sample_parse (xml_path : string) : list region :=
  [ {| Area := Finite 4; Id := 1;
       Vertices := [ {| X := Finite 0; Y := Finite 0 |};
                     {| X := Finite 3; Y := Finite 0 |};
                     {| X := Finite 0; Y := Finite 3 |} ] |} ].

(** The destination of a [cp] command: its last word. *)
Definition copy_destination (cmd : string) : string :=
  default "" (last (split " " cmd)).

(** The file-system calls of a run in which every [cp] counts as a write
    to its destination. *)
Definition copies_as_writes (out : list output) : list event :=
  omap (λ o, match o with
             | Fs e => Some e
             | Shell cmd => Some (Imwrite (copy_destination cmd) [])
             | Print _ => None
             end) out.

#[global] Instance prepared_dec seen events : Decision (prepared seen events).
Proof.
  revert seen. induction events as [|[d|f img] events IH]; intros seen;
    simpl; apply _.
Defined.

(* ================================================================== *)
(** * Part III: properties *)
(* ================================================================== *)

(** ** Floats *)

Lemma float_lt_finite a b : float_lt (Finite a) (Finite b) = true ↔ (a < b)%Q.
Proof.
  simpl. unfold Qlt_bool. rewrite negb_true_iff.
  destruct (Qle_bool b a) eqn:E.
  - apply Qle_bool_iff in E. split; [done|]. intros H. by apply Qlt_not_le in H.
  - split; [|done]. intros _. apply Qnot_le_lt. intros H.
    apply Qle_bool_iff in H. congruence.
Qed.

(** ** Annotation parser *)

Lemma load_region_rejected st r :
  rejected r →
  load_region st r =
    {| verts_list := verts_list st; region_id_list := region_id_list st;
       cnt_invalid := cnt_invalid st + 1 |}.
Proof.
  intros [Ha | Hv]; unfold load_region.
  - by rewrite Ha.
  - destruct (float_lt _ _); [done|]. by rewrite decide_True.
Qed.

Lemma load_region_kept st r :
  ¬ rejected r →
  load_region st r =
    {| verts_list := verts_list st ++ [verts_of r];
       region_id_list := region_id_list st ++ [Id r];
       cnt_invalid := cnt_invalid st |}.
Proof.
  intros Hr. unfold load_region.
  destruct (float_lt _ _) eqn:Ha; [destruct Hr; by left|].
  rewrite decide_False; [done|]. intros Hv. destruct Hr. by right.
Qed.

(** The loop over the regions, from any state: survivors are appended in
    document order, and every rejected region adds one to the counter. *)
Lemma foldl_load_region st regions :
  foldl load_region st regions =
    {| verts_list :=
         verts_list st ++ (verts_of <$> filter (λ r, ¬ rejected r) regions);
       region_id_list :=
         region_id_list st ++ (Id <$> filter (λ r, ¬ rejected r) regions);
       cnt_invalid :=
         cnt_invalid st + Z.of_nat (length (filter rejected regions)) |}.
Proof.
  revert st. induction regions as [|r regions IH]; intros st; simpl.
  - destruct st; simpl. by rewrite !app_nil_r, Z.add_0_r.
  - rewrite IH. destruct (decide (rejected r)) as [Hr|Hr].
    + rewrite load_region_rejected by done. simpl.
      rewrite (filter_cons_False (λ r, ¬ rejected r)) by tauto.
      rewrite (filter_cons_True rejected) by done. simpl. f_equal. lia.
    + rewrite load_region_kept by done. simpl.
      rewrite (filter_cons_True (λ r, ¬ rejected r)) by done.
      rewrite (filter_cons_False rejected) by done. simpl.
      by rewrite <-!app_assoc.
Qed.

Lemma load_regions_spec regions :
  load_regions regions =
    {| verts_list := verts_of <$> filter (λ r, ¬ rejected r) regions;
       region_id_list := Id <$> filter (λ r, ¬ rejected r) regions;
       cnt_invalid := Z.of_nat (length (filter rejected regions)) |}.
Proof. unfold load_regions. by rewrite foldl_load_region. Qed.

(** C6.  The parser returns, in document order, the vertex arrays and the
    identifiers of exactly the regions that are not rejected, where a
    region is rejected if and only if its declared area is below 1.0 or it
    has fewer than three vertices.  The two returned sequences are
    parallel, every rejected region counts once in the invalid counter
    (which the printed line reports), and a rejected region does not stop
    the loop: the regions after it are processed all the same. *)
Theorem load_MoNuSeg_annotation_filters (regions : list region) :
  (load_MoNuSeg_annotation regions).2 =
    (verts_of <$> filter (λ r, ¬ rejected r) regions,
     Id <$> filter (λ r, ¬ rejected r) regions)
  ∧ length (load_MoNuSeg_annotation regions).2.1 =
      length (load_MoNuSeg_annotation regions).2.2
  ∧ cnt_invalid (load_regions regions) =
      Z.of_nat (length (filter rejected regions))
  ∧ (load_MoNuSeg_annotation regions).1 =
      "Total polygons: " +:+ str (Z.of_nat (length regions)) +:+
      ", Invalid polygons: " +:+
      str (Z.of_nat (length (filter rejected regions))).
Proof.
  unfold load_MoNuSeg_annotation. rewrite load_regions_spec. simpl.
  by rewrite !length_fmap.
Qed.

Lemma collinear_region_is_zero_area : zero_area_triangle collinear_region.
Proof.
  exists 0%Q, 0%Q, 1%Q, 1%Q, 2%Q, 2%Q. split; reflexivity.
Qed.

(** C7, as stated, fails: a region whose three vertices lie on the
    diagonal and whose declared area is 5.0 passes both checks of the
    parser, and its vertex array is returned for rasterization. *)
Lemma collinear_region_reaches_rasterizer :
  zero_area_triangle collinear_region
  ∧ ¬ rejected collinear_region
  ∧ (load_MoNuSeg_annotation [collinear_region]).2 =
      ([verts_of collinear_region], [7]).
Proof.
  split; [apply collinear_region_is_zero_area|]. split; [|reflexivity].
  intros [H|H]; [discriminate H|]. simpl in H. lia.
Qed.

(** C7, amended.  A region with exactly three collinear vertices passes
    the vertex-count check, so the declared area alone decides: wherever
    it stands in the document, it is rejected (counted as invalid and
    left out of both returned sequences) when its declared area is below
    1.0, and otherwise its vertex array and identifier are returned, in
    document order, for rasterization. *)
Theorem collinear_region_rejected_by_declared_area
    (before after : list region) (r : region) :
  zero_area_triangle r →
  let out := load_regions (before ++ r :: after) in
  let rest := load_regions (before ++ after) in
  if float_lt (Area r) (Finite 1) then
    verts_list out = verts_list rest
    ∧ region_id_list out = region_id_list rest
    ∧ cnt_invalid out = cnt_invalid rest + 1
  else
    verts_list out =
      verts_list (load_regions before) ++
      verts_of r :: verts_list (load_regions after)
    ∧ region_id_list out =
        region_id_list (load_regions before) ++
        Id r :: region_id_list (load_regions after)
    ∧ cnt_invalid out = cnt_invalid rest.
Proof.
  intros (x1 & y1 & x2 & y2 & x3 & y3 & Hv & _). simpl.
  rewrite !load_regions_spec. simpl.
  rewrite !filter_app, !fmap_app, !length_app.
  destruct (float_lt (Area r) (Finite 1)) eqn:Ha.
  - assert (rejected r) as Hr by (by left).
    rewrite (filter_cons_False (λ r, ¬ rejected r)) by tauto.
    rewrite (filter_cons_True rejected) by done. simpl. repeat split; lia.
  - assert (¬ rejected r) as Hr.
    { intros [H|H]; [congruence|]. rewrite Hv in H. simpl in H. lia. }
    rewrite (filter_cons_True (λ r, ¬ rejected r)) by done.
    rewrite (filter_cons_False rejected) by done. simpl. done.
Qed.

Lemma collinear_region_rejected_by_declared_area_witness :
  zero_area_triangle collinear_region
  ∧ verts_list (load_regions [collinear_region]) = [verts_of collinear_region]
  ∧ region_id_list (load_regions [collinear_region]) = [7]
  ∧ cnt_invalid (load_regions [collinear_region]) = 0.
Proof.
  split; [apply collinear_region_is_zero_area|].
  exact (collinear_region_rejected_by_declared_area [] [] collinear_region
           collinear_region_is_zero_area).
Defined.

(** ** Loops *)

Lemma for_each_ret {S X} (f : S → X → S) (xs : list X) (st : S) :
  for_each (λ st x, ret (f st x)) xs st = ret (foldl f st xs).
Proof. revert st. induction xs as [|x xs IH]; intros st; simpl; [done|apply IH]. Qed.

Lemma floordiv_ret a b : b ≠ 0 → floordiv a b = ret (a `div` b).
Proof. intros. unfold floordiv. by rewrite decide_False. Qed.

(** The tiles in the order in which two nested [range] loops visit them. *)
Lemma foldl_bind {A B C} (f : A → C → A) (g : B → list C) (l : list B) (a : A) :
  foldl f a (l ≫= g) = foldl (λ a x, foldl f a (g x)) a l.
Proof.
  revert a. induction l as [|x l IH]; intros a; [done|].
  rewrite bind_cons, foldl_app. apply IH.
Qed.

Lemma foldl_fmap' {A B C} (f : A → C → A) (g : B → C) (l : list B) (a : A) :
  foldl f a (g <$> l) = foldl (λ a x, f a (g x)) a l.
Proof. revert a. induction l as [|x l IH]; intros a; [done|]. simpl. apply IH. Qed.

Lemma foldl_ext' {A B} (f g : A → B → A) (l : list B) (a : A) :
  (∀ a x, f a x = g a x) → foldl f a l = foldl g a l.
Proof. intros H. revert a. induction l as [|x l IH]; intros a; [done|]. simpl. by rewrite H, IH. Qed.

Lemma seqZ_row (n cols : Z) :
  0 ≤ n → 0 < cols →
  (λ k, (k `div` cols, k `mod` cols)) <$> seqZ (n * cols) cols
  = (λ w, (n, w)) <$> seqZ 0 cols.
Proof.
  intros Hn Hc. apply list_eq. intros i. rewrite !list_lookup_fmap.
  destruct (decide (Z.of_nat i < cols)) as [Hi|Hi].
  - rewrite !lookup_seqZ_lt by lia. simpl. f_equal. f_equal.
    + rewrite Z.add_comm, Z.div_add by lia. rewrite Z.div_small by lia. lia.
    + rewrite Z.add_comm, Z.mod_add by lia. rewrite Z.mod_small by lia. lia.
  - by rewrite !lookup_seqZ_ge by lia.
Qed.

Lemma grid_row_major (rows cols : Z) :
  0 ≤ rows → 0 ≤ cols →
  (seqZ 0 rows ≫= λ h, (λ w, (h, w)) <$> seqZ 0 cols)
  = (λ k, (k `div` cols, k `mod` cols)) <$> seqZ 0 (rows * cols).
Proof.
  intros Hr Hc. destruct (decide (cols = 0)) as [->|Hc0].
  { rewrite Z.mul_0_r. rewrite (seqZ_nil 0 0) by lia. simpl.
    induction (seqZ 0 rows) as [|x l IH]; [done|]. by rewrite bind_cons, IH. }
  rewrite <-(Z2Nat.id rows) by lia. clear Hr.
  induction (Z.to_nat rows) as [|n IH]; [done|].
  rewrite seqZ_S, bind_app, IH. simpl.
  replace (Z.of_nat (S n) * cols) with (Z.of_nat n * cols + cols) by lia.
  rewrite seqZ_app by lia. rewrite fmap_app. f_equal.
  rewrite app_nil_r. rewrite Z.add_0_l. symmetry. apply seqZ_row; lia.
Qed.

Lemma for_each_ext {S X} (f g : S → X → result S) (xs : list X) (st : S) :
  (∀ st x, x ∈ xs → f st x = g st x) → for_each f xs st = for_each g xs st.
Proof.
  revert st. induction xs as [|x xs IH]; intros st H; simpl; [done|].
  rewrite H by left. destruct (g st x); simpl; [done|].
  apply IH. intros. apply H. by right.
Qed.

Lemma foldl_append {A X} (g : X → list A) (xs : list X) (acc : list A) :
  foldl (λ acc x, acc ++ g x) acc xs = acc ++ (xs ≫= g).
Proof.
  revert acc. induction xs as [|x xs IH]; intros acc; cbn [foldl].
  - by rewrite app_nil_r.
  - rewrite IH, bind_cons. by rewrite <-app_assoc.
Qed.

(** ** Slices *)

Lemma slice_bound_id len i : 0 ≤ i ≤ len → slice_bound len i = i.
Proof. intros. unfold slice_bound. rewrite decide_False by lia. lia. Qed.

Lemma slice_take_drop {A} (lo hi : Z) (l : list A) :
  0 ≤ lo ≤ hi → hi ≤ Z.of_nat (length l) →
  slice lo hi l = take (Z.to_nat (hi - lo)) (drop (Z.to_nat lo) l).
Proof. intros. unfold slice. by rewrite !slice_bound_id by lia. Qed.

Lemma rectangular_lookup {A} (a : list (list A)) i row :
  rectangular a → a !! i = Some row → Z.of_nat (length row) = shape1 a.
Proof. intros Ha Hi. eapply Forall_lookup_1 in Ha; eauto. Qed.

Lemma slice2_block {A} (a : list (list A)) (h w s : Z) :
  rectangular a → 0 ≤ h → 0 ≤ w → 0 ≤ s →
  h + s ≤ shape0 a → w + s ≤ shape1 a →
  slice2 h (h + s) w (w + s) a = block a h w s.
Proof.
  intros Ha Hh Hw Hs Hh' Hw'. unfold slice2, block, shape0 in *.
  rewrite slice_take_drop by lia. replace (h + s - h) with s by lia.
  apply Forall_fmap_ext_1. apply Forall_forall. intros row Hrow.
  assert (row ∈ a) as Hin.
  { apply elem_of_take in Hrow as (i & Hi & _). rewrite lookup_drop in Hi.
    by eapply list_elem_of_lookup_2. }
  apply list_elem_of_lookup in Hin as [i Hi].
  apply (rectangular_lookup _ _ _ Ha) in Hi.
  rewrite slice_take_drop by lia. by replace (w + s - w) with s by lia.
Qed.

Lemma length_block {A} (a : list (list A)) (h w s : Z) :
  0 ≤ h → 0 ≤ s → h + s ≤ shape0 a →
  length (block a h w s) = Z.to_nat s.
Proof.
  intros. unfold block, shape0 in *.
  rewrite length_fmap, length_take, length_drop. lia.
Qed.

Lemma block_row_lengths {A} (a : list (list A)) (h w s : Z) :
  rectangular a → 0 ≤ w → 0 ≤ s → w + s ≤ shape1 a →
  Forall (λ row, length row = Z.to_nat s) (block a h w s).
Proof.
  intros Ha Hw Hs Hw'. unfold block. apply Forall_fmap, Forall_forall.
  intros row Hrow. simpl.
  assert (row ∈ a) as Hin.
  { apply elem_of_take in Hrow as (i & Hi & _). rewrite lookup_drop in Hi.
    by eapply list_elem_of_lookup_2. }
  apply list_elem_of_lookup in Hin as [i Hi].
  apply (rectangular_lookup _ _ _ Ha) in Hi.
  rewrite length_take, length_drop. lia.
Qed.

Lemma get2_block {A} (a : list (list A)) (h w s : Z) (i j : nat) :
  0 ≤ h → 0 ≤ w → (i < Z.to_nat s)%nat → (j < Z.to_nat s)%nat →
  get2 (block a h w s) i j = get2 a (Z.to_nat h + i) (Z.to_nat w + j).
Proof.
  intros Hh Hw Hi Hj. unfold get2, block.
  rewrite list_lookup_fmap, lookup_take_lt, lookup_drop by done.
  destruct (a !! _) as [row|]; simpl; [|done].
  by rewrite lookup_take_lt, lookup_drop.
Qed.

(** A row chunk below [H // s] starts a full tile. *)
Lemma chunk_bounds (H s c : Z) :
  0 < s → 0 ≤ c < H `div` s → 0 ≤ c * s ∧ c * s + s ≤ H.
Proof.
  intros Hs Hc. pose proof (Z.mul_div_le H s Hs). nia.
Qed.

(** ** Grid tiler *)

Lemma imwrites_app l1 l2 : imwrites (l1 ++ l2) = imwrites l1 ++ imwrites l2.
Proof. apply omap_app. Qed.

Lemma imwrites_bind {X} (g : X → list event) (xs : list X) :
  imwrites (xs ≫= g) = xs ≫= λ x, imwrites (g x).
Proof.
  induction xs as [|x xs IH]; [done|].
  by rewrite !bind_cons, imwrites_app, IH.
Qed.

Lemma bind_ext_in {X Y} (f g : X → list Y) (xs : list X) :
  (∀ x, x ∈ xs → f x = g x) → xs ≫= f = xs ≫= g.
Proof.
  induction xs as [|x xs IH]; intros H; [done|].
  rewrite !bind_cons, H by left. f_equal. apply IH. intros. apply H. by right.
Qed.

Lemma length_bind_const {X Y} (f : X → list Y) (xs : list X) (n : nat) :
  (∀ x, x ∈ xs → length (f x) = n) → length (xs ≫= f) = (length xs * n)%nat.
Proof.
  induction xs as [|x xs IH]; intros H; [done|].
  rewrite bind_cons, length_app, H by left.
  rewrite IH by (intros; apply H; by right). simpl. lia.
Qed.

(** The tiling of one item as the concatenation of its tiles' events, row
    chunk by row chunk and column chunk by column chunk. *)
Lemma patchify_item_log imsize target_folder cancer_type subset item image mask :
  imsize ≠ 0 →
  patchify_item imsize target_folder cancer_type subset item image mask =
    ret (range (shape0 image `div` imsize) ≫= λ h_chunk,
         range (shape1 image `div` imsize) ≫= λ w_chunk,
         patchify_tile imsize target_folder cancer_type subset item image mask
           (shape0 image) (shape1 image) h_chunk w_chunk).
Proof.
  intros Hs. unfold patchify_item. rewrite floordiv_ret by done. simpl.
  erewrite for_each_ext.
  2:{ intros log h_chunk _. rewrite floordiv_ret by done. simpl.
      rewrite for_each_ret, foldl_append. reflexivity. }
  by rewrite for_each_ret, foldl_append.
Qed.

(** Inside the grid, the clamping of the tile bounds is the identity and
    the patches are full blocks. *)
Lemma patchify_tile_events imsize target_folder cancer_type subset item
    image mask h_chunk w_chunk :
  0 < imsize → rectangular image → rectangular mask →
  shape0 mask = shape0 image → shape1 mask = shape1 image →
  0 ≤ h_chunk < shape0 image `div` imsize →
  0 ≤ w_chunk < shape1 image `div` imsize →
  imwrites (patchify_tile imsize target_folder cancer_type subset item image
              mask (shape0 image) (shape1 image) h_chunk w_chunk) =
    [ (tile_path target_folder cancer_type subset "images" item
         (h_chunk * imsize) (w_chunk * imsize),
       block image (h_chunk * imsize) (w_chunk * imsize) imsize);
      (tile_path target_folder cancer_type subset "masks" item
         (h_chunk * imsize) (w_chunk * imsize),
       block mask (h_chunk * imsize) (w_chunk * imsize) imsize) ].
Proof.
  intros Hs Hi Hm Hm0 Hm1 Hh Hw.
  destruct (chunk_bounds _ _ _ Hs Hh) as [Hh0 Hh1].
  destruct (chunk_bounds _ _ _ Hs Hw) as [Hw0 Hw1].
  unfold patchify_tile, imwrites. cbn [omap list_omap].
  rewrite !Z.max_l, !Z.min_l by lia.
  rewrite !slice2_block by (done || lia). reflexivity.
Qed.

(** C2.  For a rectangular image of height H and width W, a mask of the
    same shape and a tile size s > 0, the grid tiler returns, and the
    images it writes are, for h_chunk = 0 .. H div s - 1 (outer) and
    w_chunk = 0 .. W div s - 1 (inner), the block of the image and the
    block of the mask at offset (h_chunk s, w_chunk s): (H div s)
    (W div s) image/mask pairs in all.  Every array written has exactly s
    rows of exactly s pixels, every tile lies inside the image (so the
    rows and columns past the last full tile are in no tile), and a tile
    holds the source pixels at its offset. *)
Theorem grid_tiler_emits_full_tiles (imsize : Z)
    (target_folder cancer_type subset item : string) (image mask : ndarray) :
  0 < imsize → rectangular image → rectangular mask →
  shape0 mask = shape0 image → shape1 mask = shape1 image →
  ∃ log,
    patchify_item imsize target_folder cancer_type subset item image mask
      = ret log
    ∧ imwrites log =
        (seqZ 0 (shape0 image `div` imsize) ≫= λ h_chunk,
         seqZ 0 (shape1 image `div` imsize) ≫= λ w_chunk,
         [ (tile_path target_folder cancer_type subset "images" item
              (h_chunk * imsize) (w_chunk * imsize),
            block image (h_chunk * imsize) (w_chunk * imsize) imsize);
           (tile_path target_folder cancer_type subset "masks" item
              (h_chunk * imsize) (w_chunk * imsize),
            block mask (h_chunk * imsize) (w_chunk * imsize) imsize) ])
    ∧ length (imwrites log) =
        (2 * Z.to_nat ((shape0 image `div` imsize) * (shape1 image `div` imsize)))%nat
    ∧ (∀ f tile, (f, tile) ∈ imwrites log →
         length tile = Z.to_nat imsize
         ∧ Forall (λ row, length row = Z.to_nat imsize) tile)
    ∧ (∀ h_chunk w_chunk,
         0 ≤ h_chunk < shape0 image `div` imsize →
         0 ≤ w_chunk < shape1 image `div` imsize →
         0 ≤ h_chunk * imsize ∧ h_chunk * imsize + imsize ≤ shape0 image
         ∧ 0 ≤ w_chunk * imsize ∧ w_chunk * imsize + imsize ≤ shape1 image
         ∧ ∀ i j : nat, (i < Z.to_nat imsize)%nat → (j < Z.to_nat imsize)%nat →
             get2 (block image (h_chunk * imsize) (w_chunk * imsize) imsize) i j
             = get2 image (Z.to_nat (h_chunk * imsize) + i)
                          (Z.to_nat (w_chunk * imsize) + j)).
Proof.
  intros Hs Hi Hm Hm0 Hm1. eexists. split.
  { apply patchify_item_log. lia. }
  assert (0 ≤ shape0 image `div` imsize) as Hrows
    by (apply Z.div_pos; unfold shape0; lia).
  assert (0 ≤ shape1 image `div` imsize) as Hcols
    by (apply Z.div_pos; unfold shape1; lia).
  assert (imwrites
      (range (shape0 image `div` imsize) ≫= λ h_chunk,
       range (shape1 image `div` imsize) ≫= λ w_chunk,
       patchify_tile imsize target_folder cancer_type subset item image mask
         (shape0 image) (shape1 image) h_chunk w_chunk)
    = (seqZ 0 (shape0 image `div` imsize) ≫= λ h_chunk,
       seqZ 0 (shape1 image `div` imsize) ≫= λ w_chunk,
       [ (tile_path target_folder cancer_type subset "images" item
            (h_chunk * imsize) (w_chunk * imsize),
          block image (h_chunk * imsize) (w_chunk * imsize) imsize);
         (tile_path target_folder cancer_type subset "masks" item
            (h_chunk * imsize) (w_chunk * imsize),
          block mask (h_chunk * imsize) (w_chunk * imsize) imsize) ])) as Hlog.
  { unfold range. rewrite imwrites_bind. apply bind_ext_in. intros h Hh.
    rewrite imwrites_bind. apply bind_ext_in. intros w Hw.
    apply elem_of_seqZ in Hh, Hw.
    apply patchify_tile_events; (done || lia). }
  rewrite Hlog. split; [done|]. split; [|split].
  - rewrite (length_bind_const _ _
               (Z.to_nat (shape1 image `div` imsize) * 2)%nat).
    + rewrite length_seqZ, Z2Nat.inj_mul by lia. lia.
    + intros h _. rewrite (length_bind_const _ _ 2%nat) by done.
      by rewrite length_seqZ.
  - intros f tile Hin.
    apply list_elem_of_bind in Hin as (h & Hin & Hh).
    apply list_elem_of_bind in Hin as (w & Hin & Hw).
    apply elem_of_seqZ in Hh, Hw.
    destruct (chunk_bounds (shape0 image) imsize h Hs) as [Hh0 Hh1]; [lia|].
    destruct (chunk_bounds (shape1 image) imsize w Hs) as [Hw0 Hw1]; [lia|].
    apply elem_of_cons in Hin as [Hin|Hin];
      [|apply list_elem_of_singleton in Hin]; simplify_eq.
    + split; [apply length_block; lia|apply block_row_lengths; (done || lia)].
    + split; [apply length_block; lia|apply block_row_lengths; (done || lia)].
  - intros h w Hh Hw.
    destruct (chunk_bounds (shape0 image) imsize h Hs) as [Hh0 Hh1]; [lia|].
    destruct (chunk_bounds (shape1 image) imsize w Hs) as [Hw0 Hw1]; [lia|].
    repeat (split; [lia|]). intros i j Hi' Hj'. by apply get2_block.
Qed.

Lemma sample_image_rectangular : rectangular sample_image.
Proof. unfold rectangular. by repeat constructor. Qed.

Lemma sample_mask_rectangular : rectangular sample_mask.
Proof. unfold rectangular. by repeat constructor. Qed.

Lemma grid_tiler_emits_full_tiles_witness :
  ∃ log,
    patchify_item 2 "out" "breast" "train" "item" sample_image sample_mask
      = ret log
    ∧ fst <$> imwrites log =
        [ "out/breast/train/images/item_H0W0.png";
          "out/breast/train/masks/item_H0W0.png";
          "out/breast/train/images/item_H0W2.png";
          "out/breast/train/masks/item_H0W2.png";
          "out/breast/train/images/item_H2W0.png";
          "out/breast/train/masks/item_H2W0.png";
          "out/breast/train/images/item_H2W2.png";
          "out/breast/train/masks/item_H2W2.png" ].
Proof.
  destruct (grid_tiler_emits_full_tiles 2 "out" "breast" "train" "item"
              sample_image sample_mask) as (log & Hlog & Hw & _);
    [lia | apply sample_image_rectangular | apply sample_mask_rectangular
    | reflexivity | reflexivity |].
  exists log. split; [exact Hlog|]. rewrite Hw. vm_compute. reflexivity.
Defined.

(** ** Canvases *)

Lemma same_shape_length {A B} (a : list (list A)) (b : list (list B)) :
  same_shape a b → length a = length b.
Proof. apply Forall2_length. Qed.

Lemma same_shape_trans {A B C} (a : list (list A)) (b : list (list B))
    (c : list (list C)) :
  same_shape a b → same_shape b c → same_shape a c.
Proof.
  unfold same_shape. rewrite !Forall2_same_length_lookup.
  intros [Hl1 H1] [Hl2 H2]. split; [congruence|].
  intros i x z Hx Hz.
  destruct (lookup_lt_is_Some_2 b i) as [y Hy].
  { rewrite <-Hl1. by eapply lookup_lt_Some. }
  rewrite (H1 i x y), (H2 i y z); done.
Qed.

Lemma same_shape_zeros_like (a : ndarray) : same_shape (zeros_like a) a.
Proof.
  unfold same_shape, zeros_like. apply Forall2_fmap_l, Forall_Forall2_diag.
  apply Forall_forall. intros row _. simpl. by rewrite length_fmap.
Qed.

Lemma length_slice_assign {A} lo hi (vals l : list A) :
  length (slice_assign lo hi vals l) = length l.
Proof. unfold slice_assign. by rewrite length_imap. Qed.

Lemma same_shape_slice_assign2 {A} h0 h1 w0 w1 (patch a : list (list A)) :
  same_shape (slice_assign2 h0 h1 w0 w1 patch a) a.
Proof.
  unfold same_shape. apply Forall2_same_length_lookup. split.
  { unfold slice_assign2. by rewrite length_imap. }
  intros i x y Hx Hy. unfold slice_assign2 in Hx.
  rewrite list_lookup_imap, Hy in Hx. simpl in Hx. simplify_eq.
  case_decide; [|done]. destruct (patch !! _); [|done].
  apply length_slice_assign.
Qed.

(** Assigning the block of [src] at offset ([h], [w]) to the same slice of
    a canvas of the same shape: inside the slice the canvas now shows
    [src], outside it is unchanged. *)
Lemma get2_slice_assign2_block {A} (src canvas : list (list A)) (h w s : Z)
    (r c : nat) :
  same_shape canvas src → rectangular src →
  0 ≤ h → 0 ≤ w → 0 ≤ s → h + s ≤ shape0 src → w + s ≤ shape1 src →
  get2 (slice_assign2 h (h + s) w (w + s) (block src h w s) canvas) r c =
    if decide (h ≤ Z.of_nat r < h + s ∧ w ≤ Z.of_nat c < w + s)
    then get2 src r c else get2 canvas r c.
Proof.
  intros Hsh Hrect Hh Hw Hs Hh' Hw'.
  pose proof (same_shape_length _ _ Hsh) as Hlen. unfold shape0 in *.
  unfold get2, slice_assign2. rewrite list_lookup_imap.
  rewrite !slice_bound_id by lia.
  destruct (canvas !! r) as [row|] eqn:Hrow; simpl.
  2:{ apply lookup_ge_None in Hrow. by rewrite decide_False by lia. }
  destruct (Forall2_lookup_l _ _ _ _ _ Hsh Hrow) as (srow & Hsrow & Hrl).
  pose proof (rectangular_lookup _ _ _ Hrect Hsrow) as Hsl.
  rewrite Hsrow. simpl.
  destruct (decide (h ≤ Z.of_nat r < h + s)) as [Hr|Hr].
  2:{ by rewrite decide_False by lia. }
  assert (block src h w s !! Z.to_nat (Z.of_nat r - h)
          = Some (take (Z.to_nat s) (drop (Z.to_nat w) srow))) as ->.
  { unfold block. rewrite list_lookup_fmap, lookup_take_lt, lookup_drop by lia.
    replace (Z.to_nat h + Z.to_nat (Z.of_nat r - h))%nat with r by lia.
    by rewrite Hsrow. }
  unfold slice_assign. rewrite list_lookup_imap.
  rewrite !slice_bound_id by lia.
  destruct (row !! c) as [x|] eqn:Hx; simpl.
  - destruct (decide (w ≤ Z.of_nat c < w + s)) as [Hc|Hc].
    + rewrite decide_True by lia.
      rewrite lookup_take_lt, lookup_drop by lia.
      replace (Z.to_nat w + Z.to_nat (Z.of_nat c - w))%nat with c by lia.
      destruct (srow !! c) as [y|] eqn:Hy; [done|].
      apply lookup_ge_None in Hy. lia.
    + by rewrite decide_False by lia.
  - apply lookup_ge_None in Hx. by rewrite decide_False by lia.
Qed.

(** ** Intra-image partitioner: the loops *)

Lemma foldl_nested_range {S} (T : S → Z → Z → S) (rows cols : Z) (st : S) :
  0 ≤ rows → 0 ≤ cols →
  foldl (λ st h, foldl (λ st w, T st h w) st (range cols)) st (range rows)
  = foldl (λ st k, T st (k `div` cols) (k `mod` cols)) st (seqZ 0 (rows * cols)).
Proof.
  intros Hr Hc.
  rewrite <-(foldl_fmap' (λ st (p : Z * Z), T st p.1 p.2)
               (λ k, (k `div` cols, k `mod` cols))).
  rewrite <-grid_row_major by done. rewrite foldl_bind. unfold range.
  apply foldl_ext'. intros a h. by rewrite foldl_fmap'.
Qed.

Lemma tile_of_number (rows cols k : Z) :
  0 ≤ k < rows * cols → 0 ≤ cols →
  0 ≤ k `div` cols < rows ∧ 0 ≤ k `mod` cols < cols
  ∧ tile_number cols (k `div` cols) (k `mod` cols) = k.
Proof.
  intros Hk Hc. assert (0 < cols) as Hc'.
  { destruct (decide (cols = 0)) as [->|]; [|lia]. rewrite Z.mul_0_r in Hk. lia. }
  pose proof (Z.mod_pos_bound k cols Hc').
  pose proof (Z.div_mod k cols ltac:(lia)).
  unfold tile_number. split; [|split; [done|lia]].
  split; [apply Z.div_pos; lia|].
  apply Z.div_lt_upper_bound; lia.
Qed.

(** A pixel lies in tile number [k] exactly when its row and column chunks
    are inside the grid and number [k]. *)
Lemma in_tile_iff (s rows cols k : Z) (r c : nat) :
  0 < s → 0 ≤ cols → 0 ≤ k < rows * cols →
  (k `div` cols * s ≤ Z.of_nat r < k `div` cols * s + s
   ∧ k `mod` cols * s ≤ Z.of_nat c < k `mod` cols * s + s)
  ↔ (Z.of_nat r `div` s < rows ∧ Z.of_nat c `div` s < cols
     ∧ tile_number cols (Z.of_nat r `div` s) (Z.of_nat c `div` s) = k).
Proof.
  intros Hs Hc Hk.
  destruct (tile_of_number rows cols k Hk Hc) as (Ha & Hb & Hab).
  unfold tile_number in *.
  pose proof (Z.div_pos (Z.of_nat r) s ltac:(lia) Hs) as HR.
  pose proof (Z.div_pos (Z.of_nat c) s ltac:(lia) Hs) as HC.
  split.
  - intros [Hr Hc'].
    assert (Z.of_nat r `div` s = k `div` cols) as ->
      by (apply Z.diveq_iff; lia).
    assert (Z.of_nat c `div` s = k `mod` cols) as ->
      by (apply Z.diveq_iff; lia).
    lia.
  - intros (Hr & Hc' & Hn).
    assert (Z.of_nat r `div` s = k `div` cols ∧ Z.of_nat c `div` s = k `mod` cols)
      as [<- <-].
    { assert (Z.of_nat c `div` s = k `mod` cols) as E.
      { apply (Z.mod_unique_pos k cols (Z.of_nat r `div` s)); lia. }
      split; [|done]. nia. }
    pose proof (Z.mul_div_le (Z.of_nat r) s Hs).
    pose proof (Z.mul_succ_div_gt (Z.of_nat r) s Hs).
    pose proof (Z.mul_div_le (Z.of_nat c) s Hs).
    pose proof (Z.mul_succ_div_gt (Z.of_nat c) s Hs).
    lia.
Qed.

Section PartitionerLoop.

Context (imsize : Z) (target_folder cancer_type : string)
  (test_item_count : Z) (test_item : string) (image mask : ndarray)
  (target_count : Z).
Hypothesis Hs : 0 < imsize.
Hypothesis Hi : rectangular image.
Hypothesis Hm : rectangular mask.
Hypothesis Hm0 : shape0 mask = shape0 image.
Hypothesis Hm1 : shape1 mask = shape1 image.

Local Abbreviation rows := (shape0 image `div` imsize).
Local Abbreviation cols := (shape1 image `div` imsize).
Local Abbreviation step :=
  (λ st k, intraimage_tile imsize target_folder cancer_type test_item_count
             test_item image mask (shape0 image) (shape1 image) target_count
             st (k `div` cols) (k `mod` cols)).
Local Abbreviation init :=
  {| curr_count := 0; image_effective := zeros_like image;
     mask_effective := zeros_like mask; log := [] |}.
Local Abbreviation events_of k :=
  (tile_events imsize target_folder cancer_type test_item_count test_item
     image mask target_count (k `div` cols) (k `mod` cols) k).
Local Abbreviation shown src n r c :=
  (if decide (heldout_pixel imsize rows cols target_count r c
              ∧ tile_number cols (Z.of_nat r `div` imsize)
                  (Z.of_nat c `div` imsize) < n)
   then get2 src r c else get2 (zeros_like src) r c).

Lemma rows_nonneg : 0 ≤ rows.
Proof using Hs. apply Z.div_pos; unfold shape0; lia. Qed.

Lemma cols_nonneg : 0 ≤ cols.
Proof using Hs. apply Z.div_pos; unfold shape1; lia. Qed.

(** The nested loops are one loop over the tile numbers. *)
Lemma intraimage_tiles_foldl :
  intraimage_tiles imsize target_folder cancer_type test_item_count
    test_item image mask target_count
  = ret (foldl step init (seqZ 0 (rows * cols))).
Proof using Hs.
  unfold intraimage_tiles. rewrite floordiv_ret by lia. simpl.
  erewrite for_each_ext.
  2:{ intros st h_chunk _. rewrite floordiv_ret by lia. simpl.
      rewrite for_each_ret. reflexivity. }
  rewrite for_each_ret. f_equal.
  apply (foldl_nested_range
    (λ st h w, intraimage_tile imsize target_folder cancer_type
       test_item_count test_item image mask (shape0 image) (shape1 image)
       target_count st h w)); [apply rows_nonneg|apply cols_nonneg].
Qed.

(** One iteration, for a tile of the grid. *)
Lemma intraimage_tile_step st k :
  0 ≤ k < rows * cols → curr_count st = k →
  step st k =
    {| curr_count := k + 1;
       image_effective :=
         if decide (k < target_count) then image_effective st
         else slice_assign2 (k `div` cols * imsize)
                (k `div` cols * imsize + imsize)
                (k `mod` cols * imsize) (k `mod` cols * imsize + imsize)
                (block image (k `div` cols * imsize) (k `mod` cols * imsize)
                   imsize)
                (image_effective st);
       mask_effective :=
         if decide (k < target_count) then mask_effective st
         else slice_assign2 (k `div` cols * imsize)
                (k `div` cols * imsize + imsize)
                (k `mod` cols * imsize) (k `mod` cols * imsize + imsize)
                (block mask (k `div` cols * imsize) (k `mod` cols * imsize)
                   imsize)
                (mask_effective st);
       log := log st ++ events_of k |}.
Proof using Hs Hi Hm Hm0 Hm1.
  intros Hk Hc.
  destruct (tile_of_number _ _ _ Hk cols_nonneg) as (Hh & Hw & _).
  destruct (chunk_bounds _ _ _ Hs Hh) as [Hh0 Hh1].
  destruct (chunk_bounds _ _ _ Hs Hw) as [Hw0 Hw1].
  unfold intraimage_tile, tile_events. rewrite Hc.
  rewrite !Z.max_l, !Z.min_l by lia.
  rewrite !slice2_block by (done || lia).
  by destruct (decide (k < target_count)).
Qed.

(** One iteration on a canvas: what it shows afterwards. *)
Lemma canvas_step (src canvas : ndarray) (k : Z) (r c : nat) :
  same_shape canvas src → rectangular src →
  shape0 src = shape0 image → shape1 src = shape1 image →
  0 ≤ k < rows * cols →
  (∀ r c, get2 canvas r c = shown src k r c) →
  get2 (if decide (k < target_count) then canvas
        else slice_assign2 (k `div` cols * imsize)
               (k `div` cols * imsize + imsize)
               (k `mod` cols * imsize) (k `mod` cols * imsize + imsize)
               (block src (k `div` cols * imsize) (k `mod` cols * imsize)
                  imsize) canvas) r c
  = shown src (k + 1) r c.
Proof using Hs.
  intros Hsh Hrect H0 H1 Hk IH.
  destruct (tile_of_number _ _ _ Hk cols_nonneg) as (Hh & Hw & _).
  destruct (chunk_bounds _ _ _ Hs Hh) as [Hh0 Hh1].
  destruct (chunk_bounds _ _ _ Hs Hw) as [Hw0 Hw1].
  pose proof (in_tile_iff imsize rows cols k r c Hs cols_nonneg Hk) as Htile.
  destruct (decide (k < target_count)) as [Hlt|Hge].
  - rewrite IH. unfold heldout_pixel.
    repeat case_decide; try done; exfalso; lia.
  - rewrite get2_slice_assign2_block by (done || lia).
    destruct (decide (_ ∧ _)) as [Hin|Hout].
    + apply Htile in Hin. unfold heldout_pixel.
      rewrite decide_True; [done|]. lia.
    + rewrite IH. unfold heldout_pixel in *.
      repeat case_decide; try done; exfalso.
      * lia.
      * apply Hout, Htile. lia.
Qed.

(** The state after the first [n] tiles. *)
Lemma intraimage_loop_invariant (n : nat) :
  Z.of_nat n ≤ rows * cols →
  let st := foldl step init (seqZ 0 (Z.of_nat n)) in
  curr_count st = Z.of_nat n
  ∧ log st = (seqZ 0 (Z.of_nat n) ≫= λ k, events_of k)
  ∧ same_shape (image_effective st) image
  ∧ same_shape (mask_effective st) mask
  ∧ (∀ r c, get2 (image_effective st) r c = shown image (Z.of_nat n) r c)
  ∧ (∀ r c, get2 (mask_effective st) r c = shown mask (Z.of_nat n) r c).
Proof using Hs Hi Hm Hm0 Hm1.
  induction n as [|n IH]; intros Hn; simpl.
  - repeat split; try apply same_shape_zeros_like.
    + intros r c. rewrite decide_False; [done|].
      unfold heldout_pixel, tile_number. intros [_ Hneg].
      pose proof (Z.div_pos (Z.of_nat r) imsize ltac:(lia) Hs).
      pose proof (Z.div_pos (Z.of_nat c) imsize ltac:(lia) Hs).
      pose proof cols_nonneg. nia.
    + intros r c. rewrite decide_False; [done|].
      unfold heldout_pixel, tile_number. intros [_ Hneg].
      pose proof (Z.div_pos (Z.of_nat r) imsize ltac:(lia) Hs).
      pose proof (Z.div_pos (Z.of_nat c) imsize ltac:(lia) Hs).
      pose proof cols_nonneg. nia.
  - destruct IH as (Hc & Hl & Hsi & Hsm & Hpi & Hpm); [lia|].
    rewrite seqZ_S, foldl_snoc, Z.add_0_l.
    rewrite intraimage_tile_step by (done || lia). simpl.
    replace (Z.of_nat (S n)) with (Z.of_nat n + 1) by lia.
    split; [done|]. split.
    { rewrite Hl. rewrite bind_app. f_equal. simpl. by rewrite app_nil_r. }
    split.
    { case_decide; [done|].
      eapply same_shape_trans; [apply same_shape_slice_assign2|done]. }
    split.
    { case_decide; [done|].
      eapply same_shape_trans; [apply same_shape_slice_assign2|done]. }
    split.
    + intros r c. apply canvas_step; (done || lia).
    + intros r c. apply canvas_step; (done || lia).
Qed.

End PartitionerLoop.

(** ** Intra-image partitioner: the run on one item *)

Lemma list_bind_assoc {A B C} (f : A → list B) (g : B → list C) (l : list A) :
  (l ≫= f) ≫= g = l ≫= λ x, f x ≫= g.
Proof.
  induction l as [|x l IH]; [done|]. by rewrite !bind_cons, bind_app, IH.
Qed.

(** The events of the tiles by tile number, and by row and column chunk. *)
Lemma tile_events_nested {E} (ev : Z → Z → Z → list E) (rows cols : Z) :
  0 ≤ rows → 0 ≤ cols →
  (seqZ 0 (rows * cols) ≫= λ k, ev (k `div` cols) (k `mod` cols) k)
  = (seqZ 0 rows ≫= λ h_chunk, seqZ 0 cols ≫= λ w_chunk,
       ev h_chunk w_chunk (tile_number cols h_chunk w_chunk)).
Proof.
  intros Hr Hc.
  transitivity
    (((λ k, (k `div` cols, k `mod` cols)) <$> seqZ 0 (rows * cols))
       ≫= λ p, ev p.1 p.2 (tile_number cols p.1 p.2)).
  - rewrite list_fmap_bind. apply bind_ext_in. intros k Hk. simpl.
    apply elem_of_seqZ in Hk.
    destruct (tile_of_number rows cols k) as (_ & _ & ->); (done || lia).
  - rewrite <-grid_row_major by done. rewrite list_bind_assoc.
    apply bind_ext_in. intros h _. by rewrite list_fmap_bind.
Qed.

Lemma ceil_div_spec a b :
  0 < b → b * (ceil_div a b - 1) < a ≤ b * ceil_div a b.
Proof.
  intros Hb. unfold ceil_div.
  pose proof (Z.mul_div_le (- a) b Hb).
  pose proof (Z.mul_succ_div_gt (- a) b Hb). lia.
Qed.

Lemma target_count_bounds percentage total :
  0 ≤ percentage ≤ 100 → 0 ≤ total →
  0 ≤ ceil_div (percentage * total) 100 ≤ total.
Proof.
  intros Hp Ht. pose proof (ceil_div_spec (percentage * total) 100). nia.
Qed.

Lemma get2_zeros_like (a : ndarray) r c :
  get2 (zeros_like a) r c = zero_pixel <$> get2 a r c.
Proof.
  unfold get2, zeros_like. rewrite list_lookup_fmap.
  destruct (a !! r) as [row|]; simpl; [|done]. by rewrite list_lookup_fmap.
Qed.

(** The run on one item: it returns, and its final state is the state of
    the loop invariant after all tiles, with the two effective canvases
    written last. *)
Lemma intraimage_item_spec imsize percentage target_folder cancer_type
    test_item_count test_item image mask :
  0 < imsize → rectangular image → rectangular mask →
  shape0 mask = shape0 image → shape1 mask = shape1 image →
  let rows := shape0 image `div` imsize in
  let cols := shape1 image `div` imsize in
  let target := ceil_div (percentage * (rows * cols)) 100 in
  ∃ st,
    intraimage_item imsize percentage target_folder cancer_type
      test_item_count test_item image mask = ret st
    ∧ curr_count st = rows * cols
    ∧ log st =
        (seqZ 0 (rows * cols) ≫= λ k,
           tile_events imsize target_folder cancer_type test_item_count
             test_item image mask target (k `div` cols) (k `mod` cols) k)
        ++ effective_events target_folder cancer_type test_item_count
             test_item (image_effective st) (mask_effective st)
    ∧ same_shape (image_effective st) image
    ∧ same_shape (mask_effective st) mask
    ∧ (∀ r c, get2 (image_effective st) r c =
         if decide (heldout_pixel imsize rows cols target r c)
         then get2 image r c else zero_pixel <$> get2 image r c)
    ∧ (∀ r c, get2 (mask_effective st) r c =
         if decide (heldout_pixel imsize rows cols target r c)
         then get2 mask r c else zero_pixel <$> get2 mask r c).
Proof.
  intros Hs Hi Hm Hm0 Hm1 rows cols target.
  assert (0 ≤ rows) as Hrows by (by apply rows_nonneg).
  assert (0 ≤ cols) as Hcols by (by apply cols_nonneg).
  unfold intraimage_item. rewrite !floordiv_ret by lia. simpl.
  rewrite intraimage_tiles_foldl by done. simpl.
  destruct (intraimage_loop_invariant imsize target_folder cancer_type
              test_item_count test_item image mask target Hs Hi Hm Hm0 Hm1
              (Z.to_nat (rows * cols)))
    as (Hc & Hl & Hsi & Hsm & Hpi & Hpm); [fold rows cols; lia|].
  rewrite Z2Nat.id in * by lia. fold rows cols target in Hc, Hl, Hsi, Hsm, Hpi, Hpm |- *.
  eexists. split; [reflexivity|]. simpl.
  split; [done|]. split; [by rewrite Hl|]. split; [done|]. split; [done|].
  assert (∀ r c, heldout_pixel imsize rows cols target r c →
            tile_number cols (Z.of_nat r `div` imsize)
              (Z.of_nat c `div` imsize) < rows * cols) as Hnum.
  { intros r c (Hr & Hc' & _). unfold tile_number.
    pose proof (Z.div_pos (Z.of_nat r) imsize ltac:(lia) Hs).
    pose proof (Z.div_pos (Z.of_nat c) imsize ltac:(lia) Hs). nia. }
  split; intros r c.
  - rewrite Hpi, get2_zeros_like.
    destruct (decide (heldout_pixel imsize rows cols target r c)) as [Hp|Hp].
    + rewrite decide_True; [done|]. split; [done|by apply Hnum].
    + rewrite decide_False; [done|]. by intros [? _].
  - rewrite Hpm, get2_zeros_like.
    destruct (decide (heldout_pixel imsize rows cols target r c)) as [Hp|Hp].
    + rewrite decide_True; [done|]. split; [done|by apply Hnum].
    + rewrite decide_False; [done|]. by intros [? _].
Qed.

Lemma mul_scalar_0 (a : ndarray) : mul_scalar a 0 = zeros_like a.
Proof.
  unfold mul_scalar, zeros_like.
  apply list_fmap_ext; intros _ row _. apply list_fmap_ext; intros _ px _.
  apply list_fmap_ext; intros _ x _. by rewrite Z.mul_0_r.
Qed.

(** The calls of one iteration are the calls the specification asks for:
    those of an evidence tile when the tile's number is below the target,
    those of a held-out tile otherwise. *)
Lemma tile_events_calls imsize target_folder cancer_type test_item_count
    test_item image mask target_count h_chunk w_chunk number :
  tile_events imsize target_folder cancer_type test_item_count test_item
    image mask target_count h_chunk w_chunk number
  = partition_calls target_folder cancer_type test_item_count
      (bool_decide (number < target_count)) test_item
      (h_chunk * imsize) (w_chunk * imsize)
      (block image (h_chunk * imsize) (w_chunk * imsize) imsize)
      (block mask (h_chunk * imsize) (w_chunk * imsize) imsize).
Proof.
  unfold tile_events, partition_calls. cbv zeta.
  destruct (decide (number < target_count)) as [Hn|Hn].
  - rewrite bool_decide_eq_true_2 by done. unfold evidence_events.
    rewrite !mul_scalar_0. reflexivity.
  - rewrite bool_decide_eq_false_2 by done. reflexivity.
Qed.

Lemma effective_events_canvases target_folder cancer_type test_item_count
    test_item image_effective mask_effective :
  effective_events target_folder cancer_type test_item_count test_item
    image_effective mask_effective
  = [ Imwrite (effective_path target_folder cancer_type test_item_count
                 Images test_item) image_effective;
      Imwrite (effective_path target_folder cancer_type test_item_count
                 Masks test_item) mask_effective ].
Proof. reflexivity. Qed.

(** C1.  For an image of height H and width W, both at least 1 (with a
    mask of the same shape), a tile size imsize > 0 and a percentage p
    between 0 and 100 (the script uses 5, 20 and 50), let rows = H div
    imsize, cols = W div imsize, total = rows cols and target = ceil (p
    total / 100), which lies between 0 and total.  The partitioner
    returns after visiting total tiles, and the file-system calls of the
    run are, in this order: for h_chunk = 0 .. rows - 1 (outer loop) and
    w_chunk = 0 .. cols - 1 (inner loop), the calls that store the tile
    at row h_chunk imsize and column w_chunk imsize - in the train tree
    [img<k>_train] (and, blanked, in the test tree) when the row-major
    number h_chunk cols + w_chunk of the tile is below target, in the
    test tree [img<k>_test] otherwise -, followed by the two writes of
    the effective canvases.  Put by tile number: the first target tiles
    go to the train tree, one after the other, then the remaining total -
    target tiles go to the test tree. *)
Theorem partitioner_assigns_first_tiles_to_evidence
    (imsize percentage : Z) (target_folder cancer_type : string)
    (test_item_count : Z) (test_item : string) (image mask : ndarray) :
  0 < imsize → 0 ≤ percentage ≤ 100 →
  rectangular image → rectangular mask → nonempty image →
  shape0 mask = shape0 image → shape1 mask = shape1 image →
  let rows := shape0 image `div` imsize in
  let cols := shape1 image `div` imsize in
  let total := rows * cols in
  let target := ceil_div (percentage * total) 100 in
  let tile (evidence : bool) (h_chunk w_chunk : Z) :=
    partition_calls target_folder cancer_type test_item_count evidence
      test_item (h_chunk * imsize) (w_chunk * imsize)
      (block image (h_chunk * imsize) (w_chunk * imsize) imsize)
      (block mask (h_chunk * imsize) (w_chunk * imsize) imsize) in
  ∃ st,
    intraimage_item imsize percentage target_folder cancer_type
      test_item_count test_item image mask = ret st
    ∧ curr_count st = total
    ∧ 100 * (target - 1) < percentage * total ≤ 100 * target
    ∧ 0 ≤ target ≤ total
    ∧ log st =
        (seqZ 0 rows ≫= λ h_chunk, seqZ 0 cols ≫= λ w_chunk,
           tile (bool_decide (tile_number cols h_chunk w_chunk < target))
             h_chunk w_chunk)
        ++ [ Imwrite (effective_path target_folder cancer_type
                        test_item_count Images test_item) (image_effective st);
             Imwrite (effective_path target_folder cancer_type
                        test_item_count Masks test_item) (mask_effective st) ]
    ∧ log st =
        (seqZ 0 target ≫= λ k, tile true (k `div` cols) (k `mod` cols))
        ++ (seqZ target (total - target) ≫= λ k,
              tile false (k `div` cols) (k `mod` cols))
        ++ [ Imwrite (effective_path target_folder cancer_type
                        test_item_count Images test_item) (image_effective st);
             Imwrite (effective_path target_folder cancer_type
                        test_item_count Masks test_item) (mask_effective st) ].
Proof.
  intros Hs Hp Hi Hm _ Hm0 Hm1 rows cols total target tile.
  assert (0 ≤ rows) as Hrows by (by apply rows_nonneg).
  assert (0 ≤ cols) as Hcols by (by apply cols_nonneg).
  destruct (intraimage_item_spec imsize percentage target_folder cancer_type
              test_item_count test_item image mask Hs Hi Hm Hm0 Hm1)
    as (st & Hrun & Hc & Hl & _).
  fold rows cols total target in Hc, Hl.
  rewrite effective_events_canvases in Hl.
  assert (0 ≤ target ≤ total) as Ht by (apply target_count_bounds; lia).
  exists st. split; [done|]. split; [done|].
  split; [apply ceil_div_spec; lia|]. split; [done|]. split.
  - rewrite Hl. f_equal.
    etransitivity;
      [apply (tile_events_nested
         (tile_events imsize target_folder cancer_type test_item_count
            test_item image mask target)); done|].
    apply bind_ext_in. intros h_chunk _. apply bind_ext_in. intros w_chunk _.
    apply tile_events_calls.
  - rewrite Hl, (app_assoc (seqZ 0 target ≫= _)). f_equal.
    replace total with (target + (total - target)) at 1 by lia.
    rewrite seqZ_app by lia. rewrite bind_app, Z.add_0_l. f_equal.
    + apply bind_ext_in. intros k Hk%elem_of_seqZ.
      rewrite tile_events_calls. by rewrite bool_decide_eq_true_2 by lia.
    + apply bind_ext_in. intros k Hk%elem_of_seqZ.
      rewrite tile_events_calls. by rewrite bool_decide_eq_false_2 by lia.
Qed.

Lemma rectangular_replicate {A} (n m : nat) (x : A) :
  rectangular (replicate n (replicate m x)).
Proof.
  unfold rectangular, shape1. destruct n as [|n]; [constructor|].
  simpl. rewrite length_replicate. constructor; [by rewrite length_replicate|].
  apply Forall_replicate. by rewrite length_replicate.
Qed.

Lemma partitioner_assigns_first_tiles_to_evidence_witness :
  let tile (evidence : bool) (k : Z) :=
    partition_calls "out" "breast" 0 evidence "item"
      (k `div` 5 * 200) (k `mod` 5 * 200)
      (block example_image (k `div` 5 * 200) (k `mod` 5 * 200) 200)
      (block example_image (k `div` 5 * 200) (k `mod` 5 * 200) 200) in
  ∃ st,
    intraimage_item 200 20 "out" "breast" 0 "item" example_image example_image
      = ret st
    ∧ curr_count st = 25
    ∧ log st =
        (seqZ 0 5 ≫= λ k, tile true k) ++ (seqZ 5 20 ≫= λ k, tile false k)
        ++ [ Imwrite "out/breast/img0_test/item_effective_image.png"
               (image_effective st);
             Imwrite "out/breast/img0_test/item_effective_mask.png"
               (mask_effective st) ]
    ∧ length (imwrites (log st)) = 62%nat
    ∧ take 6 (drop 16 (imwrites (log st)).*1)
      = [ "out/breast/img0_train/images/item_H0W800.png";
          "out/breast/img0_train/masks/item_H0W800.png";
          "out/breast/img0_test/images/item_H0W800.png";
          "out/breast/img0_test/masks/item_H0W800.png";
          "out/breast/img0_test/images/item_H200W0.png";
          "out/breast/img0_test/masks/item_H200W0.png" ].
Proof.
  intros tile.
  destruct (partitioner_assigns_first_tiles_to_evidence 200 20 "out" "breast"
              0 "item" example_image example_image)
    as (st & Hrun & Hc & _ & _ & _ & Hl);
    [lia | lia | apply rectangular_replicate | apply rectangular_replicate
    | split; reflexivity | reflexivity | reflexivity |].
  exists st. split; [exact Hrun|]. split; [exact Hc|]. split; [exact Hl|].
  rewrite Hl. split; reflexivity.
Defined.

(** C3.  After a run of the partitioner, the effective image (and the
    effective mask) has the shape of the source and shows, pixel by pixel,
    the source where the pixel lies in a held-out tile - a tile of the
    grid whose row-major number is at least target - and zero in every
    channel elsewhere: in evidence tiles and past the last full tile.
    These canvases are what the run writes last. *)
Theorem effective_canvas_shows_heldout_tiles
    (imsize percentage : Z) (target_folder cancer_type : string)
    (test_item_count : Z) (test_item : string) (image mask : ndarray) :
  0 < imsize → rectangular image → rectangular mask →
  shape0 mask = shape0 image → shape1 mask = shape1 image →
  let rows := shape0 image `div` imsize in
  let cols := shape1 image `div` imsize in
  let target := ceil_div (percentage * (rows * cols)) 100 in
  ∃ st,
    intraimage_item imsize percentage target_folder cancer_type
      test_item_count test_item image mask = ret st
    ∧ same_shape (image_effective st) image
    ∧ same_shape (mask_effective st) mask
    ∧ (∀ r c, get2 (image_effective st) r c =
         if decide (heldout_pixel imsize rows cols target r c)
         then get2 image r c else zero_pixel <$> get2 image r c)
    ∧ (∀ r c, get2 (mask_effective st) r c =
         if decide (heldout_pixel imsize rows cols target r c)
         then get2 mask r c else zero_pixel <$> get2 mask r c)
    ∧ (∃ tiles, log st =
         tiles ++ effective_events target_folder cancer_type test_item_count
                    test_item (image_effective st) (mask_effective st)).
Proof.
  intros Hs Hi Hm Hm0 Hm1 rows cols target.
  destruct (intraimage_item_spec imsize percentage target_folder cancer_type
              test_item_count test_item image mask Hs Hi Hm Hm0 Hm1)
    as (st & Hrun & _ & Hl & Hsi & Hsm & Hpi & Hpm).
  exists st. repeat (split; [done|]). eauto.
Qed.

Lemma effective_canvas_shows_heldout_tiles_witness :
  ∃ st,
    intraimage_item 2 50 "out" "breast" 0 "item" sample_image sample_mask
      = ret st
    ∧ image_effective st =
        [ [ [0;0;0];    [0;0;0];    [0;0;0];    [0;0;0];    [0;0;0] ];
          [ [0;0;0];    [0;0;0];    [0;0;0];    [0;0;0];    [0;0;0] ];
          [ [20;20;20]; [21;21;21]; [22;22;22]; [23;23;23]; [0;0;0] ];
          [ [30;30;30]; [31;31;31]; [32;32;32]; [33;33;33]; [0;0;0] ];
          [ [0;0;0];    [0;0;0];    [0;0;0];    [0;0;0];    [0;0;0] ] ]
    ∧ get2 (image_effective st) 0 0 = Some [0; 0; 0]
    ∧ get2 (image_effective st) 3 2 = get2 sample_image 3 2.
Proof.
  destruct (effective_canvas_shows_heldout_tiles 2 50 "out" "breast" 0 "item"
              sample_image sample_mask)
    as (st & Hrun & _ & _ & Hpi & _);
    [lia | apply sample_image_rectangular | apply sample_mask_rectangular
    | reflexivity | reflexivity |].
  exists st. split; [exact Hrun|].
  split; [|split; [exact (Hpi 0%nat 0%nat)|exact (Hpi 3%nat 2%nat)]].
  clear Hpi. vm_compute in Hrun. injection Hrun as <-. reflexivity.
Defined.

(** ** Strings and decimal numerals *)

Lemma chars_app s1 s2 : chars (s1 +:+ s2) = chars s1 ++ chars s2.
Proof. induction s1 as [|c s1 IH]; simpl; [done|]. unfold chars in *. simpl. by rewrite IH. Qed.

Lemma chars_inj s1 s2 : chars s1 = chars s2 → s1 = s2.
Proof.
  intros H. rewrite <-(String.string_of_list_ascii_of_string s1),
    <-(String.string_of_list_ascii_of_string s2). unfold chars in H. by rewrite H.
Qed.

Lemma pretty_N_char_digit x : digit (pretty_N_char x).
Proof.
  unfold pretty_N_char.
  repeat case_match; apply (bool_decide_unpack _); by vm_compute.
Qed.

Lemma pretty_N_go_digits x s :
  Forall digit (chars s) → Forall digit (chars (pretty_N_go x s)).
Proof.
  revert s. induction (N.lt_wf_0 x) as [x _ IH]; intros s Hs.
  destruct (decide (x = 0)%N) as [->|Hx]; [by rewrite pretty_N_go_0|].
  rewrite pretty_N_go_step by lia. apply IH.
  - apply N.div_lt; lia.
  - unfold chars. simpl. constructor; [apply pretty_N_char_digit|done].
Qed.

Lemma pretty_N_go_nonempty x s : s ≠ "" → pretty_N_go x s ≠ "".
Proof.
  revert s. induction (N.lt_wf_0 x) as [x _ IH]; intros s Hs.
  destruct (decide (x = 0)%N) as [->|Hx]; [by rewrite pretty_N_go_0|].
  rewrite pretty_N_go_step by lia. apply IH; [|done].
  apply N.div_lt; lia.
Qed.

(** The numeral of a non-negative integer is a non-empty string of
    digits. *)
Lemma str_digits z : 0 ≤ z → Forall digit (chars (str z)) ∧ chars (str z) ≠ [].
Proof.
  intros Hz. destruct z as [|p|p]; [|clear Hz|lia].
  - split; [|done]. constructor; [|constructor].
    apply (bool_decide_unpack _). by vm_compute.
  - unfold str, pretty, pretty_Z, pretty, pretty_positive, pretty, pretty_N.
    rewrite decide_False by done. split.
    + apply pretty_N_go_digits. constructor.
    + intros H.
      apply (pretty_N_go_nonempty (N.pos p `div` 10)
               (String (pretty_N_char (N.pos p `mod` 10)) "")); [done|].
      rewrite <-pretty_N_go_step by lia. by apply chars_inj.
Qed.

(** ** Paths *)

(** Two strings of digits followed by the same non-digit separator. *)
Lemma digits_sep (d d' X X' : list ascii) (c : ascii) :
  Forall digit d → Forall digit d' → ¬ digit c →
  d ++ c :: X = d' ++ c :: X' → d = d' ∧ X = X'.
Proof.
  intros Hd. revert d'. induction Hd as [|a d Ha Hd IH]; intros d' Hd' Hc H.
  - destruct Hd' as [|a' d' Ha' Hd']; simpl in H.
    + by injection H as ->.
    + injection H as -> _. done.
  - destruct Hd' as [|a' d' Ha' Hd']; simpl in H.
    + injection H as -> _. done.
    + injection H as -> H. destruct (IH d' Hd' Hc H) as [-> ->]. done.
Qed.

Lemma tile_suffix_inj (h w h' w' : Z) (X X' : list ascii) :
  0 ≤ h → 0 ≤ w → 0 ≤ h' → 0 ≤ w' →
  chars (str h) ++ chars "W" ++ chars (str w) ++ chars ".png" ++ X
  = chars (str h') ++ chars "W" ++ chars (str w') ++ chars ".png" ++ X' →
  h = h' ∧ w = w'.
Proof.
  intros Hh Hw Hh' Hw' H.
  apply digits_sep in H as [Eh H]; [|by apply str_digits..|by vm_compute; lia].
  apply digits_sep in H as [Ew _]; [|by apply str_digits..|by vm_compute; lia].
  split; eapply (inj pretty), chars_inj; done.
Qed.

Lemma partition_path_inj target_folder cancer_type test_item_count test_item
    (p p' : part) (k k' : kind) (h w h' w' : Z) :
  0 ≤ h → 0 ≤ w → 0 ≤ h' → 0 ≤ w' →
  partition_path target_folder cancer_type test_item_count p k test_item h w
  = partition_path target_folder cancer_type test_item_count p' k' test_item
      h' w' →
  p = p' ∧ k = k' ∧ h = h' ∧ w = w'.
Proof.
  intros Hh Hw Hh' Hw' H. unfold partition_path in H.
  do 5 (apply (inj (String.append _)) in H).
  apply (f_equal chars) in H. unfold relative_path in H.
  rewrite !chars_app in H.
  destruct p, p', k, k'; simpl in H; try discriminate H.
  all: repeat (injection H as H); apply app_inv_head in H.
  all: repeat (injection H as H).
  all: destruct (tile_suffix_inj h w h' w' [] [] Hh Hw Hh' Hw') as [-> ->];
    [by rewrite !app_nil_r|done].
Qed.

Lemma snoc_nonempty {A} (l : list A) : l ≠ [] → ∃ l' x, l = l' ++ [x].
Proof. induction l as [|x l _] using rev_ind; [done|eauto]. Qed.

Lemma partition_path_ends_with_digit target_folder cancer_type
    test_item_count p k test_item h w :
  0 ≤ w →
  ∃ Y d, digit d
    ∧ chars (partition_path target_folder cancer_type test_item_count p k
               test_item h w) = Y ++ d :: chars ".png".
Proof.
  intros Hw. destruct (str_digits w Hw) as [Hd Hne].
  destruct (snoc_nonempty _ Hne) as (l & d0 & E). rewrite E in Hd.
  apply Forall_app in Hd as [_ Hd]. rewrite Forall_singleton in Hd.
  unfold partition_path, relative_path. rewrite !chars_app, E.
  eexists _, d0. split; [done|].
  rewrite !app_assoc. rewrite <-(app_assoc _ [d0] (chars ".png")).
  reflexivity.
Qed.

Lemma effective_path_not_tile target_folder cancer_type test_item_count
    test_item image_effective mask_effective p k h w :
  0 ≤ w →
  written_to (partition_path target_folder cancer_type test_item_count p k
                test_item h w)
    (imwrites (effective_events target_folder cancer_type test_item_count
                 test_item image_effective mask_effective)) = [].
Proof.
  intros Hw.
  destruct (partition_path_ends_with_digit target_folder cancer_type
              test_item_count p k test_item h w Hw) as (Y & d & Hd & HY).
  unfold effective_events, imwrites, written_to. cbn [omap list_omap].
  rewrite !filter_cons_False, filter_nil; [done|..]; simpl; intros H;
    apply (f_equal chars) in H; rewrite HY in H; rewrite !chars_app in H.
  - change (chars "_effective_mask.png")
      with (chars "_effective_mas" ++ "k"%char :: chars ".png") in H.
    rewrite !app_assoc in H. apply app_inj_2 in H as [_ H]; [|done].
    injection H as <-. revert Hd. by vm_compute; lia.
  - change (chars "_effective_image.png")
      with (chars "_effective_imag" ++ "e"%char :: chars ".png") in H.
    rewrite !app_assoc in H. apply app_inj_2 in H as [_ H]; [|done].
    injection H as <-. revert Hd. by vm_compute; lia.
Qed.

(** ** What each file receives *)

Lemma written_to_app f l1 l2 :
  written_to f (l1 ++ l2) = written_to f l1 ++ written_to f l2.
Proof. unfold written_to. by rewrite filter_app, fmap_app. Qed.

Lemma written_to_bind {X} f (g : X → list (string * ndarray)) (xs : list X) :
  written_to f (xs ≫= g) = xs ≫= λ x, written_to f (g x).
Proof.
  induction xs as [|x xs IH]; [done|].
  by rewrite !bind_cons, written_to_app, IH.
Qed.

Lemma written_to_cons target_folder cancer_type test_item_count test_item
    p k h w p0 k0 h0 w0 x l :
  0 ≤ h → 0 ≤ w → 0 ≤ h0 → 0 ≤ w0 →
  written_to (partition_path target_folder cancer_type test_item_count p0 k0
                test_item h0 w0)
    ((partition_path target_folder cancer_type test_item_count p k test_item
        h w, x) :: l)
  = (if decide (p = p0 ∧ k = k0 ∧ h = h0 ∧ w = w0) then [x] else [])
    ++ written_to (partition_path target_folder cancer_type test_item_count
                     p0 k0 test_item h0 w0) l.
Proof.
  intros Hh Hw Hh0 Hw0. unfold written_to.
  destruct (decide (p = p0 ∧ k = k0 ∧ h = h0 ∧ w = w0)) as [(-> & -> & -> & ->)|Hne].
  - by rewrite filter_cons_True.
  - rewrite filter_cons_False; [done|]. simpl. intros E.
    by apply partition_path_inj in E.
Qed.

(** The images and masks one tile contributes. *)
Lemma imwrites_tile_events imsize target_folder cancer_type test_item_count
    test_item image mask target_count h_chunk w_chunk number :
  imwrites (tile_events imsize target_folder cancer_type test_item_count
              test_item image mask target_count h_chunk w_chunk number)
  = let h := h_chunk * imsize in
    let w := w_chunk * imsize in
    let path p k :=
      partition_path target_folder cancer_type test_item_count p k test_item
        h w in
    let bi := block image h w imsize in
    let bm := block mask h w imsize in
    if decide (number < target_count) then
      [ (path Train Images, bi); (path Train Masks, bm);
        (path Test Images, zeros_like bi); (path Test Masks, zeros_like bm) ]
    else
      [ (path Test Images, bi); (path Test Masks, bm) ].
Proof.
  unfold tile_events. destruct (decide (number < target_count)); simpl.
  - unfold evidence_events, imwrites. cbn [omap list_omap].
    by rewrite !mul_scalar_0.
  - reflexivity.
Qed.

Lemma written_to_tile imsize target_folder cancer_type test_item_count
    test_item image mask target_count h_chunk w_chunk number p0 k0 h0 w0 :
  0 ≤ h_chunk * imsize → 0 ≤ w_chunk * imsize → 0 ≤ h0 → 0 ≤ w0 →
  written_to (partition_path target_folder cancer_type test_item_count p0 k0
                test_item h0 w0)
    (imwrites (tile_events imsize target_folder cancer_type test_item_count
                 test_item image mask target_count h_chunk w_chunk number))
  = if decide (h_chunk * imsize = h0 ∧ w_chunk * imsize = w0)
    then tile_content (bool_decide (number < target_count)) p0 k0
           (block image h0 w0 imsize) (block mask h0 w0 imsize)
    else [].
Proof.
  intros Hh Hw Hh0 Hw0. rewrite imwrites_tile_events. cbv zeta.
  destruct (decide (number < target_count)) as [Hn|Hn].
  - rewrite bool_decide_eq_true_2 by done.
    rewrite !written_to_cons by done.
    destruct (decide (h_chunk * imsize = h0 ∧ w_chunk * imsize = w0))
      as [[-> ->]|Hne].
    + destruct p0, k0; repeat case_decide; try done;
        exfalso; intuition congruence.
    + by repeat (rewrite decide_False by (intros (_ & _ & ? & ?); by apply Hne)).
  - rewrite bool_decide_eq_false_2 by done.
    rewrite !written_to_cons by done.
    destruct (decide (h_chunk * imsize = h0 ∧ w_chunk * imsize = w0))
      as [[-> ->]|Hne].
    + destruct p0, k0; repeat case_decide; try done;
        exfalso; intuition congruence.
    + by repeat (rewrite decide_False by (intros (_ & _ & ? & ?); by apply Hne)).
Qed.

Lemma bind_nil_all {X Y} (g : X → list Y) (xs : list X) :
  (∀ x, x ∈ xs → g x = []) → xs ≫= g = [].
Proof.
  induction xs as [|x xs IH]; intros H; [done|].
  rewrite bind_cons, H, IH; [done| |by left]. intros. apply H. by right.
Qed.

Lemma bind_seqZ_single {Y} (g : Z → list Y) (n k0 : Z) :
  0 ≤ k0 < n → (∀ k, 0 ≤ k < n → k ≠ k0 → g k = []) →
  seqZ 0 n ≫= g = g k0.
Proof.
  intros Hk H.
  replace n with (k0 + (1 + (n - k0 - 1))) by lia.
  rewrite !seqZ_app by lia. rewrite !bind_app.
  rewrite (bind_nil_all g (seqZ 0 k0)), (bind_nil_all g (seqZ _ (n - k0 - 1))).
  - rewrite Z.add_0_l. rewrite (seqZ_cons k0 1), seqZ_nil by lia.
    simpl. by rewrite !app_nil_r.
  - intros k Hk'. apply elem_of_seqZ in Hk'. apply H; lia.
  - intros k Hk'. apply elem_of_seqZ in Hk'. apply H; lia.
Qed.

Lemma tile_number_div_mod cols h_chunk w_chunk :
  0 ≤ w_chunk < cols →
  tile_number cols h_chunk w_chunk `div` cols = h_chunk
  ∧ tile_number cols h_chunk w_chunk `mod` cols = w_chunk.
Proof.
  intros Hw. unfold tile_number. split.
  - rewrite Z.div_add_l by lia. rewrite Z.div_small by lia. lia.
  - rewrite Z.add_comm, Z.mod_add by lia. by apply Z.mod_small.
Qed.

(** C4.  For an image with at least one row and one column and a mask of
    the same shape, the images and masks a run writes are, in order: for
    every tile of the grid, row by row, two image/mask pairs when the
    tile is an evidence tile (its row-major number is below target) - the
    blocks of the source into the train tree [img<k>_train], then
    all-zero arrays of the blocks' shape into the test tree [img<k>_test]
    at the same relative path - and one image/mask pair when it is held
    out - the blocks of the source into the test tree; then the two
    effective canvases; and nothing else.  File by file: the file of
    either kind of a tile receives, in the train tree, the block of the
    source exactly once for an evidence tile and nothing for a held-out
    tile; in the test tree, exactly one array, the all-zero one for an
    evidence tile and the block itself for a held-out tile. *)
Theorem evidence_tiles_written_twice_heldout_once
    (imsize percentage : Z) (target_folder cancer_type : string)
    (test_item_count : Z) (test_item : string) (image mask : ndarray) :
  0 < imsize → rectangular image → rectangular mask → nonempty image →
  shape0 mask = shape0 image → shape1 mask = shape1 image →
  let rows := shape0 image `div` imsize in
  let cols := shape1 image `div` imsize in
  let target := ceil_div (percentage * (rows * cols)) 100 in
  ∃ st,
    intraimage_item imsize percentage target_folder cancer_type
      test_item_count test_item image mask = ret st
    ∧ imwrites (log st) =
        (seqZ 0 rows ≫= λ h_chunk, seqZ 0 cols ≫= λ w_chunk,
           partition_writes target_folder cancer_type test_item_count
             (bool_decide (tile_number cols h_chunk w_chunk < target))
             test_item (h_chunk * imsize) (w_chunk * imsize)
             (block image (h_chunk * imsize) (w_chunk * imsize) imsize)
             (block mask (h_chunk * imsize) (w_chunk * imsize) imsize))
        ++ [ (effective_path target_folder cancer_type test_item_count
                Images test_item, image_effective st);
             (effective_path target_folder cancer_type test_item_count
                Masks test_item, mask_effective st) ]
    ∧ ∀ h_chunk w_chunk (p : part) (k : kind),
        0 ≤ h_chunk < rows → 0 ≤ w_chunk < cols →
        written_to
          (partition_path target_folder cancer_type test_item_count p k
             test_item (h_chunk * imsize) (w_chunk * imsize))
          (imwrites (log st))
        = tile_content
            (bool_decide (tile_number cols h_chunk w_chunk < target)) p k
            (block image (h_chunk * imsize) (w_chunk * imsize) imsize)
            (block mask (h_chunk * imsize) (w_chunk * imsize) imsize).
Proof.
  intros Hs Hi Hm _ Hm0 Hm1 rows cols target.
  assert (0 ≤ rows) as Hrows by (by apply rows_nonneg).
  assert (0 ≤ cols) as Hcols by (by apply cols_nonneg).
  destruct (intraimage_item_spec imsize percentage target_folder cancer_type
              test_item_count test_item image mask Hs Hi Hm Hm0 Hm1)
    as (st & Hrun & _ & Hl & _).
  fold rows cols target in Hl.
  exists st. split; [done|]. split.
  { rewrite Hl, imwrites_app, imwrites_bind. f_equal.
    etransitivity;
      [apply (tile_events_nested
         (λ h_chunk w_chunk number,
            imwrites (tile_events imsize target_folder cancer_type
                        test_item_count test_item image mask target
                        h_chunk w_chunk number))); done|].
    apply bind_ext_in. intros h_chunk _. apply bind_ext_in. intros w_chunk _.
    rewrite tile_events_calls.
    by destruct (bool_decide (tile_number cols h_chunk w_chunk < target)). }
  intros h_chunk w_chunk p k Hh Hw.
  destruct (chunk_bounds _ _ _ Hs Hh) as [Hh0 _].
  destruct (chunk_bounds _ _ _ Hs Hw) as [Hw0 _].
  destruct (tile_number_div_mod cols h_chunk w_chunk) as [Hdiv Hmod]; [lia|].
  rewrite Hl, imwrites_app, written_to_app.
  rewrite effective_path_not_tile, app_nil_r by done.
  rewrite imwrites_bind, written_to_bind.
  rewrite (bind_seqZ_single _ _ (tile_number cols h_chunk w_chunk)).
  - rewrite written_to_tile; rewrite ?Hdiv, ?Hmod; try done.
    by rewrite decide_True.
  - unfold tile_number. nia.
  - intros k' Hk' Hne.
    destruct (tile_of_number rows cols k' Hk' Hcols) as (Hh' & Hw' & Hn').
    destruct (chunk_bounds _ _ _ Hs Hh') as [Hh0' _].
    destruct (chunk_bounds _ _ _ Hs Hw') as [Hw0' _].
    rewrite written_to_tile by done.
    rewrite decide_False; [done|]. intros [E1 E2]. apply Hne.
    rewrite <-Hn'. unfold tile_number. nia.
Qed.

Lemma evidence_tiles_written_twice_heldout_once_witness :
  ∃ st,
    intraimage_item 2 50 "out" "breast" 0 "item" sample_image sample_mask
      = ret st
    ∧ (imwrites (log st)).*1
      = [ "out/breast/img0_train/images/item_H0W0.png";
          "out/breast/img0_train/masks/item_H0W0.png";
          "out/breast/img0_test/images/item_H0W0.png";
          "out/breast/img0_test/masks/item_H0W0.png";
          "out/breast/img0_train/images/item_H0W2.png";
          "out/breast/img0_train/masks/item_H0W2.png";
          "out/breast/img0_test/images/item_H0W2.png";
          "out/breast/img0_test/masks/item_H0W2.png";
          "out/breast/img0_test/images/item_H2W0.png";
          "out/breast/img0_test/masks/item_H2W0.png";
          "out/breast/img0_test/images/item_H2W2.png";
          "out/breast/img0_test/masks/item_H2W2.png";
          "out/breast/img0_test/item_effective_image.png";
          "out/breast/img0_test/item_effective_mask.png" ]
    ∧ written_to "out/breast/img0_train/images/item_H0W2.png"
        (imwrites (log st))
      = [ [ [ [2;2;2]; [3;3;3] ]; [ [12;12;12]; [13;13;13] ] ] ]
    ∧ written_to "out/breast/img0_test/images/item_H0W2.png"
        (imwrites (log st))
      = [ [ [ [0;0;0]; [0;0;0] ]; [ [0;0;0]; [0;0;0] ] ] ]
    ∧ written_to "out/breast/img0_train/masks/item_H2W2.png"
        (imwrites (log st)) = []
    ∧ written_to "out/breast/img0_test/masks/item_H2W2.png"
        (imwrites (log st))
      = [ [ [ [255;255;255]; [0;0;0] ]; [ [0;0;0]; [255;255;255] ] ] ].
Proof.
  destruct (evidence_tiles_written_twice_heldout_once 2 50 "out" "breast" 0
              "item" sample_image sample_mask)
    as (st & Hrun & Hall & H);
    [lia | apply sample_image_rectangular | apply sample_mask_rectangular
    | split; reflexivity | reflexivity | reflexivity |].
  exists st. split; [exact Hrun|].
  split; [rewrite Hall, fmap_app; reflexivity|].
  split; [exact (H 0 1 Train Images ltac:(done) ltac:(done))|].
  split; [exact (H 0 1 Test Images ltac:(done) ltac:(done))|].
  split; [exact (H 1 1 Train Masks ltac:(done) ltac:(done))|].
  exact (H 1 1 Test Masks ltac:(done) ltac:(done)).
Defined.

(** ** Nuclei detector *)

Lemma shape0_binarize mask : shape0 (binarize mask) = shape0 mask.
Proof. unfold shape0, binarize. by rewrite length_fmap. Qed.

Lemma shape1_binarize mask : shape1 (binarize mask) = shape1 mask.
Proof. unfold shape1, binarize. destruct mask; simpl; [done|]. by rewrite length_fmap. Qed.

Lemma shape0_zeros_like2 a : shape0 (zeros_like2 a) = shape0 a.
Proof. unfold shape0, zeros_like2. by rewrite length_fmap. Qed.

Lemma shape1_zeros_like2 a : shape1 (zeros_like2 a) = shape1 a.
Proof. unfold shape1, zeros_like2. destruct a; simpl; [done|]. by rewrite length_fmap. Qed.

Lemma shape_alter_insert (a : list (list Z)) (r c : nat) (v : Z) :
  shape0 (alter (λ row : list Z, <[c:=v]> row) r a) = shape0 a
  ∧ shape1 (alter (λ row : list Z, <[c:=v]> row) r a) = shape1 a.
Proof.
  unfold shape0, shape1. rewrite length_alter. split; [done|].
  destruct a as [|row a]; [done|]. destruct r; simpl; [|done].
  by rewrite length_insert.
Qed.

(** Truncation of a float inside [0, n) is an index inside [0, n). *)
Lemma int_of_float_in_range (x : pyfloat) (n : Z) :
  float_lt x (float_of_int 0) = false →
  float_ge x (float_of_int n) = false →
  x = NaN ∨ ∃ i, int_of_float x = ret i ∧ 0 ≤ i < n.
Proof.
  destruct x as [q| | |]; simpl; intros Hlo Hhi; try done; [|by left].
  right. eexists. split; [reflexivity|].
  apply negb_false_iff in Hhi.
  unfold Qlt_bool in *. apply negb_false_iff in Hlo. apply negb_true_iff in Hhi.
  apply Qle_bool_iff in Hlo. unfold Qle in Hlo. simpl in Hlo.
  assert (¬ (inject_Z n <= q)%Q) as Hhi'.
  { intros H. apply Qle_bool_iff in H. congruence. }
  unfold Qle in Hhi'. simpl in Hhi'.
  destruct q as [a b]. simpl in *.
  rewrite Z.quot_div_nonneg by lia. split.
  - apply Z.div_pos; lia.
  - apply Z.div_lt_upper_bound; lia.
Qed.

Lemma index_in_range len i : 0 ≤ i < len → index len i = ret (Z.to_nat i).
Proof. intros. unfold index. by rewrite decide_True. Qed.

(** An iteration never raises [IndexError], keeps the shape of the
    nuclei mask, and leaves it untouched for a point out of bounds. *)
Lemma mark_nucleus_safe mask nuclei_mask n :
  shape0 nuclei_mask = shape0 mask → shape1 nuclei_mask = shape1 mask →
  (out_of_bounds mask n → mark_nucleus mask nuclei_mask n = ret nuclei_mask)
  ∧ mark_nucleus mask nuclei_mask n ≠ raise IndexError
  ∧ ∀ nuclei_mask',
      mark_nucleus mask nuclei_mask n = ret nuclei_mask' →
      shape0 nuclei_mask' = shape0 mask ∧ shape1 nuclei_mask' = shape1 mask.
Proof.
  intros H0 H1. unfold mark_nucleus, out_of_bounds.
  destruct (float_lt n.1 (float_of_int 0)) eqn:E1; simpl.
  { split; [done|]. split; [done|]. by intros ? [= <-]. }
  destruct (float_ge n.1 (float_of_int (shape0 mask))) eqn:E2; simpl.
  { split; [done|]. split; [done|]. by intros ? [= <-]. }
  destruct (float_lt n.2 (float_of_int 0)) eqn:E3; simpl.
  { split; [done|]. split; [done|]. by intros ? [= <-]. }
  destruct (float_ge n.2 (float_of_int (shape1 mask))) eqn:E4; simpl.
  { split; [done|]. split; [done|]. by intros ? [= <-]. }
  split; [by intros [?|[?|[?|?]]]|].
  destruct (int_of_float_in_range _ _ E1 E2) as [->|(i & -> & Hi)];
    [by split|].
  destruct (int_of_float_in_range _ _ E3 E4) as [->|(j & -> & Hj)];
    [by split|].
  simpl. unfold setitem2. rewrite H0, H1, !index_in_range by done. simpl.
  split; [done|]. intros ? [= <-].
  destruct (shape_alter_insert nuclei_mask (Z.to_nat i) (Z.to_nat j) 1).
  split; congruence.
Qed.

Lemma mark_all_safe mask nuclei_list nuclei_mask :
  shape0 nuclei_mask = shape0 mask → shape1 nuclei_mask = shape1 mask →
  for_each (mark_nucleus mask) nuclei_list nuclei_mask ≠ raise IndexError
  ∧ for_each (mark_nucleus mask) nuclei_list nuclei_mask
    = for_each (mark_nucleus mask)
        (filter (λ n, ¬ out_of_bounds mask n) nuclei_list) nuclei_mask.
Proof.
  revert nuclei_mask.
  induction nuclei_list as [|n l IH]; intros nm H0 H1; [done|].
  destruct (mark_nucleus_safe mask nm n H0 H1) as (Hskip & Hsafe & Hshape).
  destruct (decide (out_of_bounds mask n)) as [Hout|Hin].
  - rewrite filter_cons_False by tauto. simpl. rewrite Hskip by done. simpl.
    by apply IH.
  - rewrite filter_cons_True by done. simpl.
    destruct (mark_nucleus mask nm n) as [e|nm'] eqn:E; simpl.
    + split; [|done]. intros [= ->]. done.
    + destruct (Hshape nm' eq_refl). by apply IH.
Qed.

Lemma mark_nucleus_skip mask nuclei_mask n :
  out_of_bounds mask n → mark_nucleus mask nuclei_mask n = ret nuclei_mask.
Proof.
  unfold mark_nucleus, out_of_bounds. intros [-> | [-> | [-> | ->]]]; simpl.
  - done.
  - by rewrite orb_true_r.
  - by rewrite orb_true_r.
  - by rewrite orb_true_r.
Qed.

Lemma out_of_bounds_binarize mask n :
  out_of_bounds (binarize mask) n ↔ out_of_bounds mask n.
Proof. unfold out_of_bounds. by rewrite shape0_binarize, shape1_binarize. Qed.

(** C9.  [detection_eval] never raises [IndexError], whatever the points
    and the mask.  A point whose row is below 0 or at least the height, or
    whose column is below 0 or at least the width, is skipped: its
    iteration leaves the nuclei mask as it is without indexing it, and the
    result of the function (recall, TP and FN) is the result on the list
    without such points. *)
Theorem detection_eval_skips_out_of_bounds (np_divide : Z → Z → pyfloat)
    (nuclei_list : list (pyfloat * pyfloat)) (mask : list (list Z))
    (total_pos : Z) :
  detection_eval np_divide nuclei_list mask total_pos ≠ raise IndexError
  ∧ (∀ nuclei_mask n,
       out_of_bounds mask n →
       mark_nucleus (binarize mask) nuclei_mask n = ret nuclei_mask)
  ∧ detection_eval np_divide nuclei_list mask total_pos
    = detection_eval np_divide
        (filter (λ n, ¬ out_of_bounds mask n) nuclei_list) mask total_pos.
Proof.
  destruct (mark_all_safe (binarize mask) nuclei_list
              (zeros_like2 (binarize mask))) as [Hsafe Heq];
    [apply shape0_zeros_like2|apply shape1_zeros_like2|].
  assert (filter (λ n, ¬ out_of_bounds (binarize mask) n) nuclei_list
          = filter (λ n, ¬ out_of_bounds mask n) nuclei_list) as Hf.
  { apply list_filter_iff. intros n. by rewrite out_of_bounds_binarize. }
  rewrite Hf in Heq. split; [|split].
  - unfold detection_eval.
    destruct (for_each _ nuclei_list _) as [e|nm]; simpl; [|done].
    intros [= ->]. done.
  - intros nm n Hn. apply mark_nucleus_skip. by apply out_of_bounds_binarize.
  - unfold detection_eval. by rewrite Heq.
Qed.

(** ** Rasterizer *)

Section RasterizerProperties.

Context (polygon2mask : Z * Z → polygon → list (list bool)).
Context (centroid : list (list bool) → pyfloat * pyfloat).
(** [inside cell r c]: the pixel at row [r] and column [c] lies strictly
    inside the polygon [cell]. *)
Context (inside : polygon → nat → nat → Prop).

(** What is assumed of [skimage.draw.polygon2mask]: it returns an array of
    the shape it is given, in which every pixel strictly inside the
    polygon is set. *)
Hypothesis polygon2mask_shape : ∀ shape cell,
  has_shape (Z.to_nat shape.1) (Z.to_nat shape.2) (polygon2mask shape cell).
Hypothesis polygon2mask_inside : ∀ shape cell r c,
  inside cell r c → Z.of_nat r < shape.1 → Z.of_nat c < shape.2 →
  get2 (polygon2mask shape cell) r c = Some true.

Lemma has_shape_shape {A} (h w : nat) (a : list (list A)) :
  has_shape h w a →
  shape0 a = Z.of_nat h ∧ (h ≠ 0%nat → shape1 a = Z.of_nat w).
Proof.
  intros [Hl Hr]. unfold shape0, shape1. split; [by rewrite Hl|].
  intros Hh. destruct a as [|row a]; [done|].
  apply Forall_cons in Hr as [Hr _]. simpl. by rewrite Hr.
Qed.

(** The raster of a cell on a label of shape h x w has shape h x w. *)
Lemma cell_mask_shape (h w : nat) (label : list (list Z)) cell :
  has_shape h w label →
  has_shape h w (polygon2mask (shape0 label, shape1 label) cell).
Proof using polygon2mask_shape.
  intros Hl. destruct (has_shape_shape _ _ _ Hl) as [H0 H1].
  destruct (polygon2mask_shape (shape0 label, shape1 label) cell)
    as [Hs1 Hs2].
  simpl in Hs1, Hs2. split; [lia|].
  destruct (decide (h = 0%nat)) as [->|Hh].
  - assert (polygon2mask (shape0 label, shape1 label) cell = []) as ->
      by (apply length_zero_iff_nil; lia).
    constructor.
  - eapply Forall_impl; [exact Hs2|]. intros row Hrow. simpl in Hrow.
    rewrite Hrow, H1 by done. lia.
Qed.

Lemma get2_maximum (label : list (list Z)) (cell_mask : list (list bool)) r c :
  get2 (maximum label cell_mask) r c =
    get2 label r c ≫= λ l, get2 cell_mask r c ≫= λ b,
      Some (Z.max l (Z.b2z b) `mod` 256).
Proof.
  unfold get2, maximum. rewrite lookup_zip_with.
  destruct (label !! r) as [lrow|]; simpl; [|done].
  destruct (cell_mask !! r) as [mrow|]; simpl.
  - rewrite lookup_zip_with. by destruct (lrow !! c).
  - by destruct (lrow !! c).
Qed.

Lemma has_shape_get2 {A} (h w : nat) (a : list (list A)) (r c : nat) :
  has_shape h w a → (r < h)%nat → (c < w)%nat → is_Some (get2 a r c).
Proof.
  intros [Hl Hr] Hrh Hcw. unfold get2.
  destruct (lookup_lt_is_Some_2 a r) as [row Hrow]; [lia|].
  rewrite Hrow. simpl. apply lookup_lt_is_Some_2.
  pose proof (Forall_lookup_1 _ _ _ _ Hr Hrow) as Hw. simpl in Hw. lia.
Qed.

Lemma binary_get2 (label : list (list Z)) r c v :
  binary label → get2 label r c = Some v → v = 0 ∨ v = 1.
Proof.
  intros Hb. unfold get2. destruct (label !! r) as [row|] eqn:Hr; [|done].
  simpl. intros Hc. pose proof (Forall_lookup_1 _ _ _ _ Hb Hr) as Hrow.
  exact (Forall_lookup_1 _ _ _ _ Hrow Hc).
Qed.

Lemma maximum_shape (h w : nat) label cell_mask :
  has_shape h w label → has_shape h w cell_mask →
  has_shape h w (maximum label cell_mask).
Proof.
  intros [Hl Hlr] [Hm Hmr]. unfold maximum. split.
  - rewrite length_zip_with. lia.
  - apply Forall_forall. intros row Hrow.
    apply elem_of_lookup_zip_with in Hrow as (i & lrow & mrow & -> & Hi & Hj).
    pose proof (Forall_lookup_1 _ _ _ _ Hlr Hi) as Hlw.
    pose proof (Forall_lookup_1 _ _ _ _ Hmr Hj) as Hmw.
    simpl in Hlw, Hmw. rewrite length_zip_with. lia.
Qed.

Lemma maximum_binary label cell_mask :
  binary label → binary (maximum label cell_mask).
Proof.
  intros Hb. unfold maximum. apply Forall_forall. intros row Hrow.
  apply elem_of_lookup_zip_with in Hrow as (i & lrow & mrow & -> & Hi & Hj).
  pose proof (Forall_lookup_1 _ _ _ _ Hb Hi) as Hrow.
  apply Forall_forall. intros v Hv.
  apply elem_of_lookup_zip_with in Hv as (j & l & b & -> & Hl & _).
  pose proof (Forall_lookup_1 _ _ _ _ Hrow Hl) as Hv. simpl in Hv.
  destruct Hv as [-> | ->], b; simpl; auto.
Qed.

(** One iteration of the loop over the polygons. *)
Lemma rasterize_cell_spec (h w : nat) label centroids cell :
  has_shape h w label → binary label →
  rasterize_cell polygon2mask centroid (label, centroids) cell
  = (let* c := cell_centroid polygon2mask centroid
                 (shape0 label, shape1 label) cell in
     ret (maximum label (polygon2mask (shape0 label, shape1 label) cell),
          centroids ++ [c]))
  ∧ has_shape h w (maximum label (polygon2mask (shape0 label, shape1 label) cell))
  ∧ binary (maximum label (polygon2mask (shape0 label, shape1 label) cell))
  ∧ (∀ r c, get2 label r c = Some 1 →
       get2 (maximum label (polygon2mask (shape0 label, shape1 label) cell))
         r c = Some 1)
  ∧ (∀ r c, inside cell r c → (r < h)%nat → (c < w)%nat →
       get2 (maximum label (polygon2mask (shape0 label, shape1 label) cell))
         r c = Some 1).
Proof using polygon2mask_shape polygon2mask_inside.
  intros Hl Hb.
  pose proof (cell_mask_shape h w label cell Hl) as Hm.
  split; [|split; [|split; [|split]]].
  - unfold rasterize_cell, cell_centroid.
    destruct (int_of_float _) as [e|c0]; simpl; [done|].
    by destruct (int_of_float _) as [e|c1].
  - by apply maximum_shape.
  - by apply maximum_binary.
  - intros r c Hrc. rewrite get2_maximum, Hrc. simpl.
    destruct (get2 (polygon2mask _ cell) r c) as [b|] eqn:Hmc.
    + simpl. by destruct b.
    + exfalso. unfold get2 in Hrc, Hmc.
      destruct (label !! r) as [lrow|] eqn:Hr; [|done]. simpl in Hrc.
      destruct Hl as [Hl Hlr], Hm as [Hm Hmr].
      destruct (lookup_lt_is_Some_2 (polygon2mask (shape0 label, shape1 label) cell) r)
        as [mrow Hmrow].
      { rewrite Hm, <-Hl. by eapply lookup_lt_Some. }
      rewrite Hmrow in Hmc. simpl in Hmc. apply lookup_ge_None in Hmc.
      pose proof (Forall_lookup_1 _ _ _ _ Hlr Hr) as Hlw.
      pose proof (Forall_lookup_1 _ _ _ _ Hmr Hmrow) as Hmw.
      simpl in Hlw, Hmw. apply lookup_lt_Some in Hrc. lia.
  - intros r c Hin Hr Hc. rewrite get2_maximum.
    destruct (has_shape_get2 h w label r c Hl Hr Hc) as [l Hlrc].
    rewrite Hlrc. simpl.
    destruct (has_shape_shape _ _ _ Hl) as [H0 H1].
    rewrite polygon2mask_inside; [|done|simpl; lia|simpl; rewrite H1; lia].
    simpl. destruct (binary_get2 _ _ _ _ Hb Hlrc) as [-> | ->]; done.
Qed.

Lemma has_shape_same_shape {A B} (h w : nat) (a : list (list A))
    (b : list (list B)) :
  has_shape h w a → has_shape h w b →
  shape0 b = shape0 a ∧ shape1 b = shape1 a.
Proof.
  intros [Ha Har] [Hb Hbr]. unfold shape0, shape1. split; [congruence|].
  destruct a as [|ra a], b as [|rb b]; simplify_eq/=; [done|].
  apply Forall_cons in Har as [-> _]. apply Forall_cons in Hbr as [-> _]. done.
Qed.

(** The loop over the polygons: the label is the running maximum of the
    rasters, and the centroids are collected in order; the loop raises
    exactly when a centroid does not convert to integers. *)
Lemma for_each_rasterize (h w : nat) verts label centroids :
  has_shape h w label → binary label →
  for_each (rasterize_cell polygon2mask centroid) verts (label, centroids)
  = (let* new := traverse (cell_centroid polygon2mask centroid
                             (shape0 label, shape1 label)) verts in
     ret (foldl (λ l cell,
                   maximum l (polygon2mask (shape0 label, shape1 label) cell))
            label verts,
          centroids ++ new)).
Proof using polygon2mask_shape polygon2mask_inside.
  revert label centroids.
  induction verts as [|cell verts IH]; intros label centroids Hl Hb.
  { simpl. by rewrite app_nil_r. }
  destruct (rasterize_cell_spec h w label centroids cell Hl Hb)
    as (Heq & Hl' & Hb' & _).
  cbn [for_each traverse foldl]. rewrite Heq.
  destruct (cell_centroid _ _ _ cell) as [e|c]; simpl; [done|].
  rewrite (IH _ _ Hl' Hb').
  destruct (has_shape_same_shape h w _ _ Hl Hl') as [-> ->].
  destruct (traverse _ verts) as [e|new]; simpl; [done|].
  by rewrite <-app_assoc.
Qed.

Lemma foldl_maximum_spec (h w : nat) verts label (shape : Z * Z) :
  has_shape h w label → binary label →
  shape = (shape0 label, shape1 label) →
  has_shape h w (foldl (λ l cell, maximum l (polygon2mask shape cell)) label verts)
  ∧ binary (foldl (λ l cell, maximum l (polygon2mask shape cell)) label verts)
  ∧ (∀ r c, get2 label r c = Some 1 →
       get2 (foldl (λ l cell, maximum l (polygon2mask shape cell)) label verts)
         r c = Some 1)
  ∧ (∀ cell r c, cell ∈ verts → inside cell r c → (r < h)%nat → (c < w)%nat →
       get2 (foldl (λ l cell, maximum l (polygon2mask shape cell)) label verts)
         r c = Some 1).
Proof using All.
  revert label. induction verts as [|cell verts IH]; intros label Hl Hb ->.
  { simpl. split; [done|]. split; [done|]. split; [done|].
    intros ? ? ? Hin. by apply elem_of_nil in Hin. }
  destruct (rasterize_cell_spec h w label [] cell Hl Hb)
    as (_ & Hl' & Hb' & Hmono & Hin).
  destruct (has_shape_same_shape h w _ _ Hl Hl') as [H0 H1].
  cbn [foldl].
  destruct (IH _ Hl' Hb') as (Hs & Hbin & Hm & Hi); [by rewrite H0, H1|].
  split; [done|]. split; [done|]. split.
  - intros r c Hrc. by apply Hm, Hmono.
  - intros cell' r c Hcell Hins Hr Hc.
    apply elem_of_cons in Hcell as [->|Hcell]; [|by eapply Hi].
    by apply Hm, Hin.
Qed.

End RasterizerProperties.

Lemma traverse_lookup {A B} (f : A → result B) (l : list A) (k : list B) :
  traverse f l = ret k →
  length k = length l
  ∧ ∀ i x, l !! i = Some x → ∃ y, k !! i = Some y ∧ f x = ret y.
Proof.
  revert k. induction l as [|x l IH]; intros k; simpl.
  { intros [= <-]. split; [done|]. intros i x Hi. done. }
  destruct (f x) as [e|y] eqn:Hy; simpl; [done|].
  destruct (traverse f l) as [e|ys]; simpl; [done|].
  intros [= <-]. destruct (IH ys eq_refl) as [Hlen Hlk].
  split; [simpl; by rewrite Hlen|].
  intros [|i] x' Hi; simpl in *; [|by apply Hlk].
  injection Hi as <-. eauto.
Qed.

Lemma has_shape_replicate {A} (h w : nat) (x : A) :
  has_shape h w (replicate h (replicate w x)).
Proof.
  split; [apply length_replicate|].
  apply Forall_replicate. apply length_replicate.
Qed.

Lemma binary_zeros (h w : nat) : binary (replicate h (replicate w 0)).
Proof. apply Forall_replicate, Forall_replicate. by left. Qed.

(** C5.  Assume of the rasterization primitive that it returns an array of
    the shape it is given in which every pixel strictly inside the polygon
    is set.  Then [annotation_to_label] returns whenever the centroid of
    every polygon converts to a pair of integers, and whenever it returns
    a mask and a centroid list: the mask has the height and width of the
    image and holds only the values 0 and 1; every pixel of the canvas
    strictly inside at least one input polygon is 1; and the centroid list
    has one integer pair per input polygon, the i-th pair being the
    integer centroid of the i-th polygon. *)
Theorem annotation_to_label_mask_and_centroids
    (polygon2mask : Z * Z → polygon → list (list bool))
    (centroid : list (list bool) → pyfloat * pyfloat)
    (inside : polygon → nat → nat → Prop)
    (verts_list : list polygon) (image : ndarray) (image_id : string)
    (region_id_list : list Z) :
  (∀ shape cell,
     has_shape (Z.to_nat shape.1) (Z.to_nat shape.2) (polygon2mask shape cell)) →
  (∀ shape cell r c,
     inside cell r c → Z.of_nat r < shape.1 → Z.of_nat c < shape.2 →
     get2 (polygon2mask shape cell) r c = Some true) →
  (∀ centroids,
     traverse (cell_centroid polygon2mask centroid (label_shape image))
       verts_list = ret centroids →
     ∃ label,
       annotation_to_label polygon2mask centroid verts_list image image_id
         region_id_list = ret (label, centroids))
  ∧ (∀ label centroids,
       annotation_to_label polygon2mask centroid verts_list image image_id
         region_id_list = ret (label, centroids) →
       has_shape (Z.to_nat (shape0 image)) (Z.to_nat (shape1 image)) label
       ∧ binary label
       ∧ (∀ cell r c,
            cell ∈ verts_list → inside cell r c →
            Z.of_nat r < shape0 image → Z.of_nat c < shape1 image →
            get2 label r c = Some 1)
       ∧ length centroids = length verts_list
       ∧ (∀ i cell,
            verts_list !! i = Some cell →
            ∃ c, centroids !! i = Some c
              ∧ cell_centroid polygon2mask centroid (label_shape image) cell
                = ret c)).
Proof.
  intros Hshape Hinside.
  pose proof (has_shape_replicate (Z.to_nat (shape0 image))
                (Z.to_nat (shape1 image)) 0) as Hl.
  pose proof (binary_zeros (Z.to_nat (shape0 image))
                (Z.to_nat (shape1 image))) as Hb.
  assert (annotation_to_label polygon2mask centroid verts_list image image_id
            region_id_list
          = (let* new := traverse (cell_centroid polygon2mask centroid
                                     (label_shape image)) verts_list in
             ret (foldl (λ l cell,
                           maximum l (polygon2mask (label_shape image) cell))
                    (replicate (Z.to_nat (shape0 image))
                       (replicate (Z.to_nat (shape1 image)) 0)) verts_list,
                  new))) as Hrun.
  { unfold annotation_to_label.
    by rewrite (for_each_rasterize polygon2mask centroid inside Hshape Hinside
                  _ _ verts_list _ [] Hl Hb). }
  rewrite Hrun. split.
  - intros centroids ->. simpl. eauto.
  - intros label centroids.
    destruct (traverse _ verts_list) as [e|new] eqn:Ht; simpl; [done|].
    intros [= <- <-].
    destruct (foldl_maximum_spec polygon2mask centroid inside Hshape Hinside
                _ _ verts_list _ (label_shape image) Hl Hb eq_refl)
      as (Hs & Hbin & _ & Hin).
    destruct (traverse_lookup _ _ _ Ht) as [Hlen Hlk].
    split; [done|]. split; [done|]. split; [|done].
    intros cell r c Hcell Hins Hr Hc. eapply Hin; eauto; lia.
Qed.

Lemma annotation_to_label_mask_and_centroids_witness :
  ∃ label centroids,
    annotation_to_label full_mask origin_centroid
      [ [ (Finite 0, Finite 0); (Finite 0, Finite 3); (Finite 3, Finite 0) ] ]
      sample_image "image" [1] = ret (label, centroids)
    ∧ binary label
    ∧ get2 label 1 1 = Some 1
    ∧ centroids = [(0, 0)].
Proof.
  destruct (annotation_to_label_mask_and_centroids full_mask origin_centroid
              (λ _ _ _, True)
              [ [ (Finite 0, Finite 0); (Finite 0, Finite 3); (Finite 3, Finite 0) ] ]
              sample_image "image" [1]) as [Hret Hprops].
  - intros shape cell. apply has_shape_replicate.
  - intros shape cell r c _ Hr Hc. unfold get2, full_mask.
    rewrite lookup_replicate_2 by lia. simpl.
    by rewrite lookup_replicate_2 by lia.
  - destruct (Hret [(0, 0)] eq_refl) as [label Hrun].
    exists label, [(0, 0)]. split; [exact Hrun|].
    destruct (Hprops _ _ Hrun) as (_ & Hbin & Hin & _).
    split; [exact Hbin|]. split; [|reflexivity].
    apply (Hin [ (Finite 0, Finite 0); (Finite 0, Finite 3); (Finite 3, Finite 0) ]);
      [by left|done|done|done].
Defined.

(** ** prepare_dataset *)

Lemma traverse_truediv {float} (float_is_zero : float → bool)
    (float_div : float → float → float) (s : float) (ratios : list float) :
  float_is_zero s = false →
  traverse (λ c, truediv float_is_zero float_div c s) ratios
  = ret ((λ c, float_div c s) <$> ratios).
Proof.
  intros Hs. induction ratios as [|c l IH]; [done|].
  simpl. unfold truediv at 1. rewrite Hs. simpl. by rewrite IH.
Qed.

(** C10, as stated, fails: with the dataset name 'synthetic' and the ratio
    string "0:0:0" the dataset is constructed, the three ratios sum to
    zero, and the normalisation raises [ZeroDivisionError]; no loader is
    returned. *)
Lemma synthetic_config_with_zero_ratios_raises :
  sample_prepare_dataset (sample_config "0:0:0" "synthetic")
  = ([Call_SyntheticDataset], raise ZeroDivisionError).
Proof. reflexivity. Qed.

(** C10, amended.  When [dataset_name] is not 'synthetic',
    [prepare_dataset] raises the [ValueError] before any collaborator is
    called.  When it is 'synthetic', that branch is not taken: the first
    thing the function does is construct the dataset; and if the dataset
    constructor and [num_image_channel] return, the ratio string splits
    at colons into strings that [float] accepts and whose sum is not
    zero, and [split_dataset], [ExtendedDataset] and the three
    [DataLoader] constructions return, then the function returns the
    three loaders and the dataset's channel count. *)
Theorem prepare_dataset_checks_dataset_name
    {dim float dataset loader : Type}
    (float_of_str : string → result float)
    (float_sum : list float → float)
    (float_is_zero : float → bool)
    (float_div : float → float → float)
    (SyntheticDataset : string → dim → result dataset)
    (num_image_channel : dataset → result Z)
    (split_dataset :
       dataset → list float → Z → result (dataset * dataset * dataset))
    (len : dataset → Z)
    (ExtendedDataset : dataset → Z → result dataset)
    (DataLoader : dataset → Z → bool → Z → result loader)
    (config : @config dim) :
  let run :=
    prepare_dataset float_of_str float_sum float_is_zero float_div
      SyntheticDataset num_image_channel split_dataset len ExtendedDataset
      DataLoader config in
  (dataset_name config ≠ "synthetic" →
     run = ([], raise (ValueError dataset_not_found)))
  ∧ (dataset_name config = "synthetic" →
       (∃ calls outcome, run = (Call_SyntheticDataset :: calls, outcome))
       ∧ ∀ data channels ratios train_set val_set test_set extended
           train_loader val_loader test_loader,
           SyntheticDataset (dataset_path config) (target_dim config)
             = ret data →
           num_image_channel data = ret channels →
           traverse float_of_str (split ":" (train_val_test_ratio config))
             = ret ratios →
           float_is_zero (float_sum ratios) = false →
           split_dataset data
             ((λ c, float_div c (float_sum ratios)) <$> ratios)
             (random_seed config) = ret (train_set, val_set, test_set) →
           ExtendedDataset train_set
             (Z.max (len train_set) (batch_size config * 5)) = ret extended →
           DataLoader extended (batch_size config) true (num_workers config)
             = ret train_loader →
           DataLoader val_set (len val_set) false (num_workers config)
             = ret val_loader →
           DataLoader test_set (len test_set) false (num_workers config)
             = ret test_loader →
           run = ([ Call_SyntheticDataset; Call_split_dataset;
                    Call_ExtendedDataset; Call_DataLoader; Call_DataLoader;
                    Call_DataLoader ],
                  ret (train_loader, val_loader, test_loader, channels))).
Proof.
  intros run. subst run. unfold prepare_dataset. split.
  - intros Hname. by rewrite decide_False.
  - intros Hname. rewrite decide_True by done. split.
    + unfold tcall. cbn [tbind].
      destruct (SyntheticDataset _ _) as [e|data]; [by eexists _, _|].
      match goal with
      | |- ∃ calls outcome, (let '(t', r) := ?k in _) = _ =>
          destruct k as [t' r] eqn:Hk
      end.
      by eexists _, _.
    + intros data channels ratios train_set val_set test_set extended
        train_loader val_loader test_loader
        Hdata Hch Hratios Hsum Hsplit Hext Hl1 Hl2 Hl3.
      unfold tcall, tbind. rewrite Hdata. unfold ret at 1.
      rewrite Hch. unfold ret at 1. rewrite Hratios. unfold ret at 1.
      rewrite traverse_truediv by done. unfold ret at 1.
      rewrite Hsplit. unfold ret at 1. rewrite Hext. unfold ret at 1.
      rewrite Hl1. unfold ret at 1. rewrite Hl2. unfold ret at 1.
      rewrite Hl3. reflexivity.
Qed.

Lemma prepare_dataset_checks_dataset_name_witness :
  sample_prepare_dataset (sample_config "6:2:2" "monuseg")
    = ([], raise (ValueError dataset_not_found))
  ∧ sample_prepare_dataset (sample_config "6:2:2" "synthetic")
    = ([ Call_SyntheticDataset; Call_split_dataset; Call_ExtendedDataset;
         Call_DataLoader; Call_DataLoader; Call_DataLoader ],
       ret ("shuffled", "ordered", "ordered", 3)).
Proof.
  split.
  - apply (prepare_dataset_checks_dataset_name digits_float Qsum (Qeq_bool 0)
             Qdiv (λ _ _, ret tt) (λ _, ret 3) (λ _ _ _, ret (tt, tt, tt))
             (λ _, 10) (λ d _, ret d)
             (λ _ _ (shuffle : bool) _,
                ret (if shuffle then "shuffled" else "ordered"))
             (sample_config "6:2:2" "monuseg")).
    discriminate.
  - eapply (prepare_dataset_checks_dataset_name digits_float Qsum (Qeq_bool 0)
              Qdiv (λ _ _, ret tt) (λ _, ret 3) (λ _ _ _, ret (tt, tt, tt))
              (λ _, 10) (λ d _, ret d)
              (λ _ _ (shuffle : bool) _,
                 ret (if shuffle then "shuffled" else "ordered"))
              (sample_config "6:2:2" "synthetic")); reflexivity.
Defined.

(** ** Runs on a file system *)

Lemma file_system_eq (a b : file_system) :
  dirs a = dirs b → files a = files b → a = b.
Proof. destruct a, b. simpl. by intros -> ->. Qed.

Lemma exec_app l1 l2 fs : exec (l1 ++ l2) fs = exec l2 (exec l1 fs).
Proof. unfold exec. apply foldl_app. Qed.

Lemma prepared_weaken seen seen' l :
  seen ⊆ seen' → prepared seen l → prepared seen' l.
Proof.
  revert seen seen'. induction l as [|[d|f img] l IH]; intros s s' Hs; simpl.
  - done.
  - apply IH. by apply list_subseteq_skip.
  - intros [Hf Hl]. split; [by apply Hs|by eapply IH].
Qed.

Lemma prepared_app seen l1 l2 :
  prepared seen l1 → prepared seen l2 → prepared seen (l1 ++ l2).
Proof.
  revert seen. induction l1 as [|[d|f img] l1 IH]; intros s; simpl.
  - done.
  - intros H1 H2. apply IH; [done|].
    eapply prepared_weaken; [|done]. intros x Hx. by right.
  - intros [Hf H1] H2. split; [done|by apply IH].
Qed.

Lemma prepared_bind {X} (g : X → list event) (xs : list X) :
  (∀ x, prepared [] (g x)) → prepared [] (xs ≫= g).
Proof.
  intros H. induction xs as [|x xs IH]; [done|].
  rewrite bind_cons. by apply prepared_app.
Qed.

Lemma made_makedirs d l :
  made (Makedirs d :: l)
  = list_to_set (ancestors (S (String.length d)) d) ∪ made l.
Proof. reflexivity. Qed.

Lemma made_imwrite f img l : made (Imwrite f img :: l) = made l.
Proof. unfold made. rewrite fmap_cons, union_list_cons. apply (left_id_L ∅ (∪)). Qed.

(** A prepared log makes its directories and stores all its images. *)
Lemma exec_prepared seen l fs :
  prepared seen l → (∀ d, d ∈ seen → d ∈ dirs fs) →
  dirs (exec l fs) = dirs fs ∪ made l
  ∧ files (exec l fs) = store (imwrites l) (files fs).
Proof.
  revert seen fs. induction l as [|[d|f img] l IH]; intros seen fs Hp Hs.
  - unfold made. simpl. split; [by rewrite (right_id_L ∅ (∪))|done].
  - simpl in Hp. destruct (IH (d :: seen) (makedirs d fs) Hp) as [Hd Hf].
    { intros d' Hd'. unfold makedirs. cbn [dirs].
      apply elem_of_cons in Hd' as [->|Hd'].
      - apply elem_of_union_r, elem_of_list_to_set. cbn [ancestors].
        apply list_elem_of_here.
      - apply elem_of_union_l. by apply Hs. }
    change (exec (Makedirs d :: l) fs) with (exec l (makedirs d fs)).
    rewrite Hd, Hf. split; [|done].
    rewrite made_makedirs. unfold makedirs. cbn [dirs].
    by rewrite (assoc_L (∪)).
  - simpl in Hp. destruct Hp as [Hin Hp].
    change (exec (Imwrite f img :: l) fs) with (exec l (imwrite f img fs)).
    unfold imwrite. rewrite decide_True by by apply Hs.
    destruct (IH seen {| dirs := dirs fs; files := <[f:=img]> (files fs) |} Hp)
      as [Hd Hf]; [done|].
    rewrite Hd, Hf. split; [|done].
    by rewrite made_imwrite.
Qed.

(** A log of writes keeps the directories and stores the images whose
    directory exists. *)
Lemma exec_only_writes l fs :
  only_writes l →
  dirs (exec l fs) = dirs fs
  ∧ files (exec l fs)
    = store (filter (λ e, dirname e.1 ∈ dirs fs) (imwrites l)) (files fs).
Proof.
  intros Hl. revert fs. induction Hl as [|[d|f img] l He _ IH]; intros fs.
  - done.
  - done.
  - change (exec (Imwrite f img :: l) fs) with (exec l (imwrite f img fs)).
    change (imwrites (Imwrite f img :: l)) with ((f, img) :: imwrites l).
    unfold imwrite. destruct (decide (dirname f ∈ dirs fs)) as [Hd|Hd].
    + destruct (IH {| dirs := dirs fs; files := <[f:=img]> (files fs) |})
        as [Hdirs Hfiles].
      rewrite Hdirs, Hfiles. by rewrite filter_cons_True.
    + destruct (IH fs) as [Hdirs Hfiles].
      rewrite Hdirs, Hfiles. by rewrite filter_cons_False.
Qed.

Lemma store_app l1 l2 m : store (l1 ++ l2) m = store l2 (store l1 m).
Proof. unfold store. apply foldl_app. Qed.

Lemma store_union l m : store l m = list_to_map (reverse l) ∪ m.
Proof.
  revert m. induction l as [|[f img] l IH]; intros m.
  - simpl. by rewrite (left_id_L ∅ (∪)).
  - change (store ((f, img) :: l) m) with (store l (<[f:=img]> m)).
    rewrite IH, reverse_cons, list_to_map_app. simpl.
    rewrite insert_empty, <-(assoc_L (∪)). f_equal.
    by rewrite insert_union_singleton_l.
Qed.

Lemma store_idemp l m : store l (store l m) = store l m.
Proof. by rewrite !store_union, (assoc_L (∪)), (idemp_L (∪)). Qed.

(** Running twice a log made of a prepared part followed by writes leaves
    the file system as running it once. *)
Lemma exec_idemp body tail fs :
  prepared [] body → only_writes tail →
  exec (body ++ tail) (exec (body ++ tail) fs) = exec (body ++ tail) fs.
Proof.
  intros Hb Ht. rewrite !exec_app.
  destruct (exec_prepared [] body fs Hb) as [Hd1 Hf1];
    [by intros ? ?%elem_of_nil|].
  destruct (exec_only_writes tail (exec body fs) Ht) as [Hd2 Hf2].
  destruct (exec_prepared [] body (exec tail (exec body fs)) Hb)
    as [Hd3 Hf3]; [by intros ? ?%elem_of_nil|].
  destruct (exec_only_writes tail (exec body (exec tail (exec body fs))) Ht)
    as [Hd4 Hf4].
  assert (dirs (exec body (exec tail (exec body fs))) = dirs (exec body fs))
    as Hsame.
  { rewrite Hd3, Hd2, Hd1. by rewrite <-(assoc_L (∪)), (idemp_L (∪)). }
  apply file_system_eq.
  - by rewrite Hd4, Hsame, Hd2.
  - rewrite Hf4, Hsame, Hf3, Hf2, Hf1.
    set (W1 := imwrites body).
    set (W2 := filter (λ e, dirname e.1 ∈ dirs (exec body fs)) (imwrites tail)).
    rewrite <-(store_app W1 W2 (files fs)).
    rewrite <-(store_app W1 W2). apply store_idemp.
Qed.

(** With the same directories to start from, a run leaves every file
    either with the same content, whatever was stored before, or as it
    was. *)
Lemma exec_frame body tail fs1 fs2 :
  prepared [] body → only_writes tail → dirs fs1 = dirs fs2 →
  dirs (exec (body ++ tail) fs1) = dirs (exec (body ++ tail) fs2)
  ∧ ∀ f,
      files (exec (body ++ tail) fs1) !! f = files (exec (body ++ tail) fs2) !! f
      ∨ (files (exec (body ++ tail) fs1) !! f = files fs1 !! f
         ∧ files (exec (body ++ tail) fs2) !! f = files fs2 !! f).
Proof.
  intros Hb Ht Hdirs. rewrite !exec_app.
  destruct (exec_prepared [] body fs1 Hb) as [Hd1 Hf1];
    [by intros ? ?%elem_of_nil|].
  destruct (exec_prepared [] body fs2 Hb) as [Hd2 Hf2];
    [by intros ? ?%elem_of_nil|].
  destruct (exec_only_writes tail (exec body fs1) Ht) as [Hd3 Hf3].
  destruct (exec_only_writes tail (exec body fs2) Ht) as [Hd4 Hf4].
  assert (dirs (exec body fs1) = dirs (exec body fs2)) as Hsame
    by (by rewrite Hd1, Hd2, Hdirs).
  split; [by rewrite Hd3, Hd4|]. intros f.
  rewrite Hf3, Hf4, Hf1, Hf2, Hsame.
  set (W1 := imwrites body).
  set (W2 := filter (λ e, dirname e.1 ∈ dirs (exec body fs2)) (imwrites tail)).
  rewrite <-!(store_app W1 W2), !store_union.
  destruct ((list_to_map (reverse (W1 ++ W2)) : gmap string ndarray) !! f)
    as [v|] eqn:Hv.
  - left. by rewrite !(lookup_union_Some_l _ _ _ _ Hv).
  - right. by rewrite !lookup_union_r.
Qed.

Lemma patchify_tile_prepared imsize target_folder cancer_type subset item
    image mask image_h image_w h_chunk w_chunk seen :
  prepared seen (patchify_tile imsize target_folder cancer_type subset item
                   image mask image_h image_w h_chunk w_chunk).
Proof.
  unfold patchify_tile. simpl. split; [|split; [|done]].
  - apply list_elem_of_further, list_elem_of_here.
  - apply list_elem_of_here.
Qed.

Lemma tile_events_prepared imsize target_folder cancer_type test_item_count
    test_item image mask target_count h_chunk w_chunk number seen :
  prepared seen (tile_events imsize target_folder cancer_type test_item_count
                   test_item image mask target_count h_chunk w_chunk number).
Proof.
  unfold tile_events, evidence_events, heldout_events.
  destruct (decide (number < target_count)); simpl.
  - split; [apply list_elem_of_further, list_elem_of_here|].
    split; [apply list_elem_of_here|].
    split; [apply list_elem_of_further, list_elem_of_here|].
    split; [apply list_elem_of_here|done].
  - split; [apply list_elem_of_further, list_elem_of_here|].
    split; [apply list_elem_of_here|done].
Qed.

Lemma effective_events_only_writes target_folder cancer_type test_item_count
    test_item image_effective mask_effective :
  only_writes (effective_events target_folder cancer_type test_item_count
                 test_item image_effective mask_effective).
Proof. unfold effective_events. by repeat constructor. Qed.

Lemma fmap_bind_list {X Y Z'} (f : Y → Z') (g : X → list Y) (xs : list X) :
  f <$> (xs ≫= g) = xs ≫= λ x, f <$> g x.
Proof.
  induction xs as [|x xs IH]; [done|]. by rewrite !bind_cons, fmap_app, IH.
Qed.

(** The paths a tile is written to do not depend on the pixels. *)
Lemma tile_events_paths imsize target_folder cancer_type test_item_count
    test_item image mask image' mask' target_count h_chunk w_chunk number :
  (imwrites (tile_events imsize target_folder cancer_type test_item_count
               test_item image mask target_count h_chunk w_chunk number)).*1
  = (imwrites (tile_events imsize target_folder cancer_type test_item_count
                 test_item image' mask' target_count h_chunk w_chunk
                 number)).*1.
Proof.
  rewrite !imwrites_tile_events. cbv zeta.
  by destruct (decide (number < target_count)).
Qed.

(** C8.  The partitioner and the tiler are functions of the image, the
    mask and the parameters: a second run on the same inputs makes the
    same file-system calls with the same paths and the same pixel content,
    and ends with the same effective canvases; the paths written, and with
    them the partition every tile is assigned to, depend on the shape of
    the image only, not on its pixels.  On the file system a run
    is idempotent (running it again over its own output changes nothing),
    and what it leaves in a file does not depend on what the output tree
    held before: started from two file systems with the same directories,
    it leaves each file with the same content in both, or untouched in
    both. *)
Theorem tiler_and_partitioner_deterministic
    (imsize percentage : Z) (target_folder cancer_type subset : string)
    (test_item_count : Z) (test_item : string) (image mask : ndarray) :
  0 < imsize → rectangular image → rectangular mask →
  shape0 mask = shape0 image → shape1 mask = shape1 image →
  (∃ st,
     intraimage_item imsize percentage target_folder cancer_type
       test_item_count test_item image mask = ret st
     ∧ (∀ image' mask',
          image' = image → mask' = mask →
          intraimage_item imsize percentage target_folder cancer_type
            test_item_count test_item image' mask' = ret st)
     ∧ (∀ image' mask' st',
          rectangular image' → rectangular mask' →
          shape0 image' = shape0 image → shape1 image' = shape1 image →
          shape0 mask' = shape0 image → shape1 mask' = shape1 image →
          intraimage_item imsize percentage target_folder cancer_type
            test_item_count test_item image' mask' = ret st' →
          (imwrites (log st')).*1 = (imwrites (log st)).*1)
     ∧ (∀ fs, exec (log st) (exec (log st) fs) = exec (log st) fs)
     ∧ (∀ fs1 fs2,
          dirs fs1 = dirs fs2 →
          dirs (exec (log st) fs1) = dirs (exec (log st) fs2)
          ∧ ∀ f,
              files (exec (log st) fs1) !! f = files (exec (log st) fs2) !! f
              ∨ (files (exec (log st) fs1) !! f = files fs1 !! f
                 ∧ files (exec (log st) fs2) !! f = files fs2 !! f)))
  ∧ (∃ events,
       patchify_item imsize target_folder cancer_type subset test_item
         image mask = ret events
       ∧ (∀ image' mask',
            image' = image → mask' = mask →
            patchify_item imsize target_folder cancer_type subset test_item
              image' mask' = ret events)
       ∧ (∀ fs, exec events (exec events fs) = exec events fs)
       ∧ (∀ fs1 fs2,
            dirs fs1 = dirs fs2 →
            dirs (exec events fs1) = dirs (exec events fs2)
            ∧ ∀ f,
                files (exec events fs1) !! f = files (exec events fs2) !! f
                ∨ (files (exec events fs1) !! f = files fs1 !! f
                   ∧ files (exec events fs2) !! f = files fs2 !! f))).
Proof.
  intros Hs Hi Hm Hm0 Hm1. split.
  - destruct (intraimage_item_spec imsize percentage target_folder
                cancer_type test_item_count test_item image mask
                Hs Hi Hm Hm0 Hm1) as (st & Hrun & _ & Hl & _).
    exists st. split; [done|]. split; [by intros ? ? -> ->|]. split.
    { intros image' mask' st' Hi' Hm' H0 H1 H2 H3 Hrun'.
      destruct (intraimage_item_spec imsize percentage target_folder
                  cancer_type test_item_count test_item image' mask'
                  Hs Hi' Hm' ltac:(congruence) ltac:(congruence))
        as (st'' & Hrun'' & _ & Hl' & _).
      rewrite Hrun' in Hrun''. injection Hrun'' as <-.
      rewrite Hl, Hl', H0, H1.
      rewrite !imwrites_app, !fmap_app, !imwrites_bind, !fmap_bind_list.
      f_equal. apply bind_ext_in. intros k _. apply tile_events_paths. }
    rewrite Hl. split.
    + intros fs. apply exec_idemp.
      * apply prepared_bind. intros k. apply tile_events_prepared.
      * apply effective_events_only_writes.
    + intros fs1 fs2 Hd. apply exec_frame; [|apply effective_events_only_writes|done].
      apply prepared_bind. intros k. apply tile_events_prepared.
  - eexists. split; [apply patchify_item_log; lia|].
    split; [intros ? ? -> ->; apply patchify_item_log; lia|].
    assert (prepared []
      (range (shape0 image `div` imsize) ≫= λ h_chunk,
       range (shape1 image `div` imsize) ≫= λ w_chunk,
       patchify_tile imsize target_folder cancer_type subset test_item image
         mask (shape0 image) (shape1 image) h_chunk w_chunk)) as Hp.
    { apply prepared_bind. intros h. apply prepared_bind. intros w.
      apply patchify_tile_prepared. }
    split.
    + intros fs. rewrite <-(app_nil_r (_ ≫= _)).
      apply exec_idemp; [exact Hp|constructor].
    + intros fs1 fs2 Hd. rewrite <-(app_nil_r (_ ≫= _)).
      apply exec_frame; [exact Hp|constructor|exact Hd].
Qed.

Lemma tiler_and_partitioner_deterministic_witness :
  (∃ st,
     intraimage_item 2 50 "out" "breast" 0 "item" sample_image sample_mask
       = ret st
     ∧ exec (log st) (exec (log st) empty_fs) = exec (log st) empty_fs
     ∧ files (exec (log st) empty_fs) !! "out/breast/img0_test/images/item_H0W0.png"
       = Some [ [ [0;0;0]; [0;0;0] ]; [ [0;0;0]; [0;0;0] ] ])
  ∧ (∃ events,
       patchify_item 2 "out" "breast" "test" "item" sample_image sample_mask
         = ret events
       ∧ exec events (exec events empty_fs) = exec events empty_fs).
Proof.
  destruct (tiler_and_partitioner_deterministic 2 50 "out" "breast" "test" 0
              "item" sample_image sample_mask)
    as [(st & Hrun & _ & _ & Hidem & _) (events & Hev & _ & Hidem' & _)];
    [lia | apply sample_image_rectangular | apply sample_mask_rectangular
    | reflexivity | reflexivity |].
  split.
  - exists st. split; [exact Hrun|]. split; [apply Hidem|].
    vm_compute in Hrun. injection Hrun as <-. by vm_compute.
  - exists events. split; [exact Hev|apply Hidem'].
Defined.

(* ================================================================== *)
(** * Part IV: further properties of the scripts *)
(* ================================================================== *)

(** ** Annotation parser, continued *)

Lemma length_filter_split {A} (P : A → Prop) `{∀ x, Decision (P x)}
    (l : list A) :
  (length (filter P l) + length (filter (λ x, ¬ P x) l))%nat = length l.
Proof.
  induction l as [|x l IH]; [done|].
  destruct (decide (P x)).
  - rewrite filter_cons_True, (filter_cons_False (λ x, ¬ P x)) by tauto.
    simpl. lia.
  - rewrite filter_cons_False, (filter_cons_True (λ x, ¬ P x)) by tauto.
    simpl. lia.
Qed.

(** X1.  The parser accounts for every region of the document: the two
    lists it returns have the same length, the regions returned and the
    regions counted as invalid add up to the regions read, and the line it
    prints reports the number of regions read and, as invalid, the number
    of those not returned. *)
Theorem load_MoNuSeg_annotation_accounts_for_every_region
    (regions : list region) :
  let verts_list := (load_MoNuSeg_annotation regions).2.1 in
  let region_id_list := (load_MoNuSeg_annotation regions).2.2 in
  length verts_list = length region_id_list
  ∧ Z.of_nat (length verts_list) + cnt_invalid (load_regions regions)
    = Z.of_nat (length regions)
  ∧ (load_MoNuSeg_annotation regions).1
    = "Total polygons: " +:+ str (Z.of_nat (length regions))
        +:+ ", Invalid polygons: "
        +:+ str (Z.of_nat (length regions) - Z.of_nat (length verts_list)).
Proof.
  unfold load_MoNuSeg_annotation. cbn [fst snd].
  rewrite load_regions_spec. cbn [verts_list region_id_list cnt_invalid].
  rewrite !length_fmap.
  pose proof (length_filter_split rejected regions) as Hlen.
  split; [done|]. split; [lia|].
  do 4 f_equal. lia.
Qed.

(** X2.  Every vertex array the parser returns has at least three rows:
    the rasterizer is never handed a point or a segment. *)
Theorem load_MoNuSeg_annotation_polygons_have_three_vertices
    (regions : list region) :
  Forall (λ verts : polygon, (3 ≤ length verts)%nat)
    (load_MoNuSeg_annotation regions).2.1.
Proof.
  unfold load_MoNuSeg_annotation. cbn [fst snd].
  rewrite load_regions_spec. cbn [verts_list].
  apply Forall_fmap, Forall_forall. intros r Hr.
  apply list_elem_of_filter in Hr as [Hr _]. simpl.
  unfold verts_of. rewrite length_fmap. unfold rejected in Hr.
  destruct (decide (length (Vertices r) < 3)%nat); [|lia].
  destruct Hr. by right.
Qed.

(** X3.  A region whose [Area] attribute reads as [nan] or [inf] passes
    the area check ([nan < 1.0] is false): with three vertices or more it
    is returned, whatever else the document holds. *)
Theorem load_MoNuSeg_annotation_keeps_nan_area
    (regions : list region) (r : region) :
  r ∈ regions →
  Area r = NaN ∨ Area r = PosInf →
  (3 ≤ length (Vertices r))%nat →
  verts_of r ∈ (load_MoNuSeg_annotation regions).2.1
  ∧ Id r ∈ (load_MoNuSeg_annotation regions).2.2.
Proof.
  intros Hr Ha Hv. unfold load_MoNuSeg_annotation. cbn [fst snd].
  rewrite load_regions_spec. cbn [verts_list region_id_list].
  assert (r ∈ filter (λ r, ¬ rejected r) regions) as Hin.
  { apply list_elem_of_filter. split; [|done].
    unfold rejected. intros [Hlt|Hlen]; [|lia].
    by destruct Ha as [Ha|Ha]; rewrite Ha in Hlt. }
  split; by apply list_elem_of_fmap_2.
Qed.

Lemma load_MoNuSeg_annotation_keeps_nan_area_witness :
  [ (NaN, NaN); (NaN, NaN); (NaN, NaN) ]
    ∈ (load_MoNuSeg_annotation
         [ {| Area := NaN; Id := 3;
              Vertices := replicate 3 {| X := NaN; Y := NaN |} |} ]).2.1.
Proof.
  apply (load_MoNuSeg_annotation_keeps_nan_area
           [ {| Area := NaN; Id := 3;
                Vertices := replicate 3 {| X := NaN; Y := NaN |} |} ]
           {| Area := NaN; Id := 3;
              Vertices := replicate 3 {| X := NaN; Y := NaN |} |}).
  - by left.
  - by left.
  - simpl. lia.
Defined.

(** X4.  Regions are judged one by one: parsing two documents' regions
    one after the other returns the concatenation of what parsing each
    returns, and the invalid counts add up. *)
Theorem load_MoNuSeg_annotation_app (regions1 regions2 : list region) :
  (load_MoNuSeg_annotation (regions1 ++ regions2)).2
  = ((load_MoNuSeg_annotation regions1).2.1
       ++ (load_MoNuSeg_annotation regions2).2.1,
     (load_MoNuSeg_annotation regions1).2.2
       ++ (load_MoNuSeg_annotation regions2).2.2)
  ∧ cnt_invalid (load_regions (regions1 ++ regions2))
    = cnt_invalid (load_regions regions1) + cnt_invalid (load_regions regions2).
Proof.
  unfold load_MoNuSeg_annotation. cbn [fst snd].
  rewrite !load_regions_spec. cbn [verts_list region_id_list cnt_invalid].
  rewrite !filter_app, !fmap_app, length_app. split; [done|lia].
Qed.

(** ** Rasterizer, continued *)

Lemma cell_centroid_error polygon2mask centroid shape cell :
  match centroid_error (centroid (polygon2mask shape cell)) with
  | Some e => cell_centroid polygon2mask centroid shape cell = raise e
  | None => ∃ c, cell_centroid polygon2mask centroid shape cell = ret c
  end.
Proof.
  unfold cell_centroid, centroid_error.
  destruct (centroid (polygon2mask shape cell)) as [[a| | |] [b| | |]];
    simpl; eauto.
Qed.

Lemma traverse_first_error {A B} (f : A → result B) (l : list A) i x e :
  l !! i = Some x → f x = raise e →
  (∀ j y, (j < i)%nat → l !! j = Some y → ∃ z, f y = ret z) →
  traverse f l = raise e.
Proof.
  revert i. induction l as [|a l IH]; intros [|i] Hi He Hbefore;
    simplify_eq/=.
  - by rewrite He.
  - destruct (Hbefore 0%nat a ltac:(lia) eq_refl) as [z ->]. simpl.
    rewrite (IH i); [done..|].
    intros j y Hj Hy. apply (Hbefore (S j) y); [lia|done].
Qed.

Lemma traverse_all_ret {A B} (f : A → result B) (l : list A) :
  Forall (λ x, ∃ y, f x = ret y) l ↔ ∃ k, traverse f l = ret k.
Proof.
  induction l as [|a l IH]; simpl.
  - split; [by eexists|constructor].
  - rewrite Forall_cons, IH. split.
    + intros [[y ->] [k ->]]. simpl. by eexists.
    + destruct (f a) as [e|y]; simpl; [by intros [? ?]|].
      destruct (traverse f l) as [e|k]; simpl; [by intros [? ?]|].
      intros _. split; by eexists.
Qed.

(** The function as a whole, for a rasterization primitive that returns
    arrays of the shape it is given. *)
Lemma annotation_to_label_run polygon2mask centroid verts_list image image_id
    region_id_list :
  (∀ shape cell,
     has_shape (Z.to_nat shape.1) (Z.to_nat shape.2) (polygon2mask shape cell)) →
  annotation_to_label polygon2mask centroid verts_list image image_id
    region_id_list
  = (let* new := traverse (cell_centroid polygon2mask centroid
                             (label_shape image)) verts_list in
     ret (foldl (λ l cell, maximum l (polygon2mask (label_shape image) cell))
            (replicate (Z.to_nat (shape0 image))
               (replicate (Z.to_nat (shape1 image)) 0)) verts_list,
          new)).
Proof.
  intros Hshape. unfold annotation_to_label.
  by rewrite (for_each_rasterize polygon2mask centroid (λ _ _ _, False)
                Hshape ltac:(done) _ _ verts_list _ []
                (has_shape_replicate _ _ 0) (binary_zeros _ _)).
Qed.

(** X5.  For a rasterization primitive that returns arrays of the shape
    it is given, [annotation_to_label] returns exactly when the centroid
    of every polygon has two finite coordinates.  Otherwise it raises at
    the first polygon whose centroid has not: [ValueError] when the first
    offending coordinate (row before column) is [nan], as for a raster
    without pixels, and [OverflowError] when it is infinite; no mask is
    returned, not even for the polygons before. *)
Theorem annotation_to_label_raises_at_first_bad_centroid
    (polygon2mask : Z * Z → polygon → list (list bool))
    (centroid : list (list bool) → pyfloat * pyfloat)
    (verts_list : list polygon) (image : ndarray) (image_id : string)
    (region_id_list : list Z) :
  (∀ shape cell,
     has_shape (Z.to_nat shape.1) (Z.to_nat shape.2) (polygon2mask shape cell)) →
  let error cell :=
    centroid_error (centroid (polygon2mask (label_shape image) cell)) in
  ((∃ out, annotation_to_label polygon2mask centroid verts_list image image_id
             region_id_list = ret out)
   ↔ Forall (λ cell, error cell = None) verts_list)
  ∧ ∀ i cell e,
      verts_list !! i = Some cell → error cell = Some e →
      (∀ j cell', (j < i)%nat → verts_list !! j = Some cell' →
                  error cell' = None) →
      annotation_to_label polygon2mask centroid verts_list image image_id
        region_id_list = raise e.
Proof.
  intros Hshape error. rewrite annotation_to_label_run by done. split.
  - transitivity (∃ k, traverse (cell_centroid polygon2mask centroid
                                   (label_shape image)) verts_list = ret k).
    + split.
      * intros [out Hout].
        destruct (traverse _ verts_list) as [e|k]; [done|by eexists].
      * intros [k ->]. simpl. by eexists.
    + rewrite <-traverse_all_ret. apply Forall_iff. intros cell.
      pose proof (cell_centroid_error polygon2mask centroid
                    (label_shape image) cell) as H.
      unfold error. destruct (centroid_error _) as [e|].
      * rewrite H. split; [by intros [? ?]|done].
      * split; [done|]. intros _. exact H.
  - intros i cell e Hi He Hbefore.
    rewrite (traverse_first_error _ _ i cell e); [done|done| |].
    + pose proof (cell_centroid_error polygon2mask centroid
                    (label_shape image) cell) as H.
      unfold error in He. by rewrite He in H.
    + intros j cell' Hj Hcell'.
      pose proof (cell_centroid_error polygon2mask centroid
                    (label_shape image) cell') as H.
      specialize (Hbefore j cell' Hj Hcell'). unfold error in Hbefore.
      by rewrite Hbefore in H.
Qed.

Lemma annotation_to_label_raises_at_first_bad_centroid_witness :
  annotation_to_label full_mask nan_centroid [sample_triangle] sample_image
    "image" [1]
  = raise (ValueError "cannot convert float NaN to integer").
Proof.
  destruct (annotation_to_label_raises_at_first_bad_centroid full_mask
              nan_centroid [sample_triangle] sample_image "image" [1])
    as [_ Hraise].
  - intros shape cell. apply has_shape_replicate.
  - apply (Hraise 0%nat sample_triangle); [reflexivity|reflexivity|].
    intros j cell' Hj. lia.
Defined.

Lemma has_shape_ext {A} (h w : nat) (a b : list (list A)) :
  has_shape h w a → has_shape h w b →
  (∀ r c, (r < h)%nat → (c < w)%nat → get2 a r c = get2 b r c) →
  a = b.
Proof.
  intros [Ha Har] [Hb Hbr] Hget. apply list_eq. intros r.
  destruct (decide (r < h)%nat) as [Hr|Hr].
  - destruct (lookup_lt_is_Some_2 a r) as [ra Hra]; [lia|].
    destruct (lookup_lt_is_Some_2 b r) as [rb Hrb]; [lia|].
    rewrite Hra, Hrb. f_equal.
    pose proof (Forall_lookup_1 _ _ _ _ Har Hra) as Hla.
    pose proof (Forall_lookup_1 _ _ _ _ Hbr Hrb) as Hlb.
    simpl in Hla, Hlb. apply list_eq. intros c.
    destruct (decide (c < w)%nat) as [Hc|Hc].
    + specialize (Hget r c Hr Hc). unfold get2 in Hget.
      by rewrite Hra, Hrb in Hget.
    + rewrite !lookup_ge_None_2 by lia. done.
  - rewrite !lookup_ge_None_2 by lia. done.
Qed.

(** The running maximum, pixel by pixel: a pixel is 1 when it was 1 or
    the raster of one of the polygons is set there, and 0 otherwise. *)
Lemma foldl_maximum_get2 (polygon2mask : Z * Z → polygon → list (list bool))
    (shape : Z * Z) (h w : nat) verts label r c :
  (∀ cell, has_shape h w (polygon2mask shape cell)) →
  has_shape h w label → binary label → (r < h)%nat → (c < w)%nat →
  has_shape h w
    (foldl (λ l cell, maximum l (polygon2mask shape cell)) label verts)
  ∧ get2 (foldl (λ l cell, maximum l (polygon2mask shape cell)) label verts)
      r c
    = Some (if decide (get2 label r c = Some 1
                       ∨ Exists (λ cell, get2 (polygon2mask shape cell) r c
                                         = Some true) verts)
            then 1 else 0).
Proof.
  intros Hm. revert label.
  induction verts as [|cell verts IH]; intros label Hl Hb Hr Hc.
  - split; [done|]. simpl.
    destruct (has_shape_get2 h w label r c Hl Hr Hc) as [l Hlrc].
    rewrite Hlrc. f_equal.
    destruct (binary_get2 _ _ _ _ Hb Hlrc) as [-> | ->].
    + rewrite decide_False; [done|]. intros [?|HE]; [done|].
      by apply Exists_nil in HE.
    + rewrite decide_True; [done|]. by left.
  - cbn [foldl].
    pose proof (maximum_shape h w label _ Hl (Hm cell)) as Hl'.
    pose proof (maximum_binary label (polygon2mask shape cell) Hb) as Hb'.
    destruct (IH _ Hl' Hb' Hr Hc) as [Hs ->]. split; [done|]. f_equal.
    rewrite get2_maximum.
    destruct (has_shape_get2 h w label r c Hl Hr Hc) as [l Hlrc].
    destruct (has_shape_get2 h w _ r c (Hm cell) Hr Hc) as [b Hbrc].
    rewrite Hlrc, Hbrc. simpl.
    destruct (binary_get2 _ _ _ _ Hb Hlrc) as [-> | ->], b; simpl;
      repeat case_decide; try done; exfalso;
      rewrite ?Exists_cons in *; intuition congruence.
Qed.

Lemma label_shape_has_shape
    (polygon2mask : Z * Z → polygon → list (list bool)) (image : ndarray) :
  (∀ shape cell,
     has_shape (Z.to_nat shape.1) (Z.to_nat shape.2) (polygon2mask shape cell)) →
  ∀ cell,
    has_shape (Z.to_nat (shape0 image)) (Z.to_nat (shape1 image))
      (polygon2mask (label_shape image) cell).
Proof.
  intros Hshape cell. unfold label_shape.
  apply (cell_mask_shape polygon2mask Hshape). apply has_shape_replicate.
Qed.

(** X6.  For a rasterization primitive that returns arrays of the shape
    it is given, the mask [annotation_to_label] returns is the union of
    the rasters and nothing more: a pixel of the canvas is 1 when the
    raster of at least one polygon is set there, and 0 otherwise. *)
Theorem annotation_to_label_is_union
    (polygon2mask : Z * Z → polygon → list (list bool))
    (centroid : list (list bool) → pyfloat * pyfloat)
    (verts_list : list polygon) (image : ndarray) (image_id : string)
    (region_id_list : list Z) (label : list (list Z))
    (centroids : list (Z * Z)) :
  (∀ shape cell,
     has_shape (Z.to_nat shape.1) (Z.to_nat shape.2) (polygon2mask shape cell)) →
  annotation_to_label polygon2mask centroid verts_list image image_id
    region_id_list = ret (label, centroids) →
  ∀ r c,
    Z.of_nat r < shape0 image → Z.of_nat c < shape1 image →
    get2 label r c
    = Some (if decide (Exists (covers polygon2mask image r c) verts_list)
            then 1 else 0).
Proof.
  intros Hshape Hrun r c Hr Hc.
  rewrite annotation_to_label_run in Hrun by done.
  destruct (traverse _ verts_list) as [e|new]; simpl in Hrun; [done|].
  injection Hrun as <- <-.
  destruct (foldl_maximum_get2 polygon2mask (label_shape image)
              (Z.to_nat (shape0 image)) (Z.to_nat (shape1 image)) verts_list
              (replicate (Z.to_nat (shape0 image))
                 (replicate (Z.to_nat (shape1 image)) 0)) r c)
    as [_ ->]; [by apply label_shape_has_shape|apply has_shape_replicate
               |apply binary_zeros|lia|lia|].
  f_equal. unfold get2.
  rewrite lookup_replicate_2 by lia. simpl.
  rewrite lookup_replicate_2 by lia.
  unfold covers. repeat case_decide; try done; exfalso; intuition congruence.
Qed.

Lemma corner_mask_shape shape cell :
  has_shape (Z.to_nat shape.1) (Z.to_nat shape.2) (corner_mask shape cell).
Proof.
  unfold corner_mask. split.
  - by rewrite length_fmap, length_seqZ.
  - apply Forall_fmap, Forall_forall. intros r _. simpl.
    by rewrite length_fmap, length_seqZ.
Qed.

Lemma annotation_to_label_is_union_witness :
  get2 [ [1; 0; 0; 0; 0]; [0; 0; 0; 0; 0]; [0; 0; 0; 0; 0];
         [0; 0; 0; 0; 0]; [0; 0; 0; 0; 0] ] 0 0 = Some 1
  ∧ get2 [ [1; 0; 0; 0; 0]; [0; 0; 0; 0; 0]; [0; 0; 0; 0; 0];
           [0; 0; 0; 0; 0]; [0; 0; 0; 0; 0] ] 1 1 = Some 0.
Proof.
  pose proof (annotation_to_label_is_union corner_mask origin_centroid
                [sample_triangle] sample_image "image" [1]
                [ [1; 0; 0; 0; 0]; [0; 0; 0; 0; 0]; [0; 0; 0; 0; 0];
                  [0; 0; 0; 0; 0]; [0; 0; 0; 0; 0] ] [(0, 0)]
                corner_mask_shape eq_refl) as H.
  split.
  - apply (H 0%nat 0%nat); reflexivity.
  - apply (H 1%nat 1%nat); reflexivity.
Defined.

Lemma traverse_Permutation {A B} (f : A → result B) (l l' : list A) k :
  l ≡ₚ l' → traverse f l = ret k →
  ∃ k', traverse f l' = ret k' ∧ k ≡ₚ k'.
Proof.
  intros Hp. revert k.
  induction Hp as [|x l l' Hp IH|x y l|l l' l'' Hp1 IH1 Hp2 IH2]; intros k;
    simpl.
  - intros [= <-]. by eexists.
  - destruct (f x) as [e|z]; simpl; [done|].
    destruct (traverse f l) as [e|zs]; simpl; [done|]. intros [= <-].
    destruct (IH zs eq_refl) as (k' & -> & Hk). simpl.
    eexists. split; [done|]. by constructor.
  - destruct (f y) as [e|zy]; simpl; [done|].
    destruct (f x) as [e|zx]; simpl; [done|].
    destruct (traverse f l) as [e|zs]; simpl; [done|]. intros [= <-].
    eexists. split; [done|]. constructor.
  - intros Hk. destruct (IH1 k Hk) as (k' & Hk' & Hp').
    destruct (IH2 k' Hk') as (k'' & Hk'' & Hp'').
    eexists. split; [done|]. by etrans.
Qed.

(** X7.  The mask does not depend on the order of the polygons, nor on
    [image_id] and [region_id_list]: if [annotation_to_label] returns on
    a list of polygons, it returns the same mask on any permutation of
    the list, with the centroids permuted. *)
Theorem annotation_to_label_permutation
    (polygon2mask : Z * Z → polygon → list (list bool))
    (centroid : list (list bool) → pyfloat * pyfloat)
    (verts_list verts_list' : list polygon) (image : ndarray)
    (image_id image_id' : string) (region_id_list region_id_list' : list Z)
    (label : list (list Z)) (centroids : list (Z * Z)) :
  (∀ shape cell,
     has_shape (Z.to_nat shape.1) (Z.to_nat shape.2) (polygon2mask shape cell)) →
  verts_list ≡ₚ verts_list' →
  annotation_to_label polygon2mask centroid verts_list image image_id
    region_id_list = ret (label, centroids) →
  ∃ centroids',
    annotation_to_label polygon2mask centroid verts_list' image image_id'
      region_id_list' = ret (label, centroids')
    ∧ centroids ≡ₚ centroids'.
Proof.
  intros Hshape Hp Hrun.
  rewrite annotation_to_label_run in Hrun |- * by done.
  destruct (traverse _ verts_list) as [e|new] eqn:Ht; simpl in Hrun; [done|].
  injection Hrun as <- <-.
  destruct (traverse_Permutation _ _ _ _ Hp Ht) as (new' & -> & Hnew).
  simpl. exists new'. split; [|done]. do 2 f_equal.
  set (h := Z.to_nat (shape0 image)). set (w := Z.to_nat (shape1 image)).
  pose proof (label_shape_has_shape polygon2mask image Hshape) as Hm.
  fold h w in Hm.
  assert (∀ verts,
            has_shape h w
              (foldl (λ l cell, maximum l (polygon2mask (label_shape image) cell))
                 (replicate h (replicate w 0)) verts)) as Hs.
  { intros verts.
    by apply (foldl_maximum_spec polygon2mask centroid (λ _ _ _, False)
                Hshape ltac:(done) h w verts _ (label_shape image)
                (has_shape_replicate h w 0) (binary_zeros h w)). }
  apply (has_shape_ext h w); [apply Hs..|].
  intros r c Hr Hc.
  destruct (foldl_maximum_get2 polygon2mask (label_shape image) h w
              verts_list (replicate h (replicate w 0)) r c)
    as [_ ->]; [done|apply has_shape_replicate|apply binary_zeros|done..|].
  destruct (foldl_maximum_get2 polygon2mask (label_shape image) h w
              verts_list' (replicate h (replicate w 0)) r c)
    as [_ ->]; [done|apply has_shape_replicate|apply binary_zeros|done..|].
  f_equal. apply decide_ext. by rewrite Hp.
Qed.

Lemma annotation_to_label_permutation_witness :
  ∃ centroids',
    annotation_to_label corner_mask origin_centroid
      [sample_triangle; []] sample_image "image" [2; 1]
    = ret ([ [1; 0; 0; 0; 0]; [0; 0; 0; 0; 0]; [0; 0; 0; 0; 0];
             [0; 0; 0; 0; 0]; [0; 0; 0; 0; 0] ], centroids')
    ∧ [(0, 0); (0, 0)] ≡ₚ centroids'.
Proof.
  apply (annotation_to_label_permutation corner_mask origin_centroid
           [[]; sample_triangle] [sample_triangle; []] sample_image
           "image" "image" [1; 2] [2; 1]).
  - apply corner_mask_shape.
  - apply Permutation_swap.
  - reflexivity.
Defined.

(** X8.  The parser and the rasterizer together, as
    [process_MoNuSeg_data] chains them: a pixel of the mask is 1 exactly
    when the raster of a region that is not rejected is set there, and
    there is one centroid per such region.  A rejected region leaves no
    trace in the mask. *)
Theorem rejected_regions_leave_no_trace_in_the_mask
    (polygon2mask : Z * Z → polygon → list (list bool))
    (centroid : list (list bool) → pyfloat * pyfloat)
    (regions : list region) (image : ndarray) (image_id : string)
    (label : list (list Z)) (centroids : list (Z * Z)) :
  (∀ shape cell,
     has_shape (Z.to_nat shape.1) (Z.to_nat shape.2) (polygon2mask shape cell)) →
  annotation_to_label polygon2mask centroid
    (load_MoNuSeg_annotation regions).2.1 image image_id
    (load_MoNuSeg_annotation regions).2.2 = ret (label, centroids) →
  length centroids = length (filter (λ r, ¬ rejected r) regions)
  ∧ ∀ r c,
      Z.of_nat r < shape0 image → Z.of_nat c < shape1 image →
      get2 label r c
      = Some (if decide (Exists (λ region,
                                   ¬ rejected region
                                   ∧ covers polygon2mask image r c
                                       (verts_of region)) regions)
              then 1 else 0).
Proof.
  intros Hshape Hrun.
  unfold load_MoNuSeg_annotation in Hrun. cbn [fst snd] in Hrun.
  rewrite load_regions_spec in Hrun. cbn [verts_list region_id_list] in Hrun.
  rewrite annotation_to_label_run in Hrun by done.
  destruct (traverse _ _) as [e|new] eqn:Ht; simpl in Hrun; [done|].
  injection Hrun as <- <-. split.
  { destruct (traverse_lookup _ _ _ Ht) as [-> _]. by rewrite length_fmap. }
  intros r c Hr Hc.
  destruct (foldl_maximum_get2 polygon2mask (label_shape image)
              (Z.to_nat (shape0 image)) (Z.to_nat (shape1 image))
              (verts_of <$> filter (λ r, ¬ rejected r) regions)
              (replicate (Z.to_nat (shape0 image))
                 (replicate (Z.to_nat (shape1 image)) 0)) r c)
    as [_ ->]; [by apply label_shape_has_shape|apply has_shape_replicate
               |apply binary_zeros|lia|lia|].
  f_equal. unfold get2.
  rewrite lookup_replicate_2 by lia. simpl.
  rewrite lookup_replicate_2 by lia.
  apply decide_ext. rewrite !Exists_exists. split.
  - intros [[=]|(cell & Hcell & Hcov)].
    apply list_elem_of_fmap in Hcell as (region & -> & Hreg).
    apply list_elem_of_filter in Hreg as [Hrej Hreg].
    exists region. split; [done|]. split; [done|]. exact Hcov.
  - intros (region & Hreg & Hrej & Hcov). right.
    exists (verts_of region). split; [|exact Hcov].
    apply list_elem_of_fmap_2. by apply list_elem_of_filter.
Qed.

Lemma rejected_regions_leave_no_trace_in_the_mask_witness :
  get2 [ [0; 0; 0; 0; 0]; [0; 0; 0; 0; 0]; [0; 0; 0; 0; 0];
         [0; 0; 0; 0; 0]; [0; 0; 0; 0; 0] ] 0 0 = Some 0.
Proof.
  destruct (rejected_regions_leave_no_trace_in_the_mask corner_mask
              origin_centroid
              [ {| Area := Finite 0; Id := 1;
                   Vertices := replicate 3 {| X := Finite 0; Y := Finite 0 |} |} ]
              sample_image "image"
              [ [0; 0; 0; 0; 0]; [0; 0; 0; 0; 0]; [0; 0; 0; 0; 0];
                [0; 0; 0; 0; 0]; [0; 0; 0; 0; 0] ] [])
    as [_ Hget].
  - apply corner_mask_shape.
  - reflexivity.
  - apply (Hget 0%nat 0%nat); reflexivity.
Defined.

(** ** Loops and tiles *)

Lemma bind_ret {A B} (a : A) (k : A → result B) : bind (ret a) k = k a.
Proof. reflexivity. Qed.

Lemma seqZ_nonpos (n : Z) : n ≤ 0 → seqZ 0 n = [].
Proof. intros. by apply seqZ_nil. Qed.

Lemma div_nonpos (a s : Z) : 0 ≤ a → s < 0 ∨ a < s → a `div` s ≤ 0.
Proof.
  intros Ha [Hs|Hs].
  - pose proof (Z.div_mod a s ltac:(lia)).
    pose proof (Z.mod_neg_bound a s Hs). nia.
  - rewrite Z.div_small by lia. done.
Qed.

Lemma for_each_skip {S X} (body : S → X → result S) (xs : list X) (st : S) :
  (∀ st x, x ∈ xs → body st x = ret st) → for_each body xs st = ret st.
Proof.
  induction xs as [|x xs IH]; intros H; simpl; [done|].
  rewrite H by left. simpl. apply IH. intros. apply H. by right.
Qed.

Lemma for_each_append {X E} (g : X → result (list E)) (h : X → list E)
    (xs : list X) (log : list E) :
  (∀ x, x ∈ xs → g x = ret (h x)) →
  for_each (λ log x, let* events := g x in ret (log ++ events)) xs log
  = ret (log ++ (xs ≫= h)).
Proof.
  intros H. erewrite for_each_ext.
  2:{ intros st x Hx. rewrite (H x Hx). rewrite bind_ret. reflexivity. }
  by rewrite for_each_ret, foldl_append.
Qed.

Lemma patchify_item_imwrites imsize target_folder cancer_type subset item
    image mask :
  0 < imsize → rectangular image → rectangular mask →
  shape0 mask = shape0 image → shape1 mask = shape1 image →
  imwrites
    (range (shape0 image `div` imsize) ≫= λ h_chunk,
     range (shape1 image `div` imsize) ≫= λ w_chunk,
     patchify_tile imsize target_folder cancer_type subset item image mask
       (shape0 image) (shape1 image) h_chunk w_chunk)
  = item_tiles imsize target_folder cancer_type subset item image mask.
Proof.
  intros Hs Hi Hm Hm0 Hm1. unfold range, item_tiles.
  rewrite imwrites_bind. apply bind_ext_in. intros h Hh.
  rewrite imwrites_bind. apply bind_ext_in. intros w Hw.
  apply elem_of_seqZ in Hh, Hw.
  apply patchify_tile_events; (done || lia).
Qed.

Lemma item_tiles_shape imsize target_folder cancer_type subset item image
    mask :
  0 < imsize → rectangular image → rectangular mask →
  shape0 mask = shape0 image → shape1 mask = shape1 image →
  length (item_tiles imsize target_folder cancer_type subset item image mask)
  = (2 * (Z.to_nat (shape0 image `div` imsize)
          * Z.to_nat (shape1 image `div` imsize)))%nat
  ∧ Forall (λ e, has_shape (Z.to_nat imsize) (Z.to_nat imsize) e.2)
      (item_tiles imsize target_folder cancer_type subset item image mask).
Proof.
  intros Hs Hi Hm Hm0 Hm1. unfold item_tiles. split.
  - rewrite (length_bind_const _ _
               (Z.to_nat (shape1 image `div` imsize) * 2)%nat).
    + rewrite length_seqZ. lia.
    + intros h _. rewrite (length_bind_const _ _ 2%nat) by done.
      by rewrite length_seqZ.
  - apply Forall_forall. intros [f tile] Hin.
    apply list_elem_of_bind in Hin as (h & Hin & Hh).
    apply list_elem_of_bind in Hin as (w & Hin & Hw).
    apply elem_of_seqZ in Hh, Hw.
    destruct (chunk_bounds (shape0 image) imsize h Hs) as [Hh0 Hh1]; [lia|].
    destruct (chunk_bounds (shape1 image) imsize w Hs) as [Hw0 Hw1]; [lia|].
    apply elem_of_cons in Hin as [Hin|Hin];
      [|apply list_elem_of_singleton in Hin]; simplify_eq; simpl.
    + split; [apply length_block; lia|apply block_row_lengths; (done || lia)].
    + split; [apply length_block; lia|apply block_row_lengths; (done || lia)].
Qed.

(** ** Grid tiler and partitioner: a tile size of zero, and empty arrays *)

Lemma for_each_invariant {S X} (I : S → Prop) (body : S → X → result S)
    (xs : list X) (st : S) :
  I st →
  (∀ st x, x ∈ xs → I st → ∃ st', body st x = ret st' ∧ I st') →
  ∃ st', for_each body xs st = ret st' ∧ I st'.
Proof.
  revert st. induction xs as [|x xs IH]; intros st Hst H; simpl; [by eexists|].
  destruct (H st x) as (st' & -> & Hst'); [by left|done|]. simpl.
  apply IH; [done|]. intros. apply H; [by right|done].
Qed.

Lemma has_shape_nonempty {A} (h w : nat) (a : list (list A)) :
  has_shape h w a → (0 < h)%nat → (0 < w)%nat → nonempty a.
Proof.
  intros [Hlen Hrows] Hh Hw. unfold nonempty, shape0, shape1.
  destruct a as [|row a]; simpl in *; [lia|].
  apply Forall_cons in Hrows as [-> _]. lia.
Qed.

Lemma same_shape_nonempty {A B} (a : list (list A)) (b : list (list B)) :
  same_shape a b → nonempty b → nonempty a.
Proof.
  intros Hs. unfold nonempty, shape0, shape1.
  destruct Hs as [|ra rb a b Hr _]; simpl; [done|]. by rewrite Hr.
Qed.

Lemma block_nonempty {A} (a : list (list A)) (H s c d : Z) :
  0 < s → rectangular a → shape0 a = H →
  0 ≤ c < H `div` s → 0 ≤ d < shape1 a `div` s →
  nonempty (block a (c * s) (d * s) s).
Proof.
  intros Hs Ha H0 Hc Hd. subst H.
  destruct (chunk_bounds (shape0 a) s c Hs Hc) as [Hc0 Hc1].
  destruct (chunk_bounds (shape1 a) s d Hs Hd) as [Hd0 Hd1].
  apply (has_shape_nonempty (Z.to_nat s) (Z.to_nat s)); [|lia|lia].
  split; [apply length_block; lia|apply block_row_lengths; (done || lia)].
Qed.

(** The tiling of one item hands no empty array to [cv2.imwrite]. *)
Lemma patchify_item_nonempty imsize target_folder cancer_type subset item
    image mask :
  imsize ≠ 0 → rectangular image → rectangular mask →
  shape0 mask = shape0 image → shape1 mask = shape1 image →
  ∃ events,
    patchify_item imsize target_folder cancer_type subset item image mask
      = ret events
    ∧ Forall (λ e, nonempty e.2) (imwrites events).
Proof.
  intros Hs Hi Hm Hm0 Hm1. eexists. split; [by apply patchify_item_log|].
  destruct (decide (0 < imsize)) as [Hpos|Hneg].
  - rewrite patchify_item_imwrites by done.
    destruct (item_tiles_shape imsize target_folder cancer_type subset item
                image mask Hpos Hi Hm Hm0 Hm1) as [_ Hshape].
    eapply Forall_impl; [exact Hshape|]. intros e He. simpl in He.
    apply (has_shape_nonempty _ _ _ He); lia.
  - unfold range. rewrite (seqZ_nonpos (shape0 image `div` imsize)).
    + constructor.
    + apply div_nonpos; [unfold shape0|]; lia.
Qed.

(** So does the partitioning of one item, whose image has at least one
    row and one column. *)
Lemma intraimage_item_nonempty imsize percentage target_folder cancer_type
    test_item_count test_item image mask :
  imsize ≠ 0 → rectangular image → rectangular mask →
  shape0 mask = shape0 image → shape1 mask = shape1 image →
  nonempty image →
  ∃ st,
    intraimage_item imsize percentage target_folder cancer_type
      test_item_count test_item image mask = ret st
    ∧ Forall (λ e, nonempty e.2) (imwrites (log st)).
Proof.
  intros Hs Hi Hm Hm0 Hm1 Hne.
  assert (nonempty mask) as Hnm.
  { unfold nonempty in *. by rewrite Hm0, Hm1. }
  destruct (decide (0 < imsize)) as [Hpos|Hneg].
  - destruct (intraimage_item_spec imsize percentage target_folder
                cancer_type test_item_count test_item image mask
                Hpos Hi Hm Hm0 Hm1) as (st & Hrun & _ & Hl & Hsi & Hsm & _).
    exists st. split; [done|].
    rewrite Hl, imwrites_app, imwrites_bind. apply Forall_app. split.
    + apply Forall_forall. intros e He.
      apply list_elem_of_bind in He as (k & He & Hk).
      apply elem_of_seqZ in Hk.
      destruct (tile_of_number (shape0 image `div` imsize)
                  (shape1 image `div` imsize) k ltac:(lia)
                  (cols_nonneg imsize image Hpos)) as (Hh & Hw & _).
      rewrite imwrites_tile_events in He. cbv zeta in He.
      pose proof (block_nonempty image (shape0 image) imsize _ _
                    Hpos Hi eq_refl Hh Hw) as Hbi.
      pose proof (block_nonempty mask (shape0 image) imsize
                    (k `div` (shape1 image `div` imsize))
                    (k `mod` (shape1 image `div` imsize))
                    Hpos Hm Hm0 Hh ltac:(by rewrite Hm1)) as Hbm.
      pose proof (same_shape_nonempty _ _ (same_shape_zeros_like _) Hbi).
      pose proof (same_shape_nonempty _ _ (same_shape_zeros_like _) Hbm).
      destruct (decide (k < _));
        repeat (apply elem_of_cons in He as [->|He]; [done|]);
        by apply elem_of_nil in He.
    + unfold effective_events, imwrites. cbn [omap list_omap].
      apply Forall_cons. split; [exact (same_shape_nonempty _ _ Hsi Hne)|].
      apply Forall_cons. split; [exact (same_shape_nonempty _ _ Hsm Hnm)|].
      constructor.
  - unfold intraimage_item, intraimage_tiles.
    rewrite !floordiv_ret by done. rewrite !bind_ret. unfold range.
    rewrite (seqZ_nonpos (shape0 image `div` imsize))
      by (apply div_nonpos; [unfold shape0|]; lia).
    cbn [for_each]. rewrite bind_ret. eexists. split; [reflexivity|].
    cbn [log]. unfold effective_events, imwrites. cbn [omap list_omap app].
    apply Forall_cons. split.
    { exact (same_shape_nonempty _ _ (same_shape_zeros_like image) Hne). }
    apply Forall_cons. split.
    { exact (same_shape_nonempty _ _ (same_shape_zeros_like mask) Hnm). }
    constructor.
Qed.

(** X9.  With [imsize = 0] the tiler and the partitioner raise
    [ZeroDivisionError] on the first item read, at the row count
    [image_h // imsize].  With any other [imsize], negative ones
    included, and image files that all hold arrays of one shape H x W
    with H, W > 0 (so that every mask is as large as its image), both run
    to the end, and no array they hand to [cv2.imwrite] is empty: that
    call raises [cv2.error] on an array without elements, such as the
    patch of a mask smaller than its image. *)
Theorem entry_points_raise_exactly_for_tile_size_zero
    (imread : string → ndarray) (imsize H W : Z) :
  (∀ f, rectangular (imread f)
        ∧ shape0 (imread f) = H ∧ shape1 (imread f) = W) →
  0 < H → 0 < W →
  if decide (imsize = 0) then
    subset_patchify_MoNuSeg_data_by_cancer imread imsize
      = raise ZeroDivisionError
    ∧ subset_patchify_MoNuSeg_data_by_cancer_intraimage imread imsize
      = raise ZeroDivisionError
  else
    (∃ events,
       subset_patchify_MoNuSeg_data_by_cancer imread imsize = ret events
       ∧ Forall (λ e, nonempty e.2) (imwrites events))
    ∧ (∃ events,
         subset_patchify_MoNuSeg_data_by_cancer_intraimage imread imsize
           = ret events
         ∧ Forall (λ e, nonempty e.2) (imwrites events)).
Proof.
  intros Himg HH HW.
  destruct (decide (imsize = 0)) as [->|Hs]; [by split|].
  assert (∀ f g, rectangular (imread f) ∧ rectangular (imread g)
                 ∧ shape0 (imread g) = shape0 (imread f)
                 ∧ shape1 (imread g) = shape1 (imread f)
                 ∧ nonempty (imread f)) as Hpair.
  { intros f g. destruct (Himg f) as (? & Hf0 & Hf1).
    destruct (Himg g) as (? & Hg0 & Hg1).
    unfold nonempty. rewrite Hf0, Hf1, Hg0, Hg1. done. }
  set (I := λ events : list event, Forall (λ e, nonempty e.2) (imwrites events)).
  assert (I []) as Hnil by constructor.
  assert (∀ l1 l2, I l1 → I l2 → I (l1 ++ l2)) as Happ.
  { intros l1 l2 H1 H2. unfold I. rewrite imwrites_app. by apply Forall_app. }
  split.
  - unfold subset_patchify_MoNuSeg_data_by_cancer.
    apply (for_each_invariant I); [done|]. intros log cancer_type _ Hlog.
    match goal with
    | |- ∃ st', bind ?m _ = _ ∧ _ =>
        assert (∃ log', m = ret log' ∧ I log') as (log' & -> & Hlog')
    end.
    { apply (for_each_invariant I); [done|]. intros log0 item _ Hlog0.
      cbv zeta.
      destruct (Hpair (train_image_folder +:+ item +:+ ".png")
                  (train_mask_folder +:+ item +:+ ".png"))
        as (Hi & Hm & Hm0 & Hm1 & _).
      destruct (patchify_item_nonempty imsize
                  ("../../external_data/MoNuSeg/MoNuSegByCancer_"
                     +:+ str imsize +:+ "x" +:+ str imsize +:+ "/")
                  cancer_type "train" item _ _ Hs Hi Hm Hm0 Hm1)
        as (events & -> & Hev).
      rewrite bind_ret. eexists. split; [reflexivity|by apply Happ]. }
    rewrite bind_ret.
    apply (for_each_invariant I); [done|]. intros log0 item _ Hlog0.
    cbv zeta.
    destruct (Hpair (test_image_folder +:+ item +:+ ".png")
                (test_mask_folder +:+ item +:+ ".png"))
      as (Hi & Hm & Hm0 & Hm1 & _).
    destruct (patchify_item_nonempty imsize
                ("../../external_data/MoNuSeg/MoNuSegByCancer_"
                   +:+ str imsize +:+ "x" +:+ str imsize +:+ "/")
                cancer_type "test" item _ _ Hs Hi Hm Hm0 Hm1)
      as (events & -> & Hev).
    rewrite bind_ret. eexists. split; [reflexivity|by apply Happ].
  - unfold subset_patchify_MoNuSeg_data_by_cancer_intraimage.
    apply (for_each_invariant I); [done|]. intros events cancer_type _ Hev.
    apply (for_each_invariant I); [done|]. intros events0 percentage _ Hev0.
    cbv zeta.
    apply (for_each_invariant I); [done|].
    intros events1 [test_item_count test_item] _ Hev1. cbv zeta.
    destruct (Hpair (test_image_folder +:+ test_item +:+ ".png")
                (test_mask_folder +:+ test_item +:+ ".png"))
      as (Hi & Hm & Hm0 & Hm1 & Hne).
    destruct (intraimage_item_nonempty imsize percentage
                ("../../external_data/MoNuSeg/MoNuSegByCancer_intraimage"
                   +:+ str percentage +:+ "pct_" +:+ str imsize +:+ "x"
                   +:+ str imsize +:+ "/")
                cancer_type test_item_count test_item _ _
                Hs Hi Hm Hm0 Hm1 Hne)
      as (st & -> & Hst).
    rewrite bind_ret. eexists. split; [reflexivity|by apply Happ].
Qed.

Lemma entry_points_raise_exactly_for_tile_size_zero_witness :
  (subset_patchify_MoNuSeg_data_by_cancer black_imread 0
     = raise ZeroDivisionError
   ∧ subset_patchify_MoNuSeg_data_by_cancer_intraimage black_imread 0
     = raise ZeroDivisionError)
  ∧ (∃ events,
       subset_patchify_MoNuSeg_data_by_cancer_intraimage black_imread (-3)
         = ret events
       ∧ Forall (λ e, nonempty e.2) (imwrites events)).
Proof.
  assert (∀ f, rectangular (black_imread f)
               ∧ shape0 (black_imread f) = 5 ∧ shape1 (black_imread f) = 5)
    as Himg.
  { intros f. split; [apply rectangular_replicate|]. split; reflexivity. }
  split.
  - exact (entry_points_raise_exactly_for_tile_size_zero black_imread 0 5 5
             Himg ltac:(lia) ltac:(lia)).
  - exact (proj2 (entry_points_raise_exactly_for_tile_size_zero black_imread
                    (-3) 5 5 Himg ltac:(lia) ltac:(lia))).
Defined.

(** X10.  When the tile size is larger than the height or the width of
    the image, or negative, there is no tile: the tiler makes no
    file-system call for the item, and the partitioner makes none but the
    two writes of the effective canvases, which are all zero. *)
Theorem tile_larger_than_image_gives_no_tile
    (imsize percentage : Z) (target_folder cancer_type subset : string)
    (test_item_count : Z) (item : string) (image mask : ndarray) :
  imsize ≠ 0 →
  imsize < 0 ∨ shape0 image < imsize ∨ shape1 image < imsize →
  patchify_item imsize target_folder cancer_type subset item image mask
    = ret []
  ∧ intraimage_item imsize percentage target_folder cancer_type
      test_item_count item image mask
    = ret {| curr_count := 0;
             image_effective := zeros_like image;
             mask_effective := zeros_like mask;
             log := effective_events target_folder cancer_type
                      test_item_count item
                      (zeros_like image) (zeros_like mask) |}.
Proof.
  intros Hs Hsmall.
  assert (shape0 image `div` imsize ≤ 0 ∨ shape1 image `div` imsize ≤ 0)
    as Hgrid.
  { destruct Hsmall as [?|[?|?]].
    - left. apply div_nonpos; [unfold shape0|]; lia.
    - left. apply div_nonpos; [unfold shape0|]; lia.
    - right. apply div_nonpos; [unfold shape1|]; lia. }
  split.
  - rewrite patchify_item_log by done. f_equal. unfold range.
    destruct Hgrid as [Hr|Hc].
    + rewrite (seqZ_nonpos _ Hr). reflexivity.
    + apply bind_nil_all. intros h _. by rewrite (seqZ_nonpos _ Hc).
  - unfold intraimage_item, intraimage_tiles.
    rewrite !floordiv_ret by done. rewrite !bind_ret. unfold range.
    rewrite for_each_skip; [reflexivity|].
    intros st h Hh. rewrite bind_ret.
    destruct Hgrid as [Hr|Hc].
    + rewrite seqZ_nonpos in Hh by done. by apply elem_of_nil in Hh.
    + by rewrite (seqZ_nonpos _ Hc).
Qed.

Lemma tile_larger_than_image_gives_no_tile_witness :
  patchify_item 8 "out" "breast" "test" "item" sample_image sample_mask
    = ret []
  ∧ ∃ st,
      intraimage_item 8 50 "out" "breast" 0 "item" sample_image sample_mask
        = ret st
      ∧ imwrites (log st)
        = [ ("out/breast/img0_test/item_effective_image.png",
             zeros_like sample_image);
            ("out/breast/img0_test/item_effective_mask.png",
             zeros_like sample_mask) ].
Proof.
  destruct (tile_larger_than_image_gives_no_tile 8 50 "out" "breast" "test"
              0 "item" sample_image sample_mask) as [Ht Hp].
  - lia.
  - right. left. vm_compute. reflexivity.
  - split; [exact Ht|]. eexists. split; [exact Hp|]. reflexivity.
Defined.

(** ** Grid tiler: whole runs *)

(** The run of the tiler over the three cancer types: the files written,
    item by item, train items before test items. *)
Lemma subset_patchify_imwrites (imread : string → ndarray) (imsize : Z) :
  0 < imsize →
  (∀ f, rectangular (imread f)) →
  (∀ f g, shape0 (imread f) = shape0 (imread g)
          ∧ shape1 (imread f) = shape1 (imread g)) →
  ∃ events,
    subset_patchify_MoNuSeg_data_by_cancer imread imsize = ret events
    ∧ imwrites events
      = (["breast"; "colon"; "prostate"] ≫= λ cancer_type,
           (train_list cancer_type ≫= λ item,
              item_tiles imsize
                ("../../external_data/MoNuSeg/MoNuSegByCancer_" +:+ str imsize
                   +:+ "x" +:+ str imsize +:+ "/")
                cancer_type "train" item
                (imread (train_image_folder +:+ item +:+ ".png"))
                (imread (train_mask_folder +:+ item +:+ ".png")))
           ++ (test_list cancer_type ≫= λ item,
                 item_tiles imsize
                   ("../../external_data/MoNuSeg/MoNuSegByCancer_"
                      +:+ str imsize +:+ "x" +:+ str imsize +:+ "/")
                   cancer_type "test" item
                   (imread (test_image_folder +:+ item +:+ ".png"))
                   (imread (test_mask_folder +:+ item +:+ ".png")))).
Proof.
  intros Hs Hrect Hsame.
  unfold subset_patchify_MoNuSeg_data_by_cancer. cbv zeta.
  set (tf := "../../external_data/MoNuSeg/MoNuSegByCancer_" +:+ str imsize
               +:+ "x" +:+ str imsize +:+ "/").
  set (ev := λ (image_folder mask_folder cancer_type subset item : string),
         range (shape0 (imread (image_folder +:+ item +:+ ".png")) `div` imsize)
           ≫= λ h_chunk,
         range (shape1 (imread (image_folder +:+ item +:+ ".png")) `div` imsize)
           ≫= λ w_chunk,
         patchify_tile imsize tf cancer_type subset item
           (imread (image_folder +:+ item +:+ ".png"))
           (imread (mask_folder +:+ item +:+ ".png"))
           (shape0 (imread (image_folder +:+ item +:+ ".png")))
           (shape1 (imread (image_folder +:+ item +:+ ".png")))
           h_chunk w_chunk).
  erewrite for_each_ext.
  2:{ intros log cancer_type _.
      rewrite (for_each_append _
                 (ev train_image_folder train_mask_folder cancer_type "train")).
      2:{ intros item _. apply patchify_item_log. lia. }
      rewrite bind_ret.
      rewrite (for_each_append _
                 (ev test_image_folder test_mask_folder cancer_type "test")).
      2:{ intros item _. apply patchify_item_log. lia. }
      rewrite <-app_assoc. reflexivity. }
  rewrite for_each_ret, foldl_append. eexists. split; [reflexivity|].
  rewrite app_nil_l, imwrites_bind. apply bind_ext_in. intros cancer_type _.
  rewrite imwrites_app, !imwrites_bind. f_equal.
  - apply bind_ext_in. intros item _. unfold ev.
    apply patchify_item_imwrites; try done; apply Hsame.
  - apply bind_ext_in. intros item _. unfold ev.
    apply patchify_item_imwrites; try done; apply Hsame.
Qed.

(** X11.  A whole run of the tiler over images of one height H and
    width W (rectangular, as arrays are) returns and writes, for each of
    the 19 items of the three cancer types, an image file and a mask file
    per tile: 2 x 19 x (H div imsize) x (W div imsize) files in all, each
    holding exactly imsize rows of imsize pixels. *)
Theorem tiler_run_writes_all_tiles (imread : string → ndarray)
    (imsize H W : Z) :
  0 < imsize →
  (∀ f, rectangular (imread f)
        ∧ shape0 (imread f) = H ∧ shape1 (imread f) = W) →
  ∃ events,
    subset_patchify_MoNuSeg_data_by_cancer imread imsize = ret events
    ∧ length (imwrites events)
      = (2 * (19 * (Z.to_nat (H `div` imsize) * Z.to_nat (W `div` imsize))))%nat
    ∧ Forall (λ e, has_shape (Z.to_nat imsize) (Z.to_nat imsize) e.2)
        (imwrites events).
Proof.
  intros Hs Himg.
  destruct (subset_patchify_imwrites imread imsize Hs) as (events & Hrun & Hw).
  { intros f. apply Himg. }
  { intros f g. destruct (Himg f) as (_ & -> & ->).
    destruct (Himg g) as (_ & -> & ->). done. }
  exists events. split; [done|]. rewrite Hw.
  assert (∀ tf ct subset item image_folder mask_folder,
            length (item_tiles imsize tf ct subset item
                      (imread (image_folder +:+ item +:+ ".png"))
                      (imread (mask_folder +:+ item +:+ ".png")))
            = (2 * (Z.to_nat (H `div` imsize) * Z.to_nat (W `div` imsize)))%nat
            ∧ Forall (λ e, has_shape (Z.to_nat imsize) (Z.to_nat imsize) e.2)
                (item_tiles imsize tf ct subset item
                   (imread (image_folder +:+ item +:+ ".png"))
                   (imread (mask_folder +:+ item +:+ ".png")))) as Hitem.
  { intros tf ct subset item image_folder mask_folder.
    destruct (Himg (image_folder +:+ item +:+ ".png")) as (Hri & H0 & H1).
    destruct (Himg (mask_folder +:+ item +:+ ".png")) as (Hrm & H0' & H1').
    rewrite <-H0, <-H1. apply item_tiles_shape; (done || congruence). }
  split.
  - cbn [mbind list_bind train_list test_list]. simpl.
    rewrite !length_app. rewrite !(proj1 (Hitem _ _ _ _ _ _)). simpl. lia.
  - apply Forall_forall. intros e He.
    apply list_elem_of_bind in He as (ct & He & _).
    apply elem_of_app in He as [He|He];
      apply list_elem_of_bind in He as (item & He & _);
      revert e He; apply Forall_forall, Hitem.
Qed.

Lemma tiler_run_writes_all_tiles_witness :
  ∃ events,
    subset_patchify_MoNuSeg_data_by_cancer black_imread 2 = ret events
    ∧ length (imwrites events) = 152%nat.
Proof.
  destruct (tiler_run_writes_all_tiles black_imread 2 5 5)
    as (events & Hrun & Hlen & _).
  - lia.
  - intros f. split; [apply rectangular_replicate|]. split; reflexivity.
  - exists events. split; [exact Hrun|exact Hlen].
Defined.

Lemma tile_path_inj target_folder cancer_type subset item (k k' : kind)
    (h w h' w' : Z) :
  0 ≤ h → 0 ≤ w → 0 ≤ h' → 0 ≤ w' →
  tile_path target_folder cancer_type subset (kind_name k) item h w
  = tile_path target_folder cancer_type subset (kind_name k') item h' w' →
  k = k' ∧ h = h' ∧ w = w'.
Proof.
  intros Hh Hw Hh' Hw' H. unfold tile_path in H.
  do 6 (apply (inj (String.append _)) in H).
  apply (f_equal chars) in H. rewrite !chars_app in H.
  destruct k, k'; simpl in H; try discriminate H.
  all: repeat (injection H as H); apply app_inv_head in H.
  all: repeat (injection H as H).
  all: destruct (tile_suffix_inj h w h' w' [] [] Hh Hw Hh' Hw') as [-> ->];
    [by rewrite !app_nil_r|done].
Qed.

(** Every tile file of an item receives exactly one array: the block at
    the tile's offset. *)
Lemma written_to_item_tiles (imsize : Z)
    (target_folder cancer_type subset item : string) (image mask : ndarray)
    (h_chunk w_chunk : Z) (k : kind) :
  0 < imsize →
  0 ≤ h_chunk < shape0 image `div` imsize →
  0 ≤ w_chunk < shape1 image `div` imsize →
  written_to
    (tile_path target_folder cancer_type subset (kind_name k) item
       (h_chunk * imsize) (w_chunk * imsize))
    (item_tiles imsize target_folder cancer_type subset item image mask)
  = [ block (of_kind k image mask) (h_chunk * imsize) (w_chunk * imsize)
        imsize ].
Proof.
  intros Hs Hh Hw. unfold item_tiles.
  destruct (chunk_bounds _ _ _ Hs Hh) as [Hh0 _].
  destruct (chunk_bounds _ _ _ Hs Hw) as [Hw0 _].
  assert (∀ h w x l,
            0 ≤ h → 0 ≤ w → ∀ k',
            written_to
              (tile_path target_folder cancer_type subset (kind_name k) item
                 (h_chunk * imsize) (w_chunk * imsize))
              ((tile_path target_folder cancer_type subset (kind_name k') item
                  h w, x) :: l)
            = (if decide (k' = k ∧ h = h_chunk * imsize ∧ w = w_chunk * imsize)
               then [x] else [])
              ++ written_to
                   (tile_path target_folder cancer_type subset (kind_name k)
                      item (h_chunk * imsize) (w_chunk * imsize)) l) as Hcons.
  { intros h w x l Hh' Hw' k'. unfold written_to.
    destruct (decide (k' = k ∧ h = h_chunk * imsize ∧ w = w_chunk * imsize))
      as [(-> & -> & ->)|Hne].
    - by rewrite filter_cons_True.
    - rewrite filter_cons_False; [done|]. simpl. intros E.
      by apply tile_path_inj in E. }
  rewrite written_to_bind.
  rewrite (bind_seqZ_single _ _ h_chunk) by
    (done || (intros h' Hh' Hne; rewrite written_to_bind;
              apply bind_nil_all; intros w' Hw'%elem_of_seqZ;
              destruct (chunk_bounds _ _ _ Hs Hh') as [? _];
              destruct (chunk_bounds (shape1 image) imsize w' Hs) as [? _];
              [lia|]; rewrite !Hcons by done;
              rewrite !decide_False by nia; done)).
  rewrite written_to_bind.
  rewrite (bind_seqZ_single _ _ w_chunk) by
    (done || (intros w' Hw' Hne;
              destruct (chunk_bounds _ _ _ Hs Hw') as [? _];
              rewrite !Hcons by done;
              rewrite !decide_False by nia; done)).
  rewrite !Hcons by done.
  destruct k; repeat case_decide; try done; exfalso; intuition congruence.
Qed.

(** X12.  In the tiling of one item no file is written twice and no
    tile is lost: the file of either kind of every tile of the grid
    receives exactly one array, the block of the image (or of the mask)
    at the tile's offset. *)
Theorem tiler_writes_each_tile_file_once (imsize : Z)
    (target_folder cancer_type subset item : string) (image mask : ndarray) :
  0 < imsize → rectangular image → rectangular mask →
  shape0 mask = shape0 image → shape1 mask = shape1 image →
  ∃ events,
    patchify_item imsize target_folder cancer_type subset item image mask
      = ret events
    ∧ ∀ h_chunk w_chunk (k : kind),
        0 ≤ h_chunk < shape0 image `div` imsize →
        0 ≤ w_chunk < shape1 image `div` imsize →
        written_to
          (tile_path target_folder cancer_type subset (kind_name k) item
             (h_chunk * imsize) (w_chunk * imsize))
          (imwrites events)
        = [ block (of_kind k image mask) (h_chunk * imsize)
              (w_chunk * imsize) imsize ].
Proof.
  intros Hs Hi Hm Hm0 Hm1. eexists. split.
  { apply patchify_item_log. lia. }
  intros h_chunk w_chunk k Hh Hw.
  rewrite patchify_item_imwrites by done.
  by apply written_to_item_tiles.
Qed.

Lemma tiler_writes_each_tile_file_once_witness :
  ∃ events,
    patchify_item 2 "out" "breast" "test" "item" sample_image sample_mask
      = ret events
    ∧ written_to "out/breast/test/images/item_H2W0.png" (imwrites events)
      = [ [ [ [20; 20; 20]; [21; 21; 21] ];
            [ [30; 30; 30]; [31; 31; 31] ] ] ].
Proof.
  destruct (tiler_writes_each_tile_file_once 2 "out" "breast" "test" "item"
              sample_image sample_mask)
    as (events & Hrun & Hw);
    [lia | apply sample_image_rectangular | apply sample_mask_rectangular
    | reflexivity | reflexivity |].
  exists events. split; [exact Hrun|].
  apply (Hw 1 0 Images); vm_compute; split; congruence.
Defined.

(** ** Intra-image partitioner, continued *)

(** What a run stores under the path of a tile, for any target count. *)
Lemma written_to_tiles imsize target_folder cancer_type test_item_count
    test_item image mask target rows cols h_chunk w_chunk p k :
  0 < imsize → 0 ≤ cols →
  0 ≤ h_chunk < rows → 0 ≤ w_chunk < cols →
  written_to
    (partition_path target_folder cancer_type test_item_count p k test_item
       (h_chunk * imsize) (w_chunk * imsize))
    (imwrites
       (seqZ 0 (rows * cols) ≫= λ n,
          tile_events imsize target_folder cancer_type test_item_count
            test_item image mask target (n `div` cols) (n `mod` cols) n))
  = tile_content (bool_decide (tile_number cols h_chunk w_chunk < target)) p k
      (block image (h_chunk * imsize) (w_chunk * imsize) imsize)
      (block mask (h_chunk * imsize) (w_chunk * imsize) imsize).
Proof.
  intros Hs Hcols Hh Hw.
  assert (0 ≤ h_chunk * imsize ∧ 0 ≤ w_chunk * imsize) as [Hh0 Hw0] by nia.
  destruct (tile_number_div_mod cols h_chunk w_chunk) as [Hdiv Hmod]; [lia|].
  rewrite imwrites_bind, written_to_bind.
  rewrite (bind_seqZ_single _ _ (tile_number cols h_chunk w_chunk)).
  - rewrite written_to_tile; rewrite ?Hdiv, ?Hmod; try done.
    by rewrite decide_True.
  - unfold tile_number. nia.
  - intros k' Hk' Hne.
    destruct (tile_of_number rows cols k' Hk' Hcols) as (Hh' & Hw' & Hn').
    assert (0 ≤ k' `div` cols * imsize ∧ 0 ≤ k' `mod` cols * imsize)
      as [? ?] by nia.
    rewrite written_to_tile by done.
    rewrite decide_False; [done|]. intros [E1 E2]. apply Hne.
    rewrite <-Hn'. unfold tile_number. nia.
Qed.

Lemma intraimage_item_written imsize percentage target_folder cancer_type
    test_item_count test_item image mask :
  0 < imsize → rectangular image → rectangular mask →
  shape0 mask = shape0 image → shape1 mask = shape1 image →
  let rows := shape0 image `div` imsize in
  let cols := shape1 image `div` imsize in
  let target := ceil_div (percentage * (rows * cols)) 100 in
  ∃ st,
    intraimage_item imsize percentage target_folder cancer_type
      test_item_count test_item image mask = ret st
    ∧ ∀ h_chunk w_chunk (p : part) (k : kind),
        0 ≤ h_chunk < rows → 0 ≤ w_chunk < cols →
        written_to
          (partition_path target_folder cancer_type test_item_count p k
             test_item (h_chunk * imsize) (w_chunk * imsize))
          (imwrites (log st))
        = tile_content
            (bool_decide (tile_number cols h_chunk w_chunk < target)) p k
            (block image (h_chunk * imsize) (w_chunk * imsize) imsize)
            (block mask (h_chunk * imsize) (w_chunk * imsize) imsize).
Proof.
  intros Hs Hi Hm Hm0 Hm1 rows cols target.
  assert (0 ≤ cols) as Hcols by (by apply cols_nonneg).
  destruct (intraimage_item_spec imsize percentage target_folder cancer_type
              test_item_count test_item image mask Hs Hi Hm Hm0 Hm1)
    as (st & Hrun & _ & Hl & _).
  fold rows cols target in Hl.
  exists st. split; [done|]. intros h_chunk w_chunk p k Hh Hw.
  rewrite Hl, imwrites_app, written_to_app.
  rewrite effective_path_not_tile, app_nil_r by nia.
  by apply written_to_tiles.
Qed.

Lemma ceil_div_mono a a' b : 0 < b → a ≤ a' → ceil_div a b ≤ ceil_div a' b.
Proof.
  intros Hb Ha. unfold ceil_div.
  pose proof (Z.div_le_mono (- a') (- a) b Hb ltac:(lia)). lia.
Qed.

(** X13.  The evidence of a smaller percentage is contained in the
    evidence of a larger one: for p <= p', every file the run for p
    writes to the train tree is written by the run for p' to the same
    path relative to its target folder, with the same content. *)
Theorem evidence_grows_with_percentage
    (imsize percentage percentage' : Z)
    (target_folder target_folder' cancer_type : string)
    (test_item_count : Z) (test_item : string) (image mask : ndarray) :
  0 < imsize → rectangular image → rectangular mask →
  shape0 mask = shape0 image → shape1 mask = shape1 image →
  percentage ≤ percentage' →
  ∃ st st',
    intraimage_item imsize percentage target_folder cancer_type
      test_item_count test_item image mask = ret st
    ∧ intraimage_item imsize percentage' target_folder' cancer_type
        test_item_count test_item image mask = ret st'
    ∧ ∀ h_chunk w_chunk (k : kind),
        0 ≤ h_chunk < shape0 image `div` imsize →
        0 ≤ w_chunk < shape1 image `div` imsize →
        written_to
          (partition_path target_folder cancer_type test_item_count Train k
             test_item (h_chunk * imsize) (w_chunk * imsize))
          (imwrites (log st)) ≠ [] →
        written_to
          (partition_path target_folder' cancer_type test_item_count Train k
             test_item (h_chunk * imsize) (w_chunk * imsize))
          (imwrites (log st'))
        = written_to
            (partition_path target_folder cancer_type test_item_count Train k
               test_item (h_chunk * imsize) (w_chunk * imsize))
            (imwrites (log st)).
Proof.
  intros Hs Hi Hm Hm0 Hm1 Hp.
  destruct (intraimage_item_written imsize percentage target_folder
              cancer_type test_item_count test_item image mask
              Hs Hi Hm Hm0 Hm1) as (st & Hrun & Hw).
  destruct (intraimage_item_written imsize percentage' target_folder'
              cancer_type test_item_count test_item image mask
              Hs Hi Hm Hm0 Hm1) as (st' & Hrun' & Hw').
  exists st, st'. split; [done|]. split; [done|].
  intros h_chunk w_chunk k Hh Hc. rewrite Hw, Hw' by done.
  assert (0 ≤ shape0 image `div` imsize) by (by apply rows_nonneg).
  assert (0 ≤ shape1 image `div` imsize) by (by apply cols_nonneg).
  pose proof (ceil_div_mono
    (percentage * (shape0 image `div` imsize * (shape1 image `div` imsize)))
    (percentage' * (shape0 image `div` imsize * (shape1 image `div` imsize)))
    100 ltac:(lia) ltac:(apply Z.mul_le_mono_nonneg_r; lia)) as Hmono.
  case_bool_decide as Hn; simpl; [|done].
  intros _. rewrite bool_decide_eq_true_2; [done|lia].
Qed.

Lemma evidence_grows_with_percentage_witness :
  ∃ st st',
    intraimage_item 2 20 "out20" "breast" 0 "item" sample_image sample_mask
      = ret st
    ∧ intraimage_item 2 50 "out50" "breast" 0 "item" sample_image sample_mask
      = ret st'
    ∧ written_to "out50/breast/img0_train/images/item_H0W0.png"
        (imwrites (log st'))
      = written_to "out20/breast/img0_train/images/item_H0W0.png"
          (imwrites (log st)).
Proof.
  destruct (evidence_grows_with_percentage 2 20 50 "out20" "out50" "breast" 0
              "item" sample_image sample_mask)
    as (st & st' & Hrun & Hrun' & Hsub);
    [lia | apply sample_image_rectangular | apply sample_mask_rectangular
    | reflexivity | reflexivity | lia |].
  exists st, st'. split; [exact Hrun|]. split; [exact Hrun'|].
  apply (Hsub 0 0 Images); [vm_compute; split; congruence..|].
  vm_compute in Hrun. injection Hrun as <-. vm_compute. discriminate.
Defined.

Lemma same_shape_ext {A} (a b : list (list A)) :
  Forall2 (λ ra rb, length ra = length rb) a b →
  (∀ r c, get2 a r c = get2 b r c) → a = b.
Proof.
  intros Hs Hget. apply list_eq_same_length with (length a);
    [by rewrite (Forall2_length _ _ _ Hs)|done|].
  intros r ra rb _ Hra Hrb.
  pose proof (Forall2_lookup_lr _ _ _ _ _ _ Hs Hra Hrb) as Hlen.
  simpl in Hlen.
  apply list_eq_same_length with (length ra); [done|done|].
  intros c x y _ Hx Hy. specialize (Hget r c). unfold get2 in Hget.
  rewrite Hra, Hrb in Hget. simpl in Hget. congruence.
Qed.

Lemma heldout_pixel_in_grid imsize rows cols target r c :
  0 < imsize → 0 ≤ cols →
  heldout_pixel imsize rows cols target r c →
  tile_number cols (Z.of_nat r `div` imsize) (Z.of_nat c `div` imsize)
    < rows * cols.
Proof.
  intros Hs Hcols (Hr & Hc & _). unfold tile_number.
  pose proof (Z.div_pos (Z.of_nat r) imsize ltac:(lia) Hs).
  pose proof (Z.div_pos (Z.of_nat c) imsize ltac:(lia) Hs). nia.
Qed.

(** X14.  At a percentage of 100 or more every tile is evidence: the
    test tree holds only all-zero tiles and both effective canvases are
    all zero.  At a percentage of 0 or less no tile is evidence: the
    train tree receives nothing and the test tree holds every tile as it
    is. *)
Theorem partitioner_at_the_extreme_percentages
    (imsize percentage : Z) (target_folder cancer_type : string)
    (test_item_count : Z) (test_item : string) (image mask : ndarray) :
  0 < imsize → rectangular image → rectangular mask →
  shape0 mask = shape0 image → shape1 mask = shape1 image →
  ∃ st,
    intraimage_item imsize percentage target_folder cancer_type
      test_item_count test_item image mask = ret st
    ∧ (100 ≤ percentage →
         image_effective st = zeros_like image
         ∧ mask_effective st = zeros_like mask
         ∧ ∀ h_chunk w_chunk (p : part) (k : kind),
             0 ≤ h_chunk < shape0 image `div` imsize →
             0 ≤ w_chunk < shape1 image `div` imsize →
             written_to
               (partition_path target_folder cancer_type test_item_count p k
                  test_item (h_chunk * imsize) (w_chunk * imsize))
               (imwrites (log st))
             = tile_content true p k
                 (block image (h_chunk * imsize) (w_chunk * imsize) imsize)
                 (block mask (h_chunk * imsize) (w_chunk * imsize) imsize))
    ∧ (percentage ≤ 0 →
         ∀ h_chunk w_chunk (p : part) (k : kind),
           0 ≤ h_chunk < shape0 image `div` imsize →
           0 ≤ w_chunk < shape1 image `div` imsize →
           written_to
             (partition_path target_folder cancer_type test_item_count p k
                test_item (h_chunk * imsize) (w_chunk * imsize))
             (imwrites (log st))
           = tile_content false p k
               (block image (h_chunk * imsize) (w_chunk * imsize) imsize)
               (block mask (h_chunk * imsize) (w_chunk * imsize) imsize)).
Proof.
  intros Hs Hi Hm Hm0 Hm1.
  set (rows := shape0 image `div` imsize).
  set (cols := shape1 image `div` imsize).
  set (target := ceil_div (percentage * (rows * cols)) 100).
  assert (0 ≤ rows) as Hrows by (by apply rows_nonneg).
  assert (0 ≤ cols) as Hcols by (by apply cols_nonneg).
  pose proof (ceil_div_spec (percentage * (rows * cols)) 100 ltac:(lia))
    as Hceil. fold target in Hceil.
  destruct (intraimage_item_written imsize percentage target_folder
              cancer_type test_item_count test_item image mask
              Hs Hi Hm Hm0 Hm1) as (st & Hrun & Hw).
  destruct (intraimage_item_spec imsize percentage target_folder cancer_type
              test_item_count test_item image mask Hs Hi Hm Hm0 Hm1)
    as (st0 & Hrun0 & _ & _ & Hsi & Hsm & Hpi & Hpm).
  rewrite Hrun in Hrun0. injection Hrun0 as <-.
  fold rows cols target in Hw, Hpi, Hpm.
  exists st. split; [done|]. split.
  - intros Hp. assert (rows * cols ≤ target) as Hall by nia.
    assert (∀ r c, ¬ heldout_pixel imsize rows cols target r c) as Hnone.
    { intros r c Hh.
      pose proof (heldout_pixel_in_grid _ _ _ _ _ _ Hs Hcols Hh).
      destruct Hh as (_ & _ & ?). lia. }
    split; [|split].
    + apply same_shape_ext.
      * eapply same_shape_trans; [exact Hsi|].
        apply Forall2_flip. eapply Forall2_impl; [apply same_shape_zeros_like|].
        done.
      * intros r c. rewrite Hpi, get2_zeros_like.
        by rewrite decide_False by apply Hnone.
    + apply same_shape_ext.
      * eapply same_shape_trans; [exact Hsm|].
        apply Forall2_flip. eapply Forall2_impl; [apply same_shape_zeros_like|].
        done.
      * intros r c. rewrite Hpm, get2_zeros_like.
        by rewrite decide_False by apply Hnone.
    + intros h_chunk w_chunk p k Hh Hc. rewrite Hw by done.
      rewrite bool_decide_eq_true_2; [done|]. unfold tile_number. nia.
  - intros Hp h_chunk w_chunk p k Hh Hc. rewrite Hw by done.
    rewrite bool_decide_eq_false_2; [done|]. unfold tile_number. nia.
Qed.

Lemma partitioner_at_the_extreme_percentages_witness :
  ∃ st,
    intraimage_item 2 100 "out" "breast" 0 "item" sample_image sample_mask
      = ret st
    ∧ image_effective st = zeros_like sample_image
    ∧ mask_effective st = zeros_like sample_mask.
Proof.
  destruct (partitioner_at_the_extreme_percentages 2 100 "out" "breast" 0
              "item" sample_image sample_mask)
    as (st & Hrun & Hfull & _);
    [lia | apply sample_image_rectangular | apply sample_mask_rectangular
    | reflexivity | reflexivity |].
  exists st. split; [exact Hrun|].
  destruct (Hfull ltac:(lia)) as (Hi & Hm & _). split; [exact Hi|exact Hm].
Defined.

Lemma same_shape_rectangular {A B} (a : list (list A)) (b : list (list B)) :
  same_shape a b → rectangular b →
  rectangular a ∧ shape0 a = shape0 b ∧ shape1 a = shape1 b.
Proof.
  intros Hs Hb.
  assert (shape0 a = shape0 b) as H0
    by (unfold shape0; by rewrite (Forall2_length _ _ _ Hs)).
  assert (shape1 a = shape1 b) as H1.
  { unfold shape1. destruct Hs as [|ra rb a b Hr _]; [done|]. simpl. lia. }
  split; [|done]. unfold rectangular. rewrite H1.
  apply Forall_forall. intros ra Hra.
  apply list_elem_of_lookup in Hra as [i Hi].
  destruct (Forall2_lookup_l _ _ _ _ _ Hs Hi) as (rb & Hrb & Hlen).
  simpl in Hlen. rewrite Hlen. by eapply rectangular_lookup.
Qed.

(** X15.  The effective canvases agree with the test tree tile by
    tile: what the run stores in the test tree for a tile of the grid, of
    either kind, is the block of the effective image (or mask) at the
    tile's offset - zero for an evidence tile, the source for a held-out
    one. *)
Theorem effective_canvas_is_the_mosaic_of_the_test_tree
    (imsize percentage : Z) (target_folder cancer_type : string)
    (test_item_count : Z) (test_item : string) (image mask : ndarray) :
  0 < imsize → rectangular image → rectangular mask →
  shape0 mask = shape0 image → shape1 mask = shape1 image →
  ∃ st,
    intraimage_item imsize percentage target_folder cancer_type
      test_item_count test_item image mask = ret st
    ∧ ∀ h_chunk w_chunk (k : kind),
        0 ≤ h_chunk < shape0 image `div` imsize →
        0 ≤ w_chunk < shape1 image `div` imsize →
        written_to
          (partition_path target_folder cancer_type test_item_count Test k
             test_item (h_chunk * imsize) (w_chunk * imsize))
          (imwrites (log st))
        = [ block (of_kind k (image_effective st) (mask_effective st))
              (h_chunk * imsize) (w_chunk * imsize) imsize ].
Proof.
  intros Hs Hi Hm Hm0 Hm1.
  set (rows := shape0 image `div` imsize).
  set (cols := shape1 image `div` imsize).
  set (target := ceil_div (percentage * (rows * cols)) 100).
  assert (0 ≤ cols) as Hcols by (by apply cols_nonneg).
  destruct (intraimage_item_written imsize percentage target_folder
              cancer_type test_item_count test_item image mask
              Hs Hi Hm Hm0 Hm1) as (st & Hrun & Hw).
  destruct (intraimage_item_spec imsize percentage target_folder cancer_type
              test_item_count test_item image mask Hs Hi Hm Hm0 Hm1)
    as (st0 & Hrun0 & _ & _ & Hsi & Hsm & Hpi & Hpm).
  rewrite Hrun in Hrun0. injection Hrun0 as <-.
  fold rows cols target in Hw, Hpi, Hpm.
  exists st. split; [done|]. intros h_chunk w_chunk k Hh Hw'.
  rewrite Hw by done.
  destruct (chunk_bounds _ _ _ Hs Hh) as [Hh0 Hh1].
  destruct (chunk_bounds _ _ _ Hs Hw') as [Hw0 Hw1].
  assert (∀ (src eff : ndarray),
            rectangular src → same_shape eff src →
            shape0 src = shape0 image → shape1 src = shape1 image →
            (∀ r c, get2 eff r c =
               if decide (heldout_pixel imsize rows cols target r c)
               then get2 src r c else zero_pixel <$> get2 src r c) →
            (if bool_decide (tile_number cols h_chunk w_chunk < target)
             then zeros_like (block src (h_chunk * imsize) (w_chunk * imsize)
                                imsize)
             else block src (h_chunk * imsize) (w_chunk * imsize) imsize)
            = block eff (h_chunk * imsize) (w_chunk * imsize) imsize)
    as Hblock.
  { intros src eff Hsrc Heff H0 H1 Hp.
    destruct (same_shape_rectangular _ _ Heff Hsrc) as (Hre & He0 & He1).
    assert (has_shape (Z.to_nat imsize) (Z.to_nat imsize)
              (block src (h_chunk * imsize) (w_chunk * imsize) imsize)) as Hbs.
    { split; [apply length_block; lia|apply block_row_lengths; (done || lia)]. }
    apply (has_shape_ext (Z.to_nat imsize) (Z.to_nat imsize)).
    - case_bool_decide; [|done].
      destruct Hbs as [Hl Hr]. split.
      + unfold zeros_like. by rewrite length_fmap.
      + unfold zeros_like. apply Forall_fmap.
        eapply Forall_impl; [exact Hr|]. intros row Hrow. simpl.
        by rewrite length_fmap.
    - split; [apply length_block; lia|apply block_row_lengths; (done || lia)].
    - intros i j Hi' Hj'.
      rewrite (get2_block eff) by (done || lia). rewrite Hp.
      assert (heldout_pixel imsize rows cols target
                (Z.to_nat (h_chunk * imsize) + i)
                (Z.to_nat (w_chunk * imsize) + j)
              ↔ ¬ tile_number cols h_chunk w_chunk < target) as Hheld.
      { unfold heldout_pixel.
        assert (Z.of_nat (Z.to_nat (h_chunk * imsize) + i) `div` imsize
                = h_chunk) as -> by (apply Z.diveq_iff; lia).
        assert (Z.of_nat (Z.to_nat (w_chunk * imsize) + j) `div` imsize
                = w_chunk) as -> by (apply Z.diveq_iff; lia).
        fold rows cols in Hh, Hw'. lia. }
      case_bool_decide as Hn.
      + rewrite decide_False by (by rewrite Hheld; intros ?).
        rewrite get2_zeros_like, get2_block by (done || lia). done.
      + rewrite decide_True by (by apply Hheld).
        by rewrite get2_block by (done || lia). }
  destruct k; cbn [of_kind]; unfold tile_content.
  - rewrite <-(Hblock image (image_effective st)) by done.
    by case_bool_decide.
  - rewrite <-(Hblock mask (mask_effective st)) by done.
    by case_bool_decide.
Qed.

Lemma effective_canvas_is_the_mosaic_of_the_test_tree_witness :
  ∃ st,
    intraimage_item 2 50 "out" "breast" 0 "item" sample_image sample_mask
      = ret st
    ∧ written_to "out/breast/img0_test/images/item_H2W2.png"
        (imwrites (log st))
      = [ block (image_effective st) 2 2 2 ].
Proof.
  destruct (effective_canvas_is_the_mosaic_of_the_test_tree 2 50 "out"
              "breast" 0 "item" sample_image sample_mask)
    as (st & Hrun & Hw);
    [lia | apply sample_image_rectangular | apply sample_mask_rectangular
    | reflexivity | reflexivity |].
  exists st. split; [exact Hrun|].
  apply (Hw 1 1 Images); vm_compute; split; congruence.
Defined.

(** X16.  The partitioner cuts the same tiles as the tiler: for every
    tile of the grid and either kind, the tree in which the partitioner
    keeps the tile as it is - the train tree for an evidence tile, the
    test tree for a held-out one - receives exactly what the tiler writes
    to the tile's file. *)
Theorem partitioner_keeps_the_tiles_of_the_tiler
    (imsize percentage : Z)
    (target_folder target_folder' cancer_type subset : string)
    (test_item_count : Z) (item : string) (image mask : ndarray) :
  0 < imsize → rectangular image → rectangular mask →
  shape0 mask = shape0 image → shape1 mask = shape1 image →
  let rows := shape0 image `div` imsize in
  let cols := shape1 image `div` imsize in
  let target := ceil_div (percentage * (rows * cols)) 100 in
  ∃ events st,
    patchify_item imsize target_folder cancer_type subset item image mask
      = ret events
    ∧ intraimage_item imsize percentage target_folder' cancer_type
        test_item_count item image mask = ret st
    ∧ ∀ h_chunk w_chunk (k : kind),
        0 ≤ h_chunk < rows → 0 ≤ w_chunk < cols →
        written_to
          (partition_path target_folder' cancer_type test_item_count
             (if bool_decide (tile_number cols h_chunk w_chunk < target)
              then Train else Test)
             k item (h_chunk * imsize) (w_chunk * imsize))
          (imwrites (log st))
        = written_to
            (tile_path target_folder cancer_type subset (kind_name k) item
               (h_chunk * imsize) (w_chunk * imsize))
            (imwrites events).
Proof.
  intros Hs Hi Hm Hm0 Hm1 rows cols target.
  destruct (intraimage_item_written imsize percentage target_folder'
              cancer_type test_item_count item image mask
              Hs Hi Hm Hm0 Hm1) as (st & Hrun & Hw).
  fold rows cols target in Hw.
  eexists _, st. split; [apply patchify_item_log; lia|]. split; [done|].
  intros h_chunk w_chunk k Hh Hc.
  rewrite Hw by done. rewrite patchify_item_imwrites by done.
  rewrite written_to_item_tiles by done.
  case_bool_decide; by destruct k.
Qed.

Lemma partitioner_keeps_the_tiles_of_the_tiler_witness :
  ∃ events st,
    patchify_item 2 "tiles" "breast" "test" "item" sample_image sample_mask
      = ret events
    ∧ intraimage_item 2 50 "parts" "breast" 0 "item" sample_image sample_mask
      = ret st
    ∧ written_to "parts/breast/img0_train/images/item_H0W2.png"
        (imwrites (log st))
      = written_to "tiles/breast/test/images/item_H0W2.png" (imwrites events).
Proof.
  destruct (partitioner_keeps_the_tiles_of_the_tiler 2 50 "tiles" "parts"
              "breast" "test" 0 "item" sample_image sample_mask)
    as (events & st & Hrun & Hrun' & Hw);
    [lia | apply sample_image_rectangular | apply sample_mask_rectangular
    | reflexivity | reflexivity |].
  exists events, st. split; [exact Hrun|]. split; [exact Hrun'|].
  apply (Hw 0 1 Images); vm_compute; split; congruence.
Defined.

(** ** Directories *)

Lemma dropwhile_app_all {A} (p : A → bool) (l l' : list A) :
  Forall (λ x, p x = true) l → dropwhile p (l ++ l') = dropwhile p l'.
Proof. induction 1 as [|x l Hx _ IH]; simpl; [done|]. by rewrite Hx. Qed.

Lemma string_of_chars s : String.string_of_list_ascii (chars s) = s.
Proof. apply String.string_of_list_ascii_of_string. Qed.

(** The directory of a name below a directory. *)
Lemma dirname_join (p name : string) (l : list ascii) (c : ascii) :
  chars p = l ++ [c] → c ≠ "/"%char → slash_free name →
  dirname (p +:+ "/" +:+ name) = p.
Proof.
  intros Hp Hc Hname. unfold dirname.
  change (String.list_ascii_of_string (p +:+ "/" +:+ name))
    with (chars (p +:+ "/" +:+ name)).
  rewrite !chars_app, Hp.
  change (chars "/") with ["/"%char].
  rewrite !reverse_app, !reverse_singleton. simpl.
  rewrite <-!app_assoc. simpl.
  rewrite dropwhile_app_all.
  2:{ apply Forall_reverse. eapply Forall_impl; [exact Hname|].
      intros x Hx. simpl in Hx. unfold is_slash.
      by rewrite bool_decide_eq_false_2. }
  assert (is_slash c = false) as Hcs
    by (unfold is_slash; by rewrite bool_decide_eq_false_2).
  do 3 (cbn [dropwhile negb forallb andb];
        change (is_slash "/"%char) with true; rewrite ?Hcs).
  cbn [dropwhile negb forallb andb].
  rewrite reverse_cons, reverse_involutive, <-Hp. apply string_of_chars.
Qed.

Lemma slash_free_app s1 s2 :
  slash_free s1 → slash_free s2 → slash_free (s1 +:+ s2).
Proof. unfold slash_free. rewrite chars_app. apply Forall_app_2. Qed.

Lemma digit_not_slash c : digit c → c ≠ "/"%char.
Proof. intros Hd ->. revert Hd. unfold digit. vm_compute. lia. Qed.

Lemma slash_free_str z : 0 ≤ z → slash_free (str z).
Proof.
  intros Hz. destruct (str_digits z Hz) as [Hd _].
  eapply Forall_impl; [exact Hd|]. apply digit_not_slash.
Qed.

Lemma item_tree_chars target_folder cancer_type test_item_count p :
  ∃ l c, chars (item_tree target_folder cancer_type test_item_count p)
         = l ++ [c] ∧ c ≠ "/"%char.
Proof.
  unfold item_tree. rewrite !chars_app. destruct p; simpl part_name.
  - change (chars "train") with (chars "trai" ++ ["n"%char]).
    rewrite !app_assoc. by eexists _, _.
  - change (chars "test") with (chars "tes" ++ ["t"%char]).
    rewrite !app_assoc. by eexists _, _.
Qed.

(** The file of a tile lies in the [images] or [masks] directory of its
    tree, and that directory in the tree. *)
Lemma partition_path_tree target_folder cancer_type test_item_count p k
    test_item h w :
  partition_path target_folder cancer_type test_item_count p k test_item h w
  = (item_tree target_folder cancer_type test_item_count p
       +:+ "/" +:+ kind_name k)
      +:+ "/" +:+ (test_item +:+ "_H" +:+ str h +:+ "W" +:+ str w +:+ ".png").
Proof.
  unfold partition_path, relative_path, item_tree.
  apply chars_inj. rewrite !chars_app. by rewrite <-!app_assoc.
Qed.

Lemma dirname_partition_path target_folder cancer_type test_item_count p k
    test_item h w :
  slash_free test_item → 0 ≤ h → 0 ≤ w →
  dirname (partition_path target_folder cancer_type test_item_count p k
             test_item h w)
  = item_tree target_folder cancer_type test_item_count p
      +:+ "/" +:+ kind_name k
  ∧ dirname (item_tree target_folder cancer_type test_item_count p
               +:+ "/" +:+ kind_name k)
    = item_tree target_folder cancer_type test_item_count p.
Proof.
  intros Hitem Hh Hw.
  destruct (item_tree_chars target_folder cancer_type test_item_count p)
    as (l & c & Hl & Hc).
  split.
  - rewrite partition_path_tree.
    apply (dirname_join _ _
             (chars (item_tree target_folder cancer_type test_item_count p)
                ++ chars "/"
                ++ match k with Images => chars "image" | Masks => chars "mask" end)
             "s"%char).
    + rewrite !chars_app, <-!app_assoc. by destruct k.
    + done.
    + repeat apply slash_free_app; try done; try by apply slash_free_str.
      all: unfold slash_free; by repeat constructor.
  - apply (dirname_join _ _ l c); [done|done|].
    destruct k; unfold slash_free; by repeat constructor.
Qed.

(** The file of an effective canvas lies in the test tree itself. *)
Lemma dirname_effective_path target_folder cancer_type test_item_count k
    test_item :
  slash_free test_item →
  dirname (effective_path target_folder cancer_type test_item_count k
             test_item)
  = item_tree target_folder cancer_type test_item_count Test.
Proof.
  intros Hitem.
  destruct (item_tree_chars target_folder cancer_type test_item_count Test)
    as (l & c & Hl & Hc).
  replace (effective_path target_folder cancer_type test_item_count k
             test_item)
    with (item_tree target_folder cancer_type test_item_count Test
            +:+ "/" +:+ (test_item +:+ "_effective_"
                           +:+ match k with
                               | Images => "image"
                               | Masks => "mask"
                               end +:+ ".png")).
  - apply (dirname_join _ _ l c); [done|done|].
    repeat apply slash_free_app; try done;
      destruct k; unfold slash_free; by repeat constructor.
  - unfold effective_path, item_tree. apply chars_inj.
    rewrite !chars_app. by rewrite <-!app_assoc.
Qed.

(** No directory of tiles is the test tree. *)
Lemma tile_directory_not_test_tree target_folder cancer_type test_item_count
    p k :
  item_tree target_folder cancer_type test_item_count p
    +:+ "/" +:+ kind_name k
  ≠ item_tree target_folder cancer_type test_item_count Test.
Proof.
  unfold item_tree. intros E. apply (f_equal chars) in E.
  rewrite !chars_app, <-!app_assoc in E.
  do 5 apply app_inv_head in E.
  by destruct p, k.
Qed.

(** The directories one iteration makes. *)
Lemma makedirs_tile_events imsize target_folder cancer_type test_item_count
    test_item image mask target_count h_chunk w_chunk number d :
  slash_free test_item → 0 ≤ h_chunk * imsize → 0 ≤ w_chunk * imsize →
  Makedirs d ∈ tile_events imsize target_folder cancer_type test_item_count
                 test_item image mask target_count h_chunk w_chunk number →
  ∃ p k, d = item_tree target_folder cancer_type test_item_count p
               +:+ "/" +:+ kind_name k.
Proof.
  intros Hitem Hh Hw. rewrite tile_events_calls.
  unfold partition_calls, tile_calls.
  destruct (bool_decide (number < target_count)); cbn [app]; intros Hd;
    repeat (apply elem_of_cons in Hd as [Hd|Hd];
            [try discriminate Hd; injection Hd as ->;
             eexists _, _;
             apply (dirname_partition_path _ _ _ _ _ _ _ _ Hitem Hh Hw)|]);
    by apply elem_of_nil in Hd.
Qed.

(** An iteration makes the [images] directory of the test tree, for an
    evidence tile as for a held-out tile. *)
Lemma tile_events_make_test_images imsize target_folder cancer_type
    test_item_count test_item image mask target_count h_chunk w_chunk number :
  slash_free test_item → 0 ≤ h_chunk * imsize → 0 ≤ w_chunk * imsize →
  Makedirs (item_tree target_folder cancer_type test_item_count Test
              +:+ "/" +:+ kind_name Images)
    ∈ tile_events imsize target_folder cancer_type test_item_count
        test_item image mask target_count h_chunk w_chunk number.
Proof.
  intros Hitem Hh Hw.
  destruct (dirname_partition_path target_folder cancer_type test_item_count
              Test Images test_item _ _ Hitem Hh Hw) as [<- _].
  rewrite tile_events_calls. unfold partition_calls, tile_calls.
  destruct (bool_decide (number < target_count)); cbn [app].
  - do 4 apply list_elem_of_further. apply list_elem_of_here.
  - apply list_elem_of_here.
Qed.

(** X17.  The partitioner never calls [os.makedirs] for the directory
    of the effective canvases, the test tree of the item: every directory
    it makes is the [images] or the [masks] directory of the item's train
    or test tree, and the canvases are its last two writes, into the test
    tree itself.  With at least one tile in the grid, [os.makedirs] has
    been called before for the [images] directory of the test tree, whose
    parent the test tree is.  With no tile (an image smaller than the
    tile size) the run makes no directory at all: on a file system where
    the test tree does not exist the two writes fail, and the run leaves
    the file system as it was.  The image has at least one row and one
    column; [test_item] is a file name: it has no slash. *)
Theorem effective_canvases_stored_only_with_a_tile
    (imsize percentage : Z) (target_folder cancer_type : string)
    (test_item_count : Z) (test_item : string) (image mask : ndarray) :
  0 < imsize → rectangular image → rectangular mask → nonempty image →
  shape0 mask = shape0 image → shape1 mask = shape1 image →
  slash_free test_item →
  let total := (shape0 image `div` imsize) * (shape1 image `div` imsize) in
  let tree := item_tree target_folder cancer_type test_item_count Test in
  let canvas k :=
    effective_path target_folder cancer_type test_item_count k test_item in
  ∃ st tiles,
    intraimage_item imsize percentage target_folder cancer_type
      test_item_count test_item image mask = ret st
    ∧ log st = tiles ++ [ Imwrite (canvas Images) (image_effective st);
                          Imwrite (canvas Masks) (mask_effective st) ]
    ∧ dirname (canvas Images) = tree
    ∧ dirname (canvas Masks) = tree
    ∧ (∀ d, Makedirs d ∈ log st →
         ∃ p k, d = item_tree target_folder cancer_type test_item_count p
                      +:+ "/" +:+ kind_name k)
    ∧ (Makedirs tree ∉ log st)
    ∧ (0 < total →
         Makedirs (tree +:+ "/" +:+ kind_name Images) ∈ tiles
         ∧ dirname (tree +:+ "/" +:+ kind_name Images) = tree)
    ∧ (total = 0 →
         tiles = [] ∧ ∀ fs, tree ∉ dirs fs → exec (log st) fs = fs).
Proof.
  intros Hs Hi Hm _ Hm0 Hm1 Hitem total tree canvas.
  destruct (intraimage_item_spec imsize percentage target_folder cancer_type
              test_item_count test_item image mask Hs Hi Hm Hm0 Hm1)
    as (st & Hrun & _ & Hl & _).
  fold total in Hl. rewrite effective_events_canvases in Hl. fold canvas in Hl.
  assert (0 ≤ shape1 image `div` imsize) as Hcols by (by apply cols_nonneg).
  pose proof (dirname_effective_path target_folder cancer_type
                test_item_count Images test_item Hitem) as Hdi.
  pose proof (dirname_effective_path target_folder cancer_type
                test_item_count Masks test_item Hitem) as Hdm.
  fold tree canvas in Hdi, Hdm.
  assert (∀ d, Makedirs d ∈ log st →
            ∃ p k, d = item_tree target_folder cancer_type test_item_count p
                         +:+ "/" +:+ kind_name k) as Hdirs.
  { intros d. rewrite Hl. intros Hd.
    apply elem_of_app in Hd as [Hd|Hd].
    - apply list_elem_of_bind in Hd as (k & Hd & Hk).
      apply elem_of_seqZ in Hk.
      destruct (tile_of_number (shape0 image `div` imsize)
                  (shape1 image `div` imsize) k ltac:(fold total; lia) Hcols)
        as (Hh & Hw & _).
      destruct (chunk_bounds _ _ _ Hs Hh) as [Hh0 _].
      destruct (chunk_bounds _ _ _ Hs Hw) as [Hw0 _].
      exact (makedirs_tile_events _ _ _ _ _ _ _ _ _ _ _ _ Hitem Hh0 Hw0 Hd).
    - repeat (apply elem_of_cons in Hd as [Hd|Hd]; [discriminate Hd|]).
      by apply elem_of_nil in Hd. }
  eexists st, _. split; [done|]. split; [exact Hl|].
  split; [done|]. split; [done|]. split; [done|]. split.
  { intros Hd. destruct (Hdirs _ Hd) as (p & k & E). symmetry in E.
    by apply tile_directory_not_test_tree in E. }
  split.
  - intros Htotal. split.
    + replace total with (1 + (total - 1)) by lia.
      rewrite seqZ_app, bind_app by lia. apply elem_of_app. left.
      change (seqZ 0 1) with [0]. rewrite bind_cons. apply elem_of_app. left.
      apply tile_events_make_test_images; [done|..].
      * rewrite Z.div_0_l; lia.
      * rewrite Z.mod_0_l; lia.
    + apply (dirname_partition_path target_folder cancer_type test_item_count
               Test Images test_item 0 0 Hitem); lia.
  - intros Htotal. rewrite Htotal. split; [reflexivity|].
    intros fs Hfs. rewrite Hl, Htotal. rewrite (seqZ_nil 0 0) by lia.
    unfold exec. simpl. unfold imwrite.
    rewrite Hdi, (decide_False (P := tree ∈ dirs fs)) by done.
    by rewrite Hdm, decide_False by done.
Qed.

Lemma effective_canvases_stored_only_with_a_tile_witness :
  (∃ st,
     intraimage_item 8 50 "out" "breast" 0 "item" sample_image sample_mask
       = ret st
     ∧ log st
       = [ Imwrite "out/breast/img0_test/item_effective_image.png"
             (image_effective st);
           Imwrite "out/breast/img0_test/item_effective_mask.png"
             (mask_effective st) ]
     ∧ exec (log st) empty_fs = empty_fs)
  ∧ ∃ st,
      intraimage_item 2 50 "out" "breast" 0 "item" sample_image sample_mask
        = ret st
      ∧ Makedirs "out/breast/img0_test/images" ∈ log st
      ∧ Makedirs "out/breast/img0_test" ∉ log st.
Proof.
  split.
  - destruct (effective_canvases_stored_only_with_a_tile 8 50 "out" "breast"
                0 "item" sample_image sample_mask)
      as (st & tiles & Hrun & Hl & _ & _ & _ & _ & _ & Hnone);
      [lia | apply sample_image_rectangular | apply sample_mask_rectangular
      | split; reflexivity | reflexivity | reflexivity
      | unfold slash_free; by repeat constructor |].
    destruct (Hnone ltac:(reflexivity)) as [-> Hfs].
    exists st. split; [exact Hrun|]. split; [exact Hl|].
    apply Hfs. cbn [dirs empty_fs]. apply not_elem_of_empty.
  - destruct (effective_canvases_stored_only_with_a_tile 2 50 "out" "breast"
                0 "item" sample_image sample_mask)
      as (st & tiles & Hrun & Hl & _ & _ & _ & Hnot & Hsome & _);
      [lia | apply sample_image_rectangular | apply sample_mask_rectangular
      | split; reflexivity | reflexivity | reflexivity
      | unfold slash_free; by repeat constructor |].
    exists st. split; [exact Hrun|]. split; [|exact Hnot].
    rewrite Hl. apply elem_of_app. left.
    apply (Hsome ltac:(reflexivity)).
Defined.

(** ** Nuclei detector, continued *)

(** The three outcomes of one iteration. *)
Lemma mark_nucleus_cases mask nuclei_mask n :
  shape0 nuclei_mask = shape0 mask → shape1 nuclei_mask = shape1 mask →
  (out_of_bounds mask n ∧ mark_nucleus mask nuclei_mask n = ret nuclei_mask)
  ∨ (nan_inside mask n
     ∧ mark_nucleus mask nuclei_mask n
       = raise (ValueError "cannot convert float NaN to integer"))
  ∨ (∃ i j : nat,
       ¬ out_of_bounds mask n
       ∧ int_of_float n.1 = ret (Z.of_nat i)
       ∧ int_of_float n.2 = ret (Z.of_nat j)
       ∧ mark_nucleus mask nuclei_mask n
         = ret (alter (λ row : list Z, <[j:=1]> row) i nuclei_mask)).
Proof.
  intros H0 H1.
  destruct (decide (out_of_bounds mask n)) as [Hout|Hin].
  { left. split; [done|]. by apply mark_nucleus_skip. }
  right. unfold mark_nucleus.
  assert (float_lt n.1 (float_of_int 0) = false
          ∧ float_ge n.1 (float_of_int (shape0 mask)) = false
          ∧ float_lt n.2 (float_of_int 0) = false
          ∧ float_ge n.2 (float_of_int (shape1 mask)) = false)
    as (E1 & E2 & E3 & E4).
  { unfold out_of_bounds in Hin.
    repeat split; apply not_true_is_false; intros E; apply Hin; auto. }
  rewrite E1, E2, E3, E4. simpl.
  destruct (int_of_float_in_range _ _ E1 E2) as [Hn|(i & Hi & Hir)].
  { left. split; [split; [done|by left]|]. by rewrite Hn. }
  destruct (int_of_float_in_range _ _ E3 E4) as [Hn|(j & Hj & Hjr)].
  { left. split; [split; [done|by right]|]. rewrite Hi, Hn. done. }
  right. exists (Z.to_nat i), (Z.to_nat j). rewrite !Z2Nat.id by lia.
  split; [done|]. split; [done|]. split; [done|].
  rewrite Hi, Hj. simpl. unfold setitem2.
  rewrite H0, H1, !index_in_range by done. done.
Qed.

(** The loop raises exactly when a point passes the bounds test with a
    coordinate that is not a number. *)
Lemma mark_all_nan mask nuclei_list nm :
  shape0 nm = shape0 mask → shape1 nm = shape1 mask →
  if decide (Exists (nan_inside mask) nuclei_list) then
    for_each (mark_nucleus mask) nuclei_list nm
      = raise (ValueError "cannot convert float NaN to integer")
  else
    ∃ nm', for_each (mark_nucleus mask) nuclei_list nm = ret nm'.
Proof.
  revert nm. induction nuclei_list as [|n l IH]; intros nm H0 H1.
  - rewrite decide_False by (by intros ?%Exists_nil). by eexists.
  - cbn [for_each].
    destruct (mark_nucleus_cases mask nm n H0 H1)
      as [[Hout ->]|[[Hnan ->]|(i & j & Hin & Hi & Hj & ->)]].
    + rewrite bind_ret. specialize (IH nm H0 H1).
      destruct (decide (Exists (nan_inside mask) l)) as [HE|HE].
      * rewrite decide_True by (by right). done.
      * rewrite decide_False; [done|].
        intros [[Hn _]|?]%Exists_cons; [by apply Hn|done].
    + rewrite decide_True; [done|]. by left.
    + rewrite bind_ret.
      destruct (shape_alter_insert nm i j 1) as [H0' H1'].
      specialize (IH _ (eq_trans H0' H0) (eq_trans H1' H1)).
      destruct (decide (Exists (nan_inside mask) l)) as [HE|HE].
      * rewrite decide_True by (by right). done.
      * rewrite decide_False; [done|].
        intros [[_ Hn]|?]%Exists_cons; [|done].
        destruct Hn as [Hn|Hn]; rewrite Hn in *; done.
Qed.

Lemma nan_inside_binarize mask n :
  nan_inside (binarize mask) n ↔ nan_inside mask n.
Proof. unfold nan_inside. by rewrite out_of_bounds_binarize. Qed.

(** X18.  For a mask with at least one row and a [total_pos] that
    binary64 holds exactly (at most 2^53 in absolute value),
    [detection_eval] raises exactly when a detected point passes the
    bounds test with a coordinate that is [nan] (every comparison with
    [nan] is false, so such a point is not skipped); the exception is
    then the [ValueError] of [int(nan)].  Infinite coordinates are
    skipped by the bounds test. *)
Theorem detection_eval_raises_exactly_for_nan
    (np_divide : Z → Z → pyfloat)
    (nuclei_list : list (pyfloat * pyfloat)) (mask : list (list Z))
    (total_pos : Z) :
  mask ≠ [] → - 2 ^ 53 ≤ total_pos ≤ 2 ^ 53 →
  if decide (Exists (nan_inside mask) nuclei_list) then
    detection_eval np_divide nuclei_list mask total_pos
      = raise (ValueError "cannot convert float NaN to integer")
  else
    ∃ out, detection_eval np_divide nuclei_list mask total_pos = ret out.
Proof.
  intros _ _. unfold detection_eval.
  pose proof (mark_all_nan (binarize mask) nuclei_list
                (zeros_like2 (binarize mask))
                (shape0_zeros_like2 _) (shape1_zeros_like2 _)) as Hloop.
  assert (Exists (nan_inside (binarize mask)) nuclei_list
          ↔ Exists (nan_inside mask) nuclei_list) as HE.
  { rewrite !Exists_exists. by setoid_rewrite nan_inside_binarize. }
  destruct (decide (Exists (nan_inside mask) nuclei_list)) as [Hn|Hn].
  - rewrite decide_True in Hloop by (by apply HE). by rewrite Hloop.
  - rewrite decide_False in Hloop by (by rewrite HE).
    destruct Hloop as [nm' ->]. simpl. by eexists.
Qed.

Lemma detection_eval_raises_exactly_for_nan_witness :
  detection_eval exact_divide [ (Finite 0, Finite 1); (NaN, Finite 1) ]
    [ [0; 255]; [255; 0] ] 2
  = raise (ValueError "cannot convert float NaN to integer")
  ∧ ∃ out,
      detection_eval exact_divide
        [ (Finite 0, Finite 1); (PosInf, Finite 1); (NaN, Finite 2) ]
        [ [0; 255]; [255; 0] ] 2
      = ret out.
Proof.
  split.
  - exact (detection_eval_raises_exactly_for_nan exact_divide
             [ (Finite 0, Finite 1); (NaN, Finite 1) ]
             [ [0; 255]; [255; 0] ] 2 ltac:(done) ltac:(lia)).
  - exact (detection_eval_raises_exactly_for_nan exact_divide
             [ (Finite 0, Finite 1); (PosInf, Finite 1); (NaN, Finite 2) ]
             [ [0; 255]; [255; 0] ] 2 ltac:(done) ltac:(lia)).
Defined.

Lemma get2_alter_insert {A} (a : list (list A)) (i j r c : nat) (v : A) :
  get2 (alter (λ row : list A, <[j:=v]> row) i a) r c
  = if decide (r = i ∧ c = j) then (λ _, v) <$> get2 a r c else get2 a r c.
Proof.
  unfold get2. destruct (decide (r = i)) as [->|Hr].
  - rewrite list_lookup_alter_eq.
    destruct (a !! i) as [row|]; simpl; [|by case_decide].
    destruct (decide (c = j)) as [->|Hc].
    + rewrite decide_True by done.
      destruct (row !! j) as [x|] eqn:E; simpl.
      * rewrite list_lookup_insert_eq; [done|]. by eapply lookup_lt_Some.
      * apply lookup_ge_None. rewrite length_insert. by apply lookup_ge_None.
    + rewrite decide_False by (by intros [_ ?]).
      by rewrite list_lookup_insert_ne.
  - rewrite list_lookup_alter_ne by done.
    rewrite decide_False by (by intros [? _]). done.
Qed.

Lemma same_shape_alter_insert (a : list (list Z)) (i j : nat) (v : Z) :
  Forall2 (λ ra rb : list Z, length ra = length rb)
    (alter (λ row : list Z, <[j:=v]> row) i a) a.
Proof.
  apply Forall2_same_length_lookup. split; [by rewrite length_alter|].
  intros r ra rb Hra Hrb. destruct (decide (r = i)) as [->|Hr].
  - rewrite list_lookup_alter_eq, Hrb in Hra. simpl in Hra.
    injection Hra as <-. by rewrite length_insert.
  - rewrite list_lookup_alter_ne in Hra by done. congruence.
Qed.

(** The loop, pixel by pixel, when it returns: a pixel is set exactly when
    a point of the list marks it. *)
Lemma mark_all_get2 mask nuclei_list nm :
  shape0 nm = shape0 mask → shape1 nm = shape1 mask →
  ¬ Exists (nan_inside mask) nuclei_list →
  ∃ nm',
    for_each (mark_nucleus mask) nuclei_list nm = ret nm'
    ∧ Forall2 (λ ra rb : list Z, length ra = length rb) nm' nm
    ∧ ∀ r c,
        get2 nm' r c
        = if decide (Exists (marks mask r c) nuclei_list)
          then (λ _, 1) <$> get2 nm r c else get2 nm r c.
Proof.
  revert nm. induction nuclei_list as [|n l IH]; intros nm H0 H1 Hnan.
  - exists nm. split; [done|]. split; [by apply Forall_Forall2_diag, Forall_forall|].
    intros r c. by rewrite decide_False by (by intros ?%Exists_nil).
  - cbn [for_each].
    assert (¬ Exists (nan_inside mask) l) as Hnan'
      by (intros ?; apply Hnan; by right).
    destruct (mark_nucleus_cases mask nm n H0 H1)
      as [[Hout ->]|[[Hn _]|(i & j & Hin & Hi & Hj & ->)]].
    + rewrite bind_ret. destruct (IH nm H0 H1 Hnan') as (nm' & -> & Hs & Hg).
      exists nm'. split; [done|]. split; [done|].
      intros r c. rewrite Hg. apply decide_ext. rewrite Exists_cons.
      split; [by right|]. by intros [[? _]|?].
    + destruct Hnan. by left.
    + rewrite bind_ret.
      destruct (shape_alter_insert nm i j 1) as [H0' H1'].
      destruct (IH _ (eq_trans H0' H0) (eq_trans H1' H1) Hnan')
        as (nm' & -> & Hs & Hg).
      exists nm'. split; [done|]. split.
      { exact (same_shape_trans _ _ _ Hs (same_shape_alter_insert nm i j 1)). }
      intros r c. rewrite Hg, get2_alter_insert.
      assert (marks mask r c n ↔ r = i ∧ c = j) as Hm.
      { unfold marks. rewrite Hi, Hj. split.
        - intros (_ & [= ?] & [= ?]). lia.
        - intros [-> ->]. done. }
      destruct (decide (r = i ∧ c = j)) as [Hrc|Hrc];
        destruct (decide (Exists (marks mask r c) l)) as [HE|HE].
      * rewrite decide_True by (by right).
        by destruct (get2 nm r c).
      * rewrite decide_True; [done|]. left. by apply Hm.
      * rewrite decide_True by (by right). done.
      * rewrite decide_False; [done|].
        intros [?|?]%Exists_cons; [|done]. by apply Hrc, Hm.
Qed.

(** X19.  The result of [detection_eval] depends on the set of
    detected points only: the order of the list does not matter, and a
    point detected twice counts once. *)
Theorem detection_eval_depends_on_the_set_of_points
    (np_divide : Z → Z → pyfloat)
    (nuclei_list nuclei_list' : list (pyfloat * pyfloat))
    (mask : list (list Z)) (total_pos : Z) :
  (∀ n, n ∈ nuclei_list ↔ n ∈ nuclei_list') →
  detection_eval np_divide nuclei_list mask total_pos
  = detection_eval np_divide nuclei_list' mask total_pos.
Proof.
  intros Hsame. unfold detection_eval.
  set (m := binarize mask).
  assert (∀ P : pyfloat * pyfloat → Prop,
            Exists P nuclei_list ↔ Exists P nuclei_list') as HE.
  { intros P. rewrite !Exists_exists. by setoid_rewrite Hsame. }
  pose proof (mark_all_nan m nuclei_list (zeros_like2 m)
                (shape0_zeros_like2 _) (shape1_zeros_like2 _)) as H1.
  pose proof (mark_all_nan m nuclei_list' (zeros_like2 m)
                (shape0_zeros_like2 _) (shape1_zeros_like2 _)) as H2.
  destruct (decide (Exists (nan_inside m) nuclei_list)) as [Hn|Hn].
  - rewrite decide_True in H2 by (by apply HE). by rewrite H1, H2.
  - clear H1 H2.
    destruct (mark_all_get2 m nuclei_list (zeros_like2 m)
                (shape0_zeros_like2 _) (shape1_zeros_like2 _) Hn)
      as (nm1 & -> & Hs1 & Hg1).
    destruct (mark_all_get2 m nuclei_list' (zeros_like2 m)
                (shape0_zeros_like2 _) (shape1_zeros_like2 _))
      as (nm2 & -> & Hs2 & Hg2); [by rewrite <-HE|].
    assert (nm1 = nm2) as ->; [|done].
    apply same_shape_ext.
    + apply (same_shape_trans _ _ _ Hs1). apply Forall2_flip.
      eapply Forall2_impl; [exact Hs2|]. done.
    + intros r c. rewrite Hg1, Hg2. apply decide_ext, HE.
Qed.

Lemma detection_eval_depends_on_the_set_of_points_witness :
  detection_eval (λ _ _, NaN)
    [ (Finite 1, Finite 1); (Finite 0, Finite 2); (Finite 1, Finite 1) ]
    [ [0; 0; 255]; [0; 255; 0] ] 2
  = detection_eval (λ _ _, NaN)
      [ (Finite 0, Finite 2); (Finite 1, Finite 1) ]
      [ [0; 0; 255]; [0; 255; 0] ] 2.
Proof.
  apply (detection_eval_depends_on_the_set_of_points (λ _ _, NaN)).
  intros n. rewrite !elem_of_cons, !elem_of_nil. tauto.
Defined.

(** *** Counting *)

Lemma binary_binarize mask : binary (binarize mask).
Proof.
  unfold binary, binarize. apply Forall_fmap, Forall_forall. intros row _.
  simpl. apply Forall_fmap, Forall_forall. intros x _. simpl.
  case_decide; auto.
Qed.

Lemma binary_zeros_like2 a : binary (zeros_like2 a).
Proof.
  unfold binary, zeros_like2. apply Forall_fmap, Forall_forall. intros row _.
  simpl. apply Forall_fmap, Forall_forall. intros x _. simpl. auto.
Qed.

Lemma sum_zeros_like2 a : foldr Z.add 0 (concat (zeros_like2 a)) = 0.
Proof.
  unfold zeros_like2. induction a as [|row a IH]; [done|].
  rewrite fmap_cons, concat_cons, foldr_app, IH.
  induction row as [|x row IHr]; [done|]. csimpl. by rewrite IHr.
Qed.

Lemma foldr_add_acc (l : list Z) (z : Z) :
  foldr Z.add z l = foldr Z.add 0 l + z.
Proof.
  revert z. induction l as [|x l IH]; intros z; simpl; [lia|].
  rewrite IH. lia.
Qed.

Lemma sum_insert_one (row : list Z) (j : nat) :
  Forall (λ v, v = 0 ∨ v = 1) row →
  Forall (λ v, v = 0 ∨ v = 1) (<[j:=1]> row)
  ∧ foldr Z.add 0 (<[j:=1]> row) ≤ foldr Z.add 0 row + 1.
Proof.
  intros Hb. revert j. induction Hb as [|x row Hx Hb IH]; intros j.
  - split; [constructor|simpl; lia].
  - destruct j as [|j]; simpl.
    + split; [constructor; auto|]. destruct Hx as [-> | ->]; lia.
    + destruct (IH j) as [Hb' Hs]. split; [by constructor|lia].
Qed.

Lemma sum_alter_insert_one (a : list (list Z)) (i j : nat) :
  binary a →
  binary (alter (λ row : list Z, <[j:=1]> row) i a)
  ∧ foldr Z.add 0 (concat (alter (λ row : list Z, <[j:=1]> row) i a))
    ≤ foldr Z.add 0 (concat a) + 1.
Proof.
  intros Hb. revert i. induction Hb as [|row a Hrow Hb IH]; intros i.
  - split; [constructor|simpl; lia].
  - destruct i as [|i]; simpl.
    + destruct (sum_insert_one row j Hrow) as [Hr Hs].
      split; [by constructor|]. rewrite !foldr_app.
      rewrite (foldr_add_acc (<[j:=1]> row)), (foldr_add_acc row). lia.
    + destruct (IH i) as [Hb' Hs]. split; [by constructor|].
      rewrite !foldr_app.
      rewrite (foldr_add_acc row),
        (foldr_add_acc row (foldr Z.add 0 (concat a))).
      change (list_alter (λ row0 : list Z, <[j:=1]> row0) i a)
        with (alter (λ row0 : list Z, <[j:=1]> row0) i a). lia.
Qed.

(** The loop sets at most one pixel per point that passes the bounds
    test. *)
Lemma mark_all_total mask nuclei_list nm nm' :
  shape0 nm = shape0 mask → shape1 nm = shape1 mask → binary nm →
  for_each (mark_nucleus mask) nuclei_list nm = ret nm' →
  binary nm'
  ∧ foldr Z.add 0 (concat nm')
    ≤ foldr Z.add 0 (concat nm)
      + Z.of_nat (length (filter (λ n, ¬ out_of_bounds mask n) nuclei_list)).
Proof.
  revert nm. induction nuclei_list as [|n l IH]; intros nm H0 H1 Hb.
  - intros [= <-]. split; [done|]. simpl. lia.
  - cbn [for_each].
    destruct (mark_nucleus_cases mask nm n H0 H1)
      as [[Hout ->]|[[Hn ->]|(i & j & Hin & Hi & Hj & ->)]].
    + rewrite bind_ret. intros Hrun.
      rewrite filter_cons_False by tauto. by apply IH.
    + done.
    + rewrite bind_ret. intros Hrun.
      destruct (shape_alter_insert nm i j 1) as [H0' H1'].
      destruct (sum_alter_insert_one nm i j Hb) as [Hb' Hs].
      destruct (IH _ (eq_trans H0' H0) (eq_trans H1' H1) Hb' Hrun)
        as [Hb'' Hs'].
      split; [done|]. rewrite filter_cons_True by done. simpl length. lia.
Qed.

Lemma sum_product_bounds (a b : list (list Z)) :
  binary a → binary b →
  0 ≤ sum_product a b
  ∧ sum_product a b ≤ foldr Z.add 0 (concat a)
  ∧ sum_product a b ≤ foldr Z.add 0 (concat b).
Proof.
  assert (∀ l, Forall (λ v, v = 0 ∨ v = 1) l → 0 ≤ foldr Z.add 0 l) as Hpos.
  { induction 1 as [|x l [-> | ->] _ IHl]; simpl; lia. }
  assert (∀ ra rb,
            Forall (λ v, v = 0 ∨ v = 1) ra → Forall (λ v, v = 0 ∨ v = 1) rb →
            0 ≤ foldr Z.add 0 (zip_with Z.mul ra rb)
            ∧ foldr Z.add 0 (zip_with Z.mul ra rb) ≤ foldr Z.add 0 ra
            ∧ foldr Z.add 0 (zip_with Z.mul ra rb) ≤ foldr Z.add 0 rb) as Hrow.
  { intros ra rb Ha. revert rb.
    induction Ha as [|x ra Hx Ha IH]; intros rb Hb.
    - simpl. split; [lia|]. split; [lia|]. by apply Hpos.
    - destruct Hb as [|y rb Hy Hb]; simpl.
      + split; [lia|]. split; [|lia].
        pose proof (Hpos ra Ha). destruct Hx as [-> | ->]; lia.
      + destruct (IH rb Hb) as (? & ? & ?).
        destruct Hx as [-> | ->], Hy as [-> | ->]; lia. }
  unfold sum_product. intros Ha. revert b.
  induction Ha as [|ra a Hra Ha IH]; intros b Hb.
  - simpl. split; [lia|]. split; [lia|].
    apply Hpos. unfold binary in Hb. by apply Forall_concat.
  - destruct Hb as [|rb b Hrb Hb]; simpl.
    + split; [lia|]. split; [|lia].
      apply Hpos, Forall_app_2; [done|]. by apply Forall_concat.
    + destruct (IH b Hb) as (? & ? & ?).
      destruct (Hrow ra rb Hra Hrb) as (? & ? & ?).
      rewrite !foldr_app.
      rewrite (foldr_add_acc (zip_with Z.mul ra rb)), (foldr_add_acc ra),
        (foldr_add_acc rb). lia.
Qed.

Lemma positives_le_size (mask : list (list Z)) :
  positives mask ≤ Z.of_nat (length (concat mask)).
Proof.
  unfold positives, binarize.
  induction mask as [|row mask IH]; [done|].
  rewrite fmap_cons, !concat_cons, foldr_app, length_app, foldr_add_acc.
  assert (foldr Z.add 0 ((λ x, if decide (x > 0) then 1 else 0) <$> row)
          ≤ Z.of_nat (length row)) as Hrow.
  { clear. induction row as [|x row IH]; [done|]. csimpl.
    case_decide; lia. }
  lia.
Qed.

(** X20.  In the range where the binary64 arithmetic of the function is
    exact - [total_pos] between 0 and 2^53, a mask of at most 2^53
    pixels - a run of [detection_eval] that returns gives FN =
    [total_pos] - TP and the recall TP over [total_pos]; TP - the number
    of marked pixels that are positive in the mask - is at least 0, at
    most the number of points that pass the bounds test, and at most the
    number of positive pixels of the mask, itself at most the number of
    pixels; so FN stays within 2^53 in absolute value. *)
Theorem detection_eval_counts (np_divide : Z → Z → pyfloat)
    (nuclei_list : list (pyfloat * pyfloat)) (mask : list (list Z))
    (total_pos : Z) (recall : pyfloat) (TP FN : Z) :
  0 ≤ total_pos ≤ 2 ^ 53 →
  Z.of_nat (length (concat mask)) ≤ 2 ^ 53 →
  detection_eval np_divide nuclei_list mask total_pos = ret (recall, TP, FN) →
  FN = total_pos - TP
  ∧ recall = np_divide TP total_pos
  ∧ 0 ≤ TP
  ∧ TP ≤ Z.of_nat (length (filter (λ n, ¬ out_of_bounds mask n) nuclei_list))
  ∧ TP ≤ positives mask
  ∧ positives mask ≤ Z.of_nat (length (concat mask))
  ∧ - 2 ^ 53 ≤ FN ≤ 2 ^ 53.
Proof.
  intros Hpos Hsize. unfold detection_eval.
  destruct (for_each _ nuclei_list _) as [e|nm] eqn:Hloop; simpl; [done|].
  intros [= <- <- <-]. split; [done|]. split; [f_equal; lia|].
  destruct (mark_all_total (binarize mask) nuclei_list _ nm
              (shape0_zeros_like2 _) (shape1_zeros_like2 _)
              (binary_zeros_like2 _) Hloop) as [Hb Hs].
  rewrite sum_zeros_like2 in Hs.
  destruct (sum_product_bounds nm (binarize mask) Hb (binary_binarize mask))
    as (Hp & Hle1 & Hle2).
  pose proof (positives_le_size mask) as Hsz. unfold positives in *.
  assert (filter (λ n, ¬ out_of_bounds (binarize mask) n) nuclei_list
          = filter (λ n, ¬ out_of_bounds mask n) nuclei_list) as Hf.
  { apply list_filter_iff. intros n. by rewrite out_of_bounds_binarize. }
  rewrite Hf in Hs. repeat split; lia.
Qed.

Lemma detection_eval_counts_witness :
  detection_eval exact_divide
    [ (Finite 1, Finite 1); (Finite 5, Finite 0); (Finite 0, Finite 0) ]
    [ [0; 0; 255]; [0; 255; 0] ] 2
  = ret (Finite (1 # 2), 1, 1)
  ∧ 1 ≤ positives [ [0; 0; 255]; [0; 255; 0] ] ≤ 6.
Proof.
  split; [reflexivity|].
  destruct (detection_eval_counts exact_divide
              [ (Finite 1, Finite 1); (Finite 5, Finite 0); (Finite 0, Finite 0) ]
              [ [0; 0; 255]; [0; 255; 0] ] 2 (Finite (1 # 2)) 1 1)
    as (_ & _ & _ & _ & Hge & Hle & _);
    [lia | by vm_compute | reflexivity |].
  split; [exact Hge|exact Hle].
Defined.

(** ** prepare_dataset, continued *)

Lemma split_nonempty sep s : split sep s ≠ [].
Proof.
  destruct s as [|c s]; simpl; [done|].
  case_decide; [done|]. by destruct (split sep s).
Qed.

Lemma traverse_length {A B} (f : A → result B) (l : list A) (k : list B) :
  traverse f l = ret k → length k = length l.
Proof. intros H. by destruct (traverse_lookup f l k H). Qed.

(** X21.  What [prepare_dataset] raises between the construction of the
    dataset and [split_dataset], in the order of the code: the exception
    of [num_image_channel] if that raises, whatever the ratio string;
    else the exception that parsing the ratio string raises ([float] on
    a part it rejects); else, when the ratios sum to zero,
    [ZeroDivisionError] while normalising the first ratio.  In all three cases
    [SyntheticDataset] is the only imported constructor or function that
    has been called: neither [split_dataset] nor any loader is. *)
Theorem prepare_dataset_zero_ratio_sum_raises
    {dim float dataset loader : Type}
    (float_of_str : string → result float)
    (float_sum : list float → float)
    (float_is_zero : float → bool)
    (float_div : float → float → float)
    (SyntheticDataset : string → dim → result dataset)
    (num_image_channel : dataset → result Z)
    (split_dataset :
       dataset → list float → Z → result (dataset * dataset * dataset))
    (len : dataset → Z)
    (ExtendedDataset : dataset → Z → result dataset)
    (DataLoader : dataset → Z → bool → Z → result loader)
    (config : @config dim) (data : dataset) :
  dataset_name config = "synthetic" →
  SyntheticDataset (dataset_path config) (target_dim config) = ret data →
  let run :=
    prepare_dataset float_of_str float_sum float_is_zero float_div
      SyntheticDataset num_image_channel split_dataset len ExtendedDataset
      DataLoader config in
  (∀ e, num_image_channel data = raise e →
     run = ([Call_SyntheticDataset], raise e))
  ∧ (∀ channels e,
       num_image_channel data = ret channels →
       traverse float_of_str (split ":" (train_val_test_ratio config))
         = raise e →
       run = ([Call_SyntheticDataset], raise e))
  ∧ (∀ channels ratios,
       num_image_channel data = ret channels →
       traverse float_of_str (split ":" (train_val_test_ratio config))
         = ret ratios →
       float_is_zero (float_sum ratios) = true →
       run = ([Call_SyntheticDataset], raise ZeroDivisionError)).
Proof.
  intros Hname Hdata run. subst run. split; [|split].
  - intros e Hch.
    unfold prepare_dataset, tcall, tbind. rewrite decide_True by done.
    rewrite Hdata. unfold ret at 1. by rewrite Hch.
  - intros channels e Hch Hratios.
    unfold prepare_dataset, tcall, tbind. rewrite decide_True by done.
    rewrite Hdata. unfold ret at 1. rewrite Hch. unfold ret at 1.
    by rewrite Hratios.
  - intros channels ratios Hch Hratios Hzero.
    unfold prepare_dataset, tcall, tbind. rewrite decide_True by done.
    rewrite Hdata. unfold ret at 1.
    rewrite Hch. unfold ret at 1. rewrite Hratios. unfold ret at 1.
    destruct ratios as [|c ratios].
    { apply traverse_length in Hratios. symmetry in Hratios.
      apply length_zero_iff_nil in Hratios.
      by apply split_nonempty in Hratios. }
    cbn [traverse]. unfold truediv at 1. rewrite Hzero. reflexivity.
Qed.

Lemma prepare_dataset_zero_ratio_sum_raises_witness :
  sample_prepare_dataset (sample_config "0:0" "synthetic")
  = ([Call_SyntheticDataset], raise ZeroDivisionError)
  ∧ sample_prepare_dataset (sample_config "6:x:2" "synthetic")
    = ([Call_SyntheticDataset],
       raise (ValueError "could not convert string to float")).
Proof.
  destruct (prepare_dataset_zero_ratio_sum_raises digits_float Qsum
              (Qeq_bool 0) Qdiv (λ _ _, ret tt) (λ _, ret 3)
              (λ _ _ _, ret (tt, tt, tt)) (λ _, 10) (λ d _, ret d)
              (λ _ _ (shuffle : bool) _,
                 ret (if shuffle then "shuffled" else "ordered"))
              (sample_config "0:0" "synthetic") tt
              ltac:(reflexivity) ltac:(reflexivity)) as (_ & _ & Hzero).
  destruct (prepare_dataset_zero_ratio_sum_raises digits_float Qsum
              (Qeq_bool 0) Qdiv (λ _ _, ret tt) (λ _, ret 3)
              (λ _ _ _, ret (tt, tt, tt)) (λ _, 10) (λ d _, ret d)
              (λ _ _ (shuffle : bool) _,
                 ret (if shuffle then "shuffled" else "ordered"))
              (sample_config "6:x:2" "synthetic") tt
              ltac:(reflexivity) ltac:(reflexivity)) as (_ & Hparse & _).
  split.
  - apply (Hzero 3 [0%Q; 0%Q]); reflexivity.
  - apply (Hparse 3); reflexivity.
Defined.

(** X22.  [prepare_dataset] calls the four constructors and functions it
    imports - [SyntheticDataset], [split_dataset], [ExtendedDataset],
    [DataLoader]; calls of methods of the objects they return, as
    [num_image_channel] and [len], are not counted - in one order:
    whatever the configuration and whatever the collaborators do, the
    calls made are a prefix of SyntheticDataset, split_dataset,
    ExtendedDataset, DataLoader, DataLoader, DataLoader, and a run that
    returns has made all six. *)
Theorem prepare_dataset_calls_in_order
    {dim float dataset loader : Type}
    (float_of_str : string → result float)
    (float_sum : list float → float)
    (float_is_zero : float → bool)
    (float_div : float → float → float)
    (SyntheticDataset : string → dim → result dataset)
    (num_image_channel : dataset → result Z)
    (split_dataset :
       dataset → list float → Z → result (dataset * dataset * dataset))
    (len : dataset → Z)
    (ExtendedDataset : dataset → Z → result dataset)
    (DataLoader : dataset → Z → bool → Z → result loader)
    (config : @config dim) :
  let run :=
    prepare_dataset float_of_str float_sum float_is_zero float_div
      SyntheticDataset num_image_channel split_dataset len ExtendedDataset
      DataLoader config in
  run.1 `prefix_of` all_calls
  ∧ ∀ out, run.2 = ret out → run.1 = all_calls.
Proof.
  intros run. subst run.
  unfold prepare_dataset, tcall, tbind, traise, tret, all_calls, ret, raise.
  destruct (decide (dataset_name config = "synthetic")); simpl.
  2:{ split; [apply prefix_nil|done]. }
  repeat match goal with
         | |- context [match ?x with inl _ => _ | inr _ => _ end] =>
             destruct x as [?|?]; simpl
         | p : (_ * _)%type |- _ => destruct p; simpl
         end;
    (split; [unfold prefix; eexists; reflexivity|done]).
Qed.

(** ** process_MoNuSeg_data *)

Lemma load_MoNuSeg_annotation_eta regions :
  load_MoNuSeg_annotation regions
  = ((load_MoNuSeg_annotation regions).1,
     ((load_MoNuSeg_annotation regions).2.1,
      (load_MoNuSeg_annotation regions).2.2)).
Proof. reflexivity. Qed.

Lemma for_each_rasterize_binary polygon2mask centroid verts label centroids
    label' centroids' :
  binary label →
  for_each (rasterize_cell polygon2mask centroid) verts (label, centroids)
    = ret (label', centroids') →
  binary label'.
Proof.
  revert label centroids. induction verts as [|cell verts IH];
    intros label centroids Hb; cbn [for_each].
  - by intros [= <- <-].
  - unfold rasterize_cell at 1.
    destruct (int_of_float _) as [e|c0]; [done|].
    destruct (int_of_float _) as [e|c1]; [done|].
    rewrite !bind_ret. apply IH. by apply maximum_binary.
Qed.

Lemma annotation_to_label_binary polygon2mask centroid verts_list image
    image_id region_id_list label centroids :
  annotation_to_label polygon2mask centroid verts_list image image_id
    region_id_list = ret (label, centroids) →
  binary label.
Proof.
  unfold annotation_to_label. apply for_each_rasterize_binary.
  apply binary_zeros.
Qed.

Lemma np_max_binary (mask : list (list Z)) (top : Z) :
  binary mask → np_max mask = ret top → top ∈ [0; 1].
Proof.
  intros Hb. unfold np_max.
  assert (Forall (λ v, v = 0 ∨ v = 1) (concat mask)) as Hall
    by (by apply Forall_concat).
  destruct (concat mask) as [|x xs]; [done|]. intros [= <-].
  apply Forall_cons in Hall as [Hx Hxs].
  revert x Hx. induction Hxs as [|y xs Hy _ IH]; intros x Hx; simpl.
  - destruct Hx as [-> | ->]; set_solver.
  - apply IH. destruct Hx as [-> | ->], Hy as [-> | ->]; auto.
Qed.

Lemma mask_image_scaled (mask : list (list Z)) :
  binary mask → mask_image (gray (scale_mask mask)).
Proof.
  intros Hb. unfold mask_image, gray, scale_mask.
  rewrite <-list_fmap_compose. apply Forall_fmap.
  eapply Forall_impl; [exact Hb|]. intros row Hrow. simpl.
  rewrite <-list_fmap_compose. apply Forall_fmap.
  eapply Forall_impl; [exact Hrow|]. intros v [-> | ->]; simpl; auto.
Qed.

Section ProcessProperties.

Context (glob : string → list string) (imread : string → ndarray)
  (cvtColor : ndarray → color_code → option ndarray)
  (parse : string → list region)
  (polygon2mask : Z * Z → polygon → list (list bool))
  (centroid : list (list bool) → pyfloat * pyfloat).

Local Abbreviation iteration :=
  (process_annotation_file imread cvtColor parse polygon2mask centroid).

(** The outcomes of one iteration: the annotation is skipped; or it
    raises, having written no image; or it returns, having made the two
    output folders and written the image and the mask. *)
Lemma process_annotation_file_cases image_folder out_image_folder
    out_mask_folder image_files all_verts_list annotation_file :
  let image_id := image_id_of annotation_file in
  let image_file := image_folder +:+ "/" +:+ image_id +:+ ".tif" in
  let run :=
    iteration image_folder out_image_folder out_mask_folder image_files
      all_verts_list annotation_file in
  ((image_file ∉ image_files)
   ∧ run = ([Print ("Image file " +:+ image_file +:+ " not found.")],
            inr all_verts_list))
  ∨ (image_file ∈ image_files
     ∧ (∃ e, run.2 = inl e)
     ∧ imwrites (fs_events run.1) = []
     ∧ (run.2 = inl AssertionError →
        ∃ image, cvtColor (imread image_file) COLOR_BGR2RGB = Some image
                 ∧ shape2 image ≠ 3))
  ∨ (image_file ∈ image_files
     ∧ ∃ image bgr mask centroids,
         cvtColor (imread image_file) COLOR_BGR2RGB = Some image
         ∧ annotation_to_label polygon2mask centroid
             (load_MoNuSeg_annotation (parse annotation_file)).2.1 image
             image_id (load_MoNuSeg_annotation (parse annotation_file)).2.2
           = ret (mask, centroids)
         ∧ cvtColor image COLOR_RGB2BGR = Some bgr
         ∧ run.2
           = inr (all_verts_list
                    ++ (load_MoNuSeg_annotation (parse annotation_file)).2.1)
         ∧ fs_events run.1
           = [ Makedirs out_image_folder; Makedirs out_mask_folder;
               Imwrite (out_image_folder +:+ "/" +:+ image_id +:+ ".png") bgr;
               Imwrite (out_mask_folder +:+ "/" +:+ image_id +:+ ".png")
                 (gray (scale_mask mask)) ]).
Proof.
  intros image_id image_file run. subst run.
  unfold process_annotation_file. fold image_id. fold image_file.
  destruct (decide (image_file ∉ image_files)) as [Hmiss|Hin].
  { left. split; [done|reflexivity]. }
  right. apply dec_stable in Hin.
  unfold cvt, assert, lift, emit, lret, lraise.
  destruct (cvtColor (imread image_file) COLOR_BGR2RGB) as [image|] eqn:Hcvt.
  2:{ left. split; [done|]. split; [by eexists|]. split; [reflexivity|]. done. }
  cbn [lbind app].
  destruct (bool_decide (shape2 image = 3)) eqn:Hch.
  2:{ left. split; [done|]. split; [by eexists|]. split; [reflexivity|].
      intros _. exists image. split; [done|].
      by apply bool_decide_eq_false in Hch. }
  cbn [lbind app].
  rewrite (load_MoNuSeg_annotation_eta (parse annotation_file)).
  cbn [lbind app].
  destruct (annotation_to_label polygon2mask centroid _ image image_id _)
    as [e|[mask centroids]] eqn:Hlabel.
  { left. split; [done|]. split; [by eexists|]. split; [reflexivity|]. done. }
  cbn [lbind app].
  destruct (np_max mask) as [e|top] eqn:Hmax.
  { left. split; [done|]. split; [by eexists|]. split; [reflexivity|]. done. }
  cbn [lbind app].
  destruct (bool_decide (top ∈ [0; 1])) eqn:Htop.
  2:{ exfalso. apply bool_decide_eq_false in Htop. apply Htop.
      eapply np_max_binary; [|exact Hmax].
      by eapply annotation_to_label_binary. }
  cbn [lbind app].
  destruct (cvtColor image COLOR_RGB2BGR) as [bgr|] eqn:Hbgr.
  2:{ left. split; [done|]. split; [by eexists|]. split; [reflexivity|]. done. }
  cbn [lbind app].
  right. split; [done|]. exists image, bgr, mask, centroids.
  split; [done|]. split; [done|]. split; [done|]. split; [done|]. done.
Qed.

Lemma fs_events_app o1 o2 : fs_events (o1 ++ o2) = fs_events o1 ++ fs_events o2.
Proof. apply omap_app. Qed.

(** X23.  The loop over the annotation files writes images and masks
    in pairs and only for annotation files whose image was listed: the
    files written are, for some of the annotation files in their order,
    the image under [out_image_folder] and the mask under
    [out_mask_folder], both named by the image id.  An annotation file
    that is skipped or on which the run raises contributes no file, and
    every mask stored holds only the values 0 and 255. *)
Theorem annotation_loop_stores_image_mask_pairs
    (image_folder out_image_folder out_mask_folder : string)
    (image_files annotation_files : list string)
    (all_verts_list : list polygon) :
  let run :=
    lfor_each
      (iteration image_folder out_image_folder out_mask_folder image_files)
      annotation_files all_verts_list in
  ∃ stored : list (string * ndarray * ndarray),
    imwrites (fs_events run.1)
      = stored ≫= stored_pair out_image_folder out_mask_folder
    ∧ (λ e, e.1.1) <$> stored `sublist_of` image_id_of <$> annotation_files
    ∧ Forall (λ e, image_folder +:+ "/" +:+ e.1.1 +:+ ".tif" ∈ image_files
                   ∧ mask_image e.2) stored.
Proof.
  intros run. subst run. revert all_verts_list.
  induction annotation_files as [|f files IH]; intros st.
  { exists []. split; [done|]. split; [done|constructor]. }
  cbn [lfor_each].
  pose proof (process_annotation_file_cases image_folder out_image_folder
                out_mask_folder image_files st f) as Hcases.
  cbv zeta in Hcases.
  destruct (iteration image_folder out_image_folder out_mask_folder
              image_files st f) as [o r].
  cbn [fst snd] in Hcases.
  destruct Hcases as [[Hmiss [= -> ->]]
                     |[(Hin & [e ->] & Hnone & _)
                      |(Hin & image & bgr & mask & cs & Hcvt & Hlabel & Hbgr
                        & -> & Hfs)]].
  - cbn [lbind]. destruct (IH st) as (stored & Hw & Hsub & Hall).
    destruct (lfor_each _ files st) as [o' r']. cbn [fst snd] in *.
    exists stored. split; [done|]. split; [|done].
    rewrite fmap_cons. by apply sublist_cons.
  - cbn [lbind fst]. exists []. split; [done|].
    split; [apply sublist_nil_l|constructor].
  - cbn [lbind].
    destruct (IH (st ++ (load_MoNuSeg_annotation (parse f)).2.1))
      as (stored & Hw & Hsub & Hall).
    destruct (lfor_each _ files _) as [o' r']. cbn [fst snd] in *.
    exists ((image_id_of f, bgr, gray (scale_mask mask)) :: stored).
    split; [|split].
    + rewrite fs_events_app, Hfs, imwrites_app, Hw. reflexivity.
    + rewrite !fmap_cons. by apply sublist_skip.
    + constructor; [|done]. split; [done|].
      apply mask_image_scaled. by eapply annotation_to_label_binary.
Qed.

Lemma lbind_no_assertion {A B} (m : logged A) (k : A → logged B) :
  m.2 ≠ inl AssertionError → (∀ a, (k a).2 ≠ inl AssertionError) →
  (lbind m k).2 ≠ inl AssertionError.
Proof.
  destruct m as [o [e|a]]; intros Hm Hk.
  { simpl in *. intros [= ->]. by apply Hm. }
  cbn [lbind].
  specialize (Hk a). by destruct (k a).
Qed.

Lemma lfor_each_no_assertion {S X} (body : S → X → logged S) (xs : list X)
    (st : S) :
  (∀ st x, (body st x).2 ≠ inl AssertionError) →
  (lfor_each body xs st).2 ≠ inl AssertionError.
Proof.
  intros Hbody. revert st. induction xs as [|x xs IH]; intros st; [done|].
  cbn [lfor_each]. apply lbind_no_assertion; [apply Hbody|apply IH].
Qed.

(** X24.  The assertion on the mask values never fails: provided the
    colour conversion returns three-channel images (the other assertion),
    [process_MoNuSeg_data] never raises [AssertionError], whatever the
    files, the documents and the two rasterizer primitives are. *)
Theorem process_MoNuSeg_data_assertions :
  (∀ image image',
     cvtColor image COLOR_BGR2RGB = Some image' → shape2 image' = 3) →
  (process_MoNuSeg_data glob imread cvtColor parse polygon2mask centroid).2
    ≠ inl AssertionError.
Proof.
  intros Hcvt. unfold process_MoNuSeg_data.
  apply lfor_each_no_assertion. intros [] subset. unfold process_subset.
  destruct (decide (subset = "train")).
  - apply lbind_no_assertion; [|done].
    apply lfor_each_no_assertion. intros st f.
    destruct (process_annotation_file_cases
                "../../external_data/MoNuSeg/MoNuSegTrainData/Tissue Images"
                "../../external_data/MoNuSeg/MoNuSegTrainData/images/"
                "../../external_data/MoNuSeg/MoNuSegTrainData/masks/"
                (sorted (glob
                   ("../../external_data/MoNuSeg/MoNuSegTrainData/Tissue Images"
                    +:+ "/*.tif")))
                st f)
      as [[_ ->]|[(_ & _ & _ & Hassert)|(_ & ? & ? & ? & ? & _ & _ & _ & -> & _)]];
      [done| |done].
    intros E. destruct (Hassert E) as (image & Hi & Hne).
    by apply Hcvt in Hi.
  - apply lbind_no_assertion; [|done].
    apply lfor_each_no_assertion. intros st f.
    destruct (process_annotation_file_cases
                "../../external_data/MoNuSeg/MoNuSegTestData"
                "../../external_data/MoNuSeg/MoNuSegTestData/images/"
                "../../external_data/MoNuSeg/MoNuSegTestData/masks/"
                (sorted (glob
                   ("../../external_data/MoNuSeg/MoNuSegTestData"
                    +:+ "/*.tif")))
                st f)
      as [[_ ->]|[(_ & _ & _ & Hassert)|(_ & ? & ? & ? & ? & _ & _ & _ & -> & _)]];
      [done| |done].
    intros E. destruct (Hassert E) as (image & Hi & Hne).
    by apply Hcvt in Hi.
Qed.

End ProcessProperties.

Lemma shape2_sample_cvtColor image code image' :
  sample_cvtColor image code = Some image' → shape2 image' = 3.
Proof.
  unfold sample_cvtColor. case_decide as H3; [|done]. intros [= <-].
  rewrite <-H3. unfold shape2.
  destruct image as [|[|px row] image]; simpl; [done..|].
  by rewrite length_reverse.
Qed.

Lemma process_MoNuSeg_data_assertions_witness :
  (process_MoNuSeg_data sample_glob black_imread sample_cvtColor sample_parse
     full_mask origin_centroid).2
  ≠ inl AssertionError.
Proof.
  apply (process_MoNuSeg_data_assertions sample_glob black_imread
           sample_cvtColor sample_parse full_mask origin_centroid).
  intros image image'. apply shape2_sample_cvtColor.
Defined.

(** ** Image ids *)

Lemma chars_of_list (l : list ascii) : chars (String.string_of_list_ascii l) = l.
Proof. apply String.list_ascii_of_string_of_list_ascii. Qed.

Lemma takewhile_Forall {A} (p : A → bool) (l : list A) :
  Forall (λ x, p x = true ∧ x ∈ l) (takewhile p l).
Proof.
  induction l as [|x l IH]; simpl; [constructor|].
  destruct (p x) eqn:E; [|constructor].
  constructor; [split; [done|left]|].
  eapply Forall_impl; [exact IH|]. intros y [? ?]. split; [done|by right].
Qed.

Lemma takewhile_app_stop {A} (p : A → bool) (l l' : list A) (x : A) :
  Forall (λ y, p y = true) l → p x = false →
  takewhile p (l ++ x :: l') = l.
Proof.
  intros Hl Hx. induction Hl as [|y l Hy _ IH]; simpl.
  - by rewrite Hx.
  - by rewrite Hy, IH.
Qed.

(** The first component of [s.split(sep)] is [s] up to its first [sep]. *)
Lemma split_head (sep : ascii) (s : string) :
  chars (default "" (head (split sep s)))
  = takewhile (λ c, negb (bool_decide (c = sep))) (chars s).
Proof.
  induction s as [|c s IH]; [done|].
  cbn [split]. change (chars (String c s)) with (c :: chars s).
  cbn [takewhile]. destruct (decide (c = sep)) as [->|Hc].
  - by rewrite bool_decide_eq_true_2.
  - rewrite bool_decide_eq_false_2 by done. cbn [negb].
    destruct (split sep s) as [|w ws] eqn:E.
    + by apply split_nonempty in E.
    + cbn [head default from_option id] in *. change (chars (String c w)) with (c :: chars w).
      by rewrite IH.
Qed.

Lemma chars_basename (p : string) :
  chars (basename p)
  = reverse (takewhile (λ c, negb (is_slash c)) (reverse (chars p))).
Proof. unfold basename. by rewrite chars_of_list. Qed.

(** X25.  The image id of an annotation file is its base name up to
    the first dot: it never holds a dot or a slash, and for a file
    [folder/stem.rest] whose stem has neither it is [stem] - so of a base
    name with several dots only the part before the first is used to
    look up the image. *)
Theorem image_id_is_the_name_up_to_the_first_dot :
  (∀ annotation_file, plain_name (image_id_of annotation_file))
  ∧ (∀ folder stem rest,
       plain_name stem → slash_free rest →
       image_id_of (folder +:+ "/" +:+ stem +:+ "." +:+ rest) = stem).
Proof.
  split.
  - intros f. unfold plain_name, image_id_of. rewrite split_head.
    eapply Forall_impl; [apply takewhile_Forall|].
    intros c [Hdot Hin]. simpl in Hdot. split.
    + intros ->. by rewrite bool_decide_eq_true_2 in Hdot.
    + rewrite chars_basename, elem_of_reverse in Hin.
      pose proof (takewhile_Forall (λ c, negb (is_slash c))
                    (reverse (chars f))) as Hall.
      rewrite Forall_forall in Hall. destruct (Hall c Hin) as [Hs _].
      intros ->. unfold is_slash in Hs.
      by rewrite bool_decide_eq_true_2 in Hs.
  - intros folder stem rest Hstem Hrest. apply chars_inj.
    unfold image_id_of. rewrite split_head.
    assert (chars (basename (folder +:+ "/" +:+ stem +:+ "." +:+ rest))
            = chars stem ++ "."%char :: chars rest) as ->.
    { rewrite chars_basename, !chars_app.
      change (chars "/") with ["/"%char]. change (chars ".") with ["."%char].
      rewrite !reverse_app, !reverse_singleton. simpl.
      rewrite <-!app_assoc. simpl.
      replace (reverse (chars rest) ++ "."%char
                 :: reverse (chars stem) ++ "/"%char :: reverse (chars folder))
        with ((reverse (chars rest) ++ "."%char :: reverse (chars stem))
                ++ "/"%char :: reverse (chars folder))
        by (by rewrite <-app_assoc).
      rewrite takewhile_app_stop.
      - rewrite reverse_app, reverse_cons, !reverse_involutive.
        by rewrite <-app_assoc.
      - rewrite Forall_app, Forall_cons. split; [|split].
        + apply Forall_reverse. eapply Forall_impl; [exact Hrest|].
          intros c Hc. simpl. unfold is_slash.
          by rewrite bool_decide_eq_false_2.
        + done.
        + apply Forall_reverse. eapply Forall_impl; [exact Hstem|].
          intros c [_ Hc]. simpl. unfold is_slash.
          by rewrite bool_decide_eq_false_2.
      - done. }
    apply takewhile_app_stop.
    + eapply Forall_impl; [exact Hstem|]. intros c [Hc _]. simpl.
      by rewrite bool_decide_eq_false_2.
    + done.
Qed.

(** ** subset_MoNuSeg_data_by_cancer *)

(** X26.  [subset_MoNuSeg_data_by_cancer] hands 38 commands to the
    shell, an image and a mask for each of the 19 items.  Each command
    splits at spaces into exactly three words, [cp], a source and a
    destination (no path holds a space); no destination occurs twice; and
    the directory of every destination has been made by an earlier
    [os.makedirs] call. *)
Theorem subset_MoNuSeg_data_by_cancer_copies :
  length (shell_commands subset_MoNuSeg_data_by_cancer) = 38%nat
  ∧ Forall (λ cmd, ∃ source destination,
              split " " cmd = ["cp"; source; destination])
      (shell_commands subset_MoNuSeg_data_by_cancer)
  ∧ NoDup (copy_destination <$> shell_commands subset_MoNuSeg_data_by_cancer)
  ∧ prepared [] (copies_as_writes subset_MoNuSeg_data_by_cancer).
Proof.
  split; [reflexivity|]. split; [|split].
  - vm_compute. repeat (constructor; [by eexists _, _|]). constructor.
  - apply (bool_decide_unpack _). by vm_compute.
  - apply (bool_decide_unpack _). by vm_compute.
Qed.
